(** * ovs-cni plugin: a shallow embedding of [pkg/plugin/plugin.go]

    The file embeds the attachment coordinator of the OVS CNI plugin
    (trunk resolver, bridge resolver, MAC derivation, link-state polling,
    the ADD and DEL verbs) and proves properties of it.

    Conventions.
    - Go's [uint] values are in [N]; [int] values are in [Z].
    - A Go [error] is a value of [error]; the nil error is [None] of
      [option error]; a pair (value, err) is a [result].
    - Functions of other packages (ovsdb, sriov, ipam, netlink, ns, ip,
      config, utils, Go's standard library) are not part of the embedded
      file: every one is a field of the record [Env], an oracle which gives
      the outcome of a call from its arguments and from the history of the
      calls made so far.  Every call is appended to the trace of the
      [World]. *)

From Stdlib Require Import ZArith NArith String Ascii List Lia Bool.
From Stdlib Require DecimalString.
From stdpp Require Import base option list gmap sets strings sorting.

Import ListNotations.
Local Open Scope string_scope.
Local Open Scope list_scope.

(** ** Errors and results *)

(** Go errors.  [errors_New] and [fmt_Errorf] are the two constructors the
    plugin itself uses; [fmt_Errorf] keeps the format string, the arguments
    printed as text and the errors wrapped.  [ErrLinkNotFound] is the
    sentinel [ip.ErrLinkNotFound] and [NSPathNotExistErr] the error type
    [ns.NSPathNotExistErr], which CmdDel tells apart from other errors. *)
#[warnings="-register-all"]
Inductive error : Type :=
| errors_New (msg : string)
| fmt_Errorf (format : string) (args : list string) (wrapped : list error)
| ErrLinkNotFound
| NSPathNotExistErr (msg : string).

Inductive result (A : Type) : Type :=
| Ok (a : A)
| Err (e : error).
Arguments Ok {A} a.
Arguments Err {A} e.

Definition result_bind {A B} (r : result A) (k : A -> result B) : result B :=
  match r with
  | Ok a => k a
  | Err e => Err e
  end.

Notation "'let?' x ':=' r 'in' k" := (result_bind r (fun x => k))
  (at level 10, x name, r at level 100, k at level 200).

Definition is_Ok {A} (r : result A) : bool :=
  match r with Ok _ => true | Err _ => false end.

(** ** VLAN / trunk resolver: [splitVlanIds] *)

(** [types.Trunk]: three optional [uint] fields (pointers in Go).  The
    entries of the list are taken to be non-nil pointers. *)
Record Trunk : Type := mkTrunk {
  MinID : option N;
  MaxID : option N;
  ID : option N
}.

(** The values of [v] in [for v := minID; v <= maxID; v++]: the loop is
    entered with [maxID <= 4096], so [v] never wraps. *)
Definition rangeIds (minID maxID : N) : list N :=
  map (fun k => (minID + N.of_nat k)%N) (seq 0 (N.to_nat (maxID + 1 - minID))).

(** [for v := minID; v <= maxID; v++ { vlans[v] = true }] *)
Definition addRange (minID maxID : N) (vlans : gset N) : gset N :=
  fold_left (fun vl v => {[ v ]} ∪ vl) (rangeIds minID maxID) vlans.

(** The body of the loop over [trunks] for one [item]. *)
Definition splitVlanIds_item (vlans : gset N) (item : Trunk) : result (gset N) :=
  let? minID :=
    match MinID item with
    | Some m =>
        if (4096 <? m)%N
        then Err (errors_New "incorrect trunk minID parameter")
        else Ok m
    | None => Ok 0%N
    end in
  let? maxID :=
    match MaxID item with
    | Some m =>
        if (4096 <? m)%N
        then Err (errors_New "incorrect trunk maxID parameter")
        else if (m <? minID)%N
        then Err (errors_New "minID is greater than maxID in trunk parameter")
        else Ok m
    | None => Ok 0%N
    end in
  let vlans1 :=
    if ((0 <? minID)%N && (0 <? maxID)%N)%bool
    then addRange minID maxID vlans
    else vlans in
  match ID item with
  | Some id =>
      (* the source tests [minID] here, not [id] *)
      if (4096 <? minID)%N
      then Err (errors_New "incorrect trunk id parameter")
      else Ok ({[ id ]} ∪ vlans1)
  | None => Ok vlans1
  end.

Fixpoint splitVlanIds_loop (vlans : gset N) (trunks : list Trunk) : result (gset N) :=
  match trunks with
  | [] => Ok vlans
  | item :: rest =>
      let? vlans' := splitVlanIds_item vlans item in
      splitVlanIds_loop vlans' rest
  end.

(** The keys of the map, sorted by [<] ([sort.Slice]). *)
Definition sortedKeys (vlans : gset N) : list N :=
  merge_sort N.le (elements vlans).

Definition splitVlanIds (trunks : list Trunk) : result (list N) :=
  let? vlans := splitVlanIds_loop ∅ trunks in
  if decide (size vlans = 0)
  then Err (errors_New "trunk parameter is misconfigured")
  else Ok (sortedKeys vlans).

(** ** Data of the plugin *)

(** [skel.CmdArgs] *)
Record CmdArgs : Type := mkCmdArgs {
  ContainerID : string;
  Netns : string;
  IfName : string;
  Args : string;
  StdinData : string
}.

(** [EnvArgs] (the fields the plugin reads) *)
Record EnvArgs : Type := mkEnvArgs {
  MAC : string;
  OvnPort : string;
  K8S_POD_UID : string
}.

(** [types.NetConf]: the fields read by ADD and DEL. *)
Record NetConf : Type := mkNetConf {
  CNIVersion : string;
  IPAM_Type : string;
  BrName : string;
  VlanTag : option N;
  Trunk_ : list Trunk;
  OfportRequest : N;
  InterfaceType : string;
  MTU : Z;
  DeviceID : string;
  SocketFile : string;
  LinkStateCheckRetries : Z;
  LinkStateCheckInterval : Z
}.

(** [netconf.BrName = bridgeName] *)
Definition set_BrName (netconf : NetConf) (bridgeName : string) : NetConf :=
  {| CNIVersion := CNIVersion netconf; IPAM_Type := IPAM_Type netconf;
     BrName := bridgeName; VlanTag := VlanTag netconf; Trunk_ := Trunk_ netconf;
     OfportRequest := OfportRequest netconf; InterfaceType := InterfaceType netconf;
     MTU := MTU netconf; DeviceID := DeviceID netconf; SocketFile := SocketFile netconf;
     LinkStateCheckRetries := LinkStateCheckRetries netconf;
     LinkStateCheckInterval := LinkStateCheckInterval netconf |}.

(** [types.CachedNetConf] *)
Record CachedNetConf : Type := mkCachedNetConf {
  Netconf : NetConf;
  OrigIfName : string;
  UserspaceMode : bool
}.

(** [current.Interface] *)
Record Interface : Type := mkInterface {
  Name : string;
  Mac : string;
  Sandbox : string
}.

Definition set_Mac (iface : Interface) (mac : string) : Interface :=
  {| Name := Name iface; Mac := mac; Sandbox := Sandbox iface |}.

(** [net.IP] and [net.HardwareAddr] are byte slices. *)
Abbreviation IP := (list Byte.byte).
Abbreviation HardwareAddr := (list Byte.byte).

(** [current.IPConfig]: the index of the owning interface ([*int]) and the
    address; [ipRest] stands for the mask and the gateway, which the plugin
    passes on untouched. *)
Record IPConfig : Type := mkIPConfig {
  ipInterface : option Z;
  Address_IP : IP;
  ipRest : string
}.

Definition set_ipInterface (ipc : IPConfig) (ix : Z) : IPConfig :=
  {| ipInterface := Some ix; Address_IP := Address_IP ipc; ipRest := ipRest ipc |}.

(** [current.Result]; [resRest] stands for routes and DNS. *)
Record Result : Type := mkResult {
  Interfaces : list Interface;
  IPs : list IPConfig;
  resRest : string
}.

(** [net.Interface] as returned by [ip.SetupVeth], and [netlink.Link]. *)
Record NetInterface : Type := mkNetInterface {
  niName : string;
  niHardwareAddr : HardwareAddr
}.

Record Link : Type := mkLink {
  linkName : string;
  linkHardwareAddr : HardwareAddr;
  linkIsVeth : bool
}.

(** ** Go standard library: [net.HardwareAddr.String] and [net.IP.To4] *)

Definition hexDigit (n : N) : ascii :=
  match n with
  | 0 => "0" | 1 => "1" | 2 => "2" | 3 => "3" | 4 => "4" | 5 => "5" | 6 => "6"
  | 7 => "7" | 8 => "8" | 9 => "9" | 10 => "a" | 11 => "b" | 12 => "c"
  | 13 => "d" | 14 => "e" | _ => "f"
  end%N%char.

Definition hexByte (b : Byte.byte) : string :=
  String (hexDigit (N.shiftr (Byte.to_N b) 4))
    (String (hexDigit (N.land (Byte.to_N b) 15)) EmptyString).

(** [len(a) == 0] gives the empty string, otherwise the bytes in hexadecimal
    separated by colons. *)
Fixpoint HardwareAddr_String (a : HardwareAddr) : string :=
  match a with
  | [] => ""
  | [b] => hexByte b
  | b :: rest => (hexByte b ++ ":" ++ HardwareAddr_String rest)%string
  end.

Definition isZeros (p : list Byte.byte) : bool :=
  forallb (fun b => Byte.eqb b Byte.x00) p.

(** [ip.To4()]: a 4-byte address is returned as it is, a 16-byte address
    with the prefix [0:0:0:0:0:ffff] gives its last four bytes, anything
    else nil. *)
Definition To4 (ip : IP) : option IP :=
  if (length ip =? 4)%nat then Some ip
  else if ((length ip =? 16)%nat && isZeros (firstn 10 ip)
           && Byte.eqb (nth 10 ip Byte.x00) Byte.xff
           && Byte.eqb (nth 11 ip Byte.x00) Byte.xff)%bool
       then Some (firstn 4 (skipn 12 ip))
       else None.

(** ** The world outside the plugin *)

(** One event per call that leaves the plugin. *)
Inductive Event : Type :=
| EvLogCall (command : string) (args : CmdArgs)
| EvLogPrintf (format : string) (args : list string) (errs : list error)
| EvNewOvsDriver (socketFile : string)
| EvNewOvsBridgeDriver (bridgeName socketFile : string)
| EvHasUserspaceDriver (deviceID : string)
| EvFindInterfacesWithError
| EvDeletePort (portName : string)
| EvGetNS (netns : string)
| EvNetnsClose (netns : string)
| EvGetVFLinkName (deviceID : string)
| EvSaveCache (cRef : string) (c : CachedNetConf)
| EvLoadConfFromCache (cRef : string)
| EvCleanCache (cRef : string)
| EvSetupSriovInterface (netns containerID ifName mac : string) (mtu : Z)
    (deviceID : string) (userspaceMode : bool)
| EvNetnsDo (netns : string)
| EvSetupVeth (contIfaceName : string) (mtu : Z) (requestedMac : string)
| EvLinkByName (name : string)
| EvLinkSetUp (name : string)
| EvCreatePort (hostIfaceName contNetnsPath contIfaceName ovnPortName : string)
    (ofportRequest vlanTag : N) (trunks : list N)
    (portType intfType contPodUid : string)
| EvGetOvsPortForContIface (contIface contNetnsPath : string)
| EvExecAdd (ipamType stdin : string)
| EvExecDel (ipamType stdin : string)
| EvGetOFPortOpState (ofPortName : string)
| EvSleep (nanoseconds : Z)
| EvLinkSetHardwareAddr (name : string) (mac : HardwareAddr)
| EvConfigureIface (ifName : string) (res : Result)
| EvInterfaceByName (name : string)
| EvGratuitousArpOverIface (ip : IP) (ifName : string)
| EvPrintResult (res : Result) (version : string)
| EvGetNetRepresentor (deviceID : string)
| EvResetVF (args : CmdArgs) (deviceID origIfName : string)
| EvReleaseVF (args : CmdArgs) (origIfName : string)
| EvWithNetNSPath (netns : string)
| EvDelLinkByName (name : string).

Abbreviation History := (list Event).

(** The functions the plugin calls in other packages.  The first group only
    reads its arguments or state that the plugin never changes; the second
    group answers from the history of the calls made before. *)
Record Env : Type := mkEnv {
  (* cnitypes.LoadArgs, config.LoadConf, config.GetCRef *)
  LoadArgs : string -> result EnvArgs;
  LoadConf : string -> result NetConf;
  GetCRef : string -> string -> string;
  (* sriov *)
  IsOvsHardwareOffloadEnabled : string -> bool;
  GetBridgeUplinkNameByDeviceID : string -> result (list string);
  (* ovsdb.OvsDriver *)
  FindBridgeByInterface : string -> result string;
  (* current.NewResultFromResult, on the raw result of the IPAM plugin *)
  NewResultFromResult : string -> result Result;
  (* crypto/sha256 and net.IP.String *)
  sha256_Sum256 : list Byte.byte -> list Byte.byte;
  IP_String : IP -> string;

  NewOvsDriver : History -> string -> option error;
  NewOvsBridgeDriver : History -> string -> string -> option error;
  HasUserspaceDriver : History -> string -> result bool;
  FindInterfacesWithError : History -> result (list string);
  DeletePort : History -> string -> option error;
  GetNS : History -> string -> option error;
  GetVFLinkName : History -> string -> result string;
  SaveCache_fails : History -> string -> CachedNetConf -> option error;
  CleanCache_fails : History -> string -> option error;
  SetupSriovInterface :
    History -> string -> string -> string -> string -> Z -> string -> bool ->
    result (Interface * Interface);
  netns_Do_enter : History -> string -> option error;
  ip_SetupVeth : History -> string -> Z -> string -> result (NetInterface * NetInterface);
  LinkByName : History -> string -> result Link;
  LinkSetUp : History -> string -> option error;
  CreatePort :
    History -> string -> string -> string -> string -> N -> N -> list N ->
    string -> string -> string -> option error;
  GetOvsPortForContIface : History -> string -> string -> string * bool * option error;
  ExecAdd : History -> string -> string -> result string;
  ExecDel : History -> string -> string -> option error;
  GetOFPortOpState : History -> string -> result string;
  LinkSetHardwareAddr : History -> string -> HardwareAddr -> option error;
  ConfigureIface : History -> string -> Result -> option error;
  InterfaceByName : History -> string -> result NetInterface;
  GratuitousArpOverIface : History -> IP -> string -> option error;
  PrintResult : History -> Result -> string -> option error;
  GetNetRepresentor : History -> string -> result string;
  ResetVF : History -> CmdArgs -> string -> string -> option error;
  ReleaseVF : History -> CmdArgs -> string -> option error;
  WithNetNSPath_enter : History -> string -> option error;
  DelLinkByName : History -> string -> option error
}.

(** The cache store and the trace of the calls made so far. *)
Record World : Type := mkWorld {
  cache : gmap string CachedNetConf;
  trace : History
}.

(** ** A state monad over the world *)

Definition M (A : Type) : Type := World -> A * World.

Definition ret {A} (a : A) : M A := fun w => (a, w).

Definition bind {A B} (m : M A) (k : A -> M B) : M B :=
  fun w => let (a, w') := m w in k a w'.

Notation "x <- m ;; k" := (bind m (fun x => k))
  (at level 100, m at next level, right associativity).
Notation "m ;;; k" := (bind m (fun _ => k))
  (at level 100, right associativity).

(** A call that leaves the plugin: the oracle answers from the history,
    then the call is recorded. *)
Definition call {R} (ev : Event) (oracle : History -> R) : M R :=
  fun w => (oracle (trace w), mkWorld (cache w) (trace w ++ [ev])).

Definition logPrintf (format : string) (args : list string) (errs : list error) : M unit :=
  call (EvLogPrintf format args errs) (fun _ => tt).

Definition logCall (command : string) (args : CmdArgs) : M unit :=
  call (EvLogCall command args) (fun _ => tt).

(** Modelled from the spec: utils.SaveCache, save(key, record) -> error
    (the cache store, with config.LoadConfFromCache and utils.CleanCache, is
    not in the embedded file); a save that reports an error leaves the
    store as it was. *)
Definition SaveCache (env : Env) (cRef : string) (c : CachedNetConf) : M (option error) :=
  fun w =>
    let w' := mkWorld (cache w) (trace w ++ [EvSaveCache cRef c]) in
    match SaveCache_fails env (trace w) cRef c with
    | Some e => (Some e, w')
    | None => (None, mkWorld (<[cRef := c]> (cache w)) (trace w'))
    end.

(** Modelled from the spec: config.LoadConfFromCache, load(key) ->
    (record, error); the load fails when the store holds no record for the
    key. *)
Definition LoadConfFromCache (cRef : string) : M (result CachedNetConf) :=
  fun w =>
    (match cache w !! cRef with
     | Some c => Ok c
     | None => Err (errors_New "failed to read container data")
     end,
     mkWorld (cache w) (trace w ++ [EvLoadConfFromCache cRef])).

(** Modelled from the spec: utils.CleanCache, delete(key) -> error; a
    delete that reports an error leaves the store as it was. *)
Definition CleanCache (env : Env) (cRef : string) : M (option error) :=
  fun w =>
    let w' := mkWorld (cache w) (trace w ++ [EvCleanCache cRef]) in
    match CleanCache_fails env (trace w) cRef with
    | Some e => (Some e, w')
    | None => (None, mkWorld (delete cRef (cache w)) (trace w'))
    end.

(** ** The plugin: helpers *)

Definition nonEmpty (s : string) : bool := negb (String.eqb s "").

(** [getEnvArgs]: nil when the string is empty. *)
Definition getEnvArgs (env : Env) (envArgsString : string) : result (option EnvArgs) :=
  if nonEmpty envArgsString then
    match LoadArgs env envArgsString with
    | Err err => Err err
    | Ok e => Ok (Some e)
    end
  else Ok None.

Definition getHardwareAddr (env : Env) (ifName : string) : M string :=
  r <- call (EvLinkByName ifName) (fun h => LinkByName env h ifName) ;;
  match r with
  | Err _ => ret ""
  | Ok ifLink => ret (HardwareAddr_String (linkHardwareAddr ifLink))
  end.

Definition byteAt (l : list Byte.byte) (i : nat) : Byte.byte := nth i l Byte.x00.

Definition IPAddrToHWAddr (env : Env) (ip : IP) : HardwareAddr :=
  match To4 ip with
  | Some ip4 =>
      [Byte.x0a; Byte.x58; byteAt ip4 0; byteAt ip4 1; byteAt ip4 2; byteAt ip4 3]
  | None =>
      let hash := sha256_Sum256 env (list_byte_of_string (IP_String env ip)) in
      [Byte.x0a; Byte.x58; byteAt hash 0; byteAt hash 1; byteAt hash 2; byteAt hash 3]
  end.

Definition setInterfaceUp (env : Env) (name : string) : M (option error) :=
  r <- call (EvLinkByName name) (fun h => LinkByName env h name) ;;
  match r with
  | Err err => ret (Some err)
  | Ok link =>
      e <- call (EvLinkSetUp (linkName link)) (fun h => LinkSetUp env h (linkName link)) ;;
      match e with
      | Some err => ret (Some err)
      | None => ret None
      end
  end.

Definition refetchIface (env : Env) (iface : Interface) : M (Interface * option error) :=
  mac <- getHardwareAddr env (Name iface) ;;
  ret (set_Mac iface mac, None).

(** [setupVeth]; the namespace handle [contNetns] is its path. *)
Definition setupVeth (env : Env) (contNetns contIfaceName requestedMac : string) (mtu : Z)
  : M (result (Interface * Interface)) :=
  entered <- call (EvNetnsDo contNetns) (fun h => netns_Do_enter env h contNetns) ;;
  match entered with
  | Some err => ret (Err err)
  | None =>
      r <- call (EvSetupVeth contIfaceName mtu requestedMac)
             (fun h => ip_SetupVeth env h contIfaceName mtu requestedMac) ;;
      match r with
      | Err err => ret (Err err)
      | Ok (hostVeth, containerVeth) =>
          up <- setInterfaceUp env contIfaceName ;;
          match up with
          | Some err => ret (Err err)
          | None =>
              let contIface :=
                {| Name := niName containerVeth;
                   Mac := HardwareAddr_String (niHardwareAddr containerVeth);
                   Sandbox := contNetns |} in
              let hostIface := {| Name := niName hostVeth; Mac := ""; Sandbox := "" |} in
              (* Refetch the hostIface *)
              x <- refetchIface env hostIface ;;
              match snd x with
              | Some err => ret (Err err)
              | None => ret (Ok (fst x, contIface))
              end
          end
      end
  end.

Definition assignMacToLink (env : Env) (link : Link) (mac : HardwareAddr) (name : string)
  : M (option error) :=
  e <- call (EvLinkSetHardwareAddr (linkName link) mac)
         (fun h => LinkSetHardwareAddr env h (linkName link) mac) ;;
  match e with
  | Some err =>
      ret (Some (fmt_Errorf "failed to set container iface %q MAC %q: %v"
                   [name; HardwareAddr_String mac] [err]))
  | None => ret None
  end.

(** The loop of [getBridgeName] over the uplink names still to try. *)
Fixpoint getBridgeName_uplinks (env : Env) (possibleUplinkNames rest : list string)
    (errList : list error) : result string :=
  match rest with
  | [] =>
      Err (fmt_Errorf "failed to find bridge by uplink names %v: %v"
             possibleUplinkNames errList)
  | uplinkName :: rest' =>
      match FindBridgeByInterface env uplinkName with
      | Err err =>
          getBridgeName_uplinks env possibleUplinkNames rest'
            (errList ++
             [fmt_Errorf
                "failed to get bridge name - failed to find bridge name by uplink name %s: %v"
                [uplinkName] [err]])
      | Ok bridgeName => Ok bridgeName
      end
  end.

Definition getBridgeName (env : Env) (bridgeName ovnPort deviceID : string) : result string :=
  if nonEmpty bridgeName then Ok bridgeName
  else if (String.eqb bridgeName "" && nonEmpty ovnPort)%bool then Ok "br-int"
  else if nonEmpty deviceID then
    match GetBridgeUplinkNameByDeviceID env deviceID with
    | Err err =>
        Err (fmt_Errorf "failed to get bridge name - failed to resolve uplink name: %v"
               [] [err])
    | Ok possibleUplinkNames =>
        getBridgeName_uplinks env possibleUplinkNames possibleUplinkNames []
    end
  else Err (fmt_Errorf "failed to get bridge name" [] []).

Definition attachIfaceToBridge (env : Env) (hostIfaceName contIfaceName : string)
    (ofportRequest vlanTag : N) (trunks : list N)
    (portType intfType contNetnsPath ovnPortName contPodUid : string) : M (option error) :=
  e <- call (EvCreatePort hostIfaceName contNetnsPath contIfaceName ovnPortName
               ofportRequest vlanTag trunks portType intfType contPodUid)
         (fun h => CreatePort env h hostIfaceName contNetnsPath contIfaceName ovnPortName
                     ofportRequest vlanTag trunks portType intfType contPodUid) ;;
  match e with
  | Some err => ret (Some err)
  | None =>
      r <- call (EvLinkByName hostIfaceName) (fun h => LinkByName env h hostIfaceName) ;;
      match r with
      | Err err => ret (Some err)
      | Ok hostLink =>
          u <- call (EvLinkSetUp (linkName hostLink))
                 (fun h => LinkSetUp env h (linkName hostLink)) ;;
          match u with
          | Some err => ret (Some err)
          | None => ret None
          end
      end
  end.

Definition getOvsPortForContIface (env : Env) (contIface contNetnsPath : string)
  : M (string * bool * option error) :=
  call (EvGetOvsPortForContIface contIface contNetnsPath)
    (fun h => GetOvsPortForContIface env h contIface contNetnsPath).

Definition removeOvsPort (env : Env) (portName : string) : M (option error) :=
  call (EvDeletePort portName) (fun h => DeletePort env h portName).

(** The loop of [cleanPorts]: a failed deletion is logged only. *)
Fixpoint cleanPorts_loop (env : Env) (ifaces : list string) : M unit :=
  match ifaces with
  | [] => ret tt
  | iface :: rest =>
      logPrintf "Info: interface %s has error: removing corresponding port" [iface] [] ;;;
      e <- call (EvDeletePort iface) (fun h => DeletePort env h iface) ;;
      match e with
      | Some err => logPrintf "Error: %v\n" [] [err]
      | None => ret tt
      end ;;;
      cleanPorts_loop env rest
  end.

Definition cleanPorts (env : Env) : M (option error) :=
  r <- call EvFindInterfacesWithError (fun h => FindInterfacesWithError env h) ;;
  match r with
  | Err err => ret (Some (fmt_Errorf "clean ports: %v" [] [err]))
  | Ok ifaces => cleanPorts_loop env ifaces ;;; ret None
  end.

(** ** Link-state polling: [waitLinkUp] *)

(** Go's [int64] wrap-around, for [time.Duration(interval) * time.Millisecond]. *)
Definition wrap_int64 (z : Z) : Z :=
  ((z + 2 ^ 63) mod 2 ^ 64 - 2 ^ 63)%Z.

(** The loop [for i := 1; i <= retryCount; i++] over the values of [i] still
    to come. *)
Fixpoint waitLinkUp_loop (env : Env) (ofPortName : string) (retryCount checkInterval : Z)
    (idxs : list Z) : M (option error) :=
  match idxs with
  | [] => ret None
  | i :: rest =>
      r <- call (EvGetOFPortOpState ofPortName) (fun h => GetOFPortOpState env h ofPortName) ;;
      up <- match r with
            | Err err =>
                logPrintf "error in retrieving port %s state: %v" [ofPortName] [err] ;;;
                ret false
            | Ok portState => ret (String.eqb portState "up")
            end ;;
      if up : bool then ret None (* break *)
      else if (i =? retryCount)%Z then
        ret (Some (fmt_Errorf
                     "The OF port %s state is not up, try increasing number of retries/interval config parameter"
                     [ofPortName] []))
      else
        call (EvSleep checkInterval) (fun _ => tt) ;;;
        waitLinkUp_loop env ofPortName retryCount checkInterval rest
  end.

Definition waitLinkUp (env : Env) (ofPortName : string) (retryCount interval : Z)
  : M (option error) :=
  let checkInterval := wrap_int64 (interval * 1000000) in
  waitLinkUp_loop env ofPortName retryCount checkInterval
    (map (fun k => Z.of_nat k) (seq 1 (Z.to_nat retryCount))).

(** ** The ADD verb: [CmdAdd] *)

(** How a block of a Go function ends: with a [return] statement, which
    fixes the value returned while the function's variable [err] holds
    [errvar], or by falling through to the next statement.  The deferred
    closures of CmdAdd and CmdDel read the variable [err], not the value
    returned. *)
Inductive Flow (A : Type) : Type :=
| Return (retval : option error) (errvar : option error)
| Continue (a : A) (errvar : option error).
Arguments Return {A} retval errvar.
Arguments Continue {A} a errvar.

Definition isSome {A} (o : option A) : bool :=
  match o with Some _ => true | None => false end.

(** The port-kind computation at the head of CmdAdd: the values of
    [vlanTagNum], [trunks] and [portType] passed to the switch, or the error
    returned. *)
Definition CmdAdd_portKind (netconf : NetConf) : result (N * list N * string) :=
  if (negb (isSome (VlanTag netconf)) || (0 <? length (Trunk_ netconf))%nat)%bool then
    if (0 <? length (Trunk_ netconf))%nat then
      match splitVlanIds (Trunk_ netconf) with
      | Err err => Err err
      | Ok trunkVlanIds => Ok (0%N, ([] ++ trunkVlanIds)%list, "trunk")
      end
    else Ok (0%N, [], "trunk")
  else
    match VlanTag netconf with
    | Some tag => Ok (tag, [], "access")
    | None => Ok (0%N, [], "access")
    end.

(** The deferred rollback armed after [attachIfaceToBridge]. *)
Definition CmdAdd_rollback (env : Env) (args : CmdArgs) (errvar : option error) : M unit :=
  match errvar with
  | None => ret tt
  | Some _ =>
      x <- getOvsPortForContIface env (IfName args) (Netns args) ;;
      let '(portName, portFound, err) := x in
      match err with
      | Some e => logPrintf "Failed best-effort cleanup: %v" [] [e]
      | None => ret tt
      end ;;;
      if portFound : bool then
        e <- removeOvsPort env portName ;;
        match e with
        | Some e' => logPrintf "Failed best-effort cleanup: %v" [] [e']
        | None => ret tt
        end
      else ret tt
  end.

(** The deferred compensation registered after [ipam.ExecAdd]. *)
Definition CmdAdd_ipamDel (env : Env) (args : CmdArgs) (netconf : NetConf)
    (errvar : option error) : M unit :=
  match errvar with
  | None => ret tt
  | Some _ =>
      e <- call (EvExecDel (IPAM_Type netconf) (StdinData args))
             (fun h => ExecDel env h (IPAM_Type netconf) (StdinData args)) ;;
      match e with
      | Some e' => logPrintf "Failed best-effort cleanup IPAM configuration: %v" [] [e']
      | None => ret tt
      end
  end.

(** Gratuitous ARP for every IPv4 address; a failure is logged only. *)
Fixpoint CmdAdd_garp (env : Env) (ifName : string) (ips : list IPConfig) : M unit :=
  match ips with
  | [] => ret tt
  | ipc :: rest =>
      match To4 (Address_IP ipc) with
      | Some _ =>
          e <- call (EvGratuitousArpOverIface (Address_IP ipc) ifName)
                 (fun h => GratuitousArpOverIface env h (Address_IP ipc) ifName) ;;
          match e with
          | Some err =>
              logPrintf "error sending garp for ip %s: %v" [IP_String env (Address_IP ipc)] [err]
          | None => ret tt
          end
      | None => ret tt
      end ;;;
      CmdAdd_garp env ifName rest
  end.

(** [newResult.Interfaces[0].Mac = mac] *)
Definition set_Mac0 (res : Result) (mac : string) : Result :=
  {| Interfaces :=
       match Interfaces res with
       | [] => []
       | i0 :: rest => set_Mac i0 mac :: rest
       end;
     IPs := IPs res; resRest := resRest res |}.

(** The first block of the closure run inside the container namespace,
    [if mac == "" && !offload && len(newResult.IPs) >= 1 { ... }]: the MAC
    derived from the first address is assigned to the container link.  The
    error returned by the closure, if any, and [newResult] as the block
    leaves it. *)
Definition CmdAdd_assignMac (env : Env) (args : CmdArgs) (mac : string) (netconf : NetConf)
    (newResult : Result) : M (option error * Result) :=
  match IPs newResult with
  | ipc0 :: _ =>
      if (String.eqb mac "" && negb (IsOvsHardwareOffloadEnabled env (DeviceID netconf)))%bool
      then
        let containerMac := IPAddrToHWAddr env (Address_IP ipc0) in
        r <- call (EvLinkByName (IfName args)) (fun h => LinkByName env h (IfName args)) ;;
        match r with
        | Err err =>
            ret (Some (fmt_Errorf "failed to lookup container interface %q: %v"
                         [IfName args] [err]), newResult)
        | Ok containerLink =>
            e <- assignMacToLink env containerLink containerMac (IfName args) ;;
            match e with
            | Some err => ret (Some err, newResult)
            | None => ret (None, set_Mac0 newResult (HardwareAddr_String containerMac))
            end
        end
      else ret (None, newResult)
  | [] => ret (None, newResult)
  end.

(** The rest of the closure: the container interface is configured with the
    addresses and routes, then the gratuitous ARPs are sent. *)
Definition CmdAdd_configureIface (env : Env) (args : CmdArgs) (newResult : Result)
  : M (option error) :=
  e <- call (EvConfigureIface (IfName args) newResult)
         (fun h => ConfigureIface env h (IfName args) newResult) ;;
  match e with
  | Some err => ret (Some err)
  | None =>
      r <- call (EvInterfaceByName (IfName args))
             (fun h => InterfaceByName env h (IfName args)) ;;
      match r with
      | Err err =>
          ret (Some (fmt_Errorf "failed to look up %q: %v" [IfName args] [err]))
      | Ok contVeth =>
          CmdAdd_garp env (niName contVeth) (IPs newResult) ;;;
          ret None
      end
  end.

(** The closure passed to [contNetns.Do] once the link is up. *)
Definition CmdAdd_configure (env : Env) (args : CmdArgs) (mac : string) (netconf : NetConf)
    (newResult : Result) : M (option error * Result) :=
  x <- CmdAdd_assignMac env args mac netconf newResult ;;
  match fst x with
  | Some err => ret (Some err, snd x)
  | None =>
      e <- CmdAdd_configureIface env args (snd x) ;;
      ret (e, snd x)
  end.

(** [newResult] once its interface list and the interface index of its
    addresses are set. *)
Definition CmdAdd_newResult (contIface : Interface) (newResult0 : Result) : Result :=
  {| Interfaces := [contIface];
     IPs := map (fun ipc => set_ipInterface ipc 0) (IPs newResult0);
     resRest := resRest newResult0 |}.

(** The last loop of CmdAdd: every address gets the index of each interface
    named [ifName] in turn. *)
Fixpoint fixInterfaceIndex (ifName : string) (ifIndex : Z) (ifaces : list Interface)
    (ips : list IPConfig) : list IPConfig :=
  match ifaces with
  | [] => ips
  | ifCfg :: rest =>
      fixInterfaceIndex ifName (ifIndex + 1)%Z rest
        (if String.eqb (Name ifCfg) ifName
         then map (fun ipc => set_ipInterface ipc ifIndex) ips
         else ips)
  end.

(** The block [if netconf.IPAM.Type != "" && !userspaceMode { ... }]. *)
Definition CmdAdd_ipam (env : Env) (args : CmdArgs) (mac : string) (netconf : NetConf)
    (hostIface contIface : Interface) : M (Flow Result) :=
  r <- call (EvExecAdd (IPAM_Type netconf) (StdinData args))
         (fun h => ExecAdd env h (IPAM_Type netconf) (StdinData args)) ;;
  match r with
  | Err err =>
      ret (Return (Some (fmt_Errorf "failed to set up IPAM plugin type %q: %v"
                           [IPAM_Type netconf] [err]))
             (Some err))
  | Ok raw =>
      match NewResultFromResult env raw with
      | Err err => ret (Return (Some err) (Some err))
      | Ok newResult0 =>
          if (length (IPs newResult0) =? 0)%nat then
            (* [err] is nil here *)
            ret (Return (Some (errors_New "IPAM plugin returned missing IP config")) None)
          else
            let newResult := CmdAdd_newResult contIface newResult0 in
            e <- waitLinkUp env (Name hostIface) (LinkStateCheckRetries netconf)
                   (LinkStateCheckInterval netconf) ;;
            match e with
            | Some err => ret (Return (Some err) (Some err))
            | None =>
                entered <- call (EvNetnsDo (Netns args))
                             (fun h => netns_Do_enter env h (Netns args)) ;;
                x <- match entered with
                     | Some err => ret (Some err, newResult)
                     | None => CmdAdd_configure env args mac netconf newResult
                     end ;;
                match fst x with
                | Some err => ret (Return (Some err) (Some err))
                | None =>
                    let res := snd x in
                    let ifaces := hostIface :: firstn 1 (Interfaces res) in
                    ret (Continue
                           {| Interfaces := ifaces;
                              IPs := fixInterfaceIndex (IfName args) 0 ifaces (IPs res);
                              resRest := resRest res |}
                           None)
                end
            end
      end
  end.

(** CmdAdd from [result := &current.Result{...}] on, with the deferred
    closures run in reverse order of registration once the value to return
    is fixed. *)
Definition CmdAdd_armed (env : Env) (args : CmdArgs) (mac : string) (netconf : NetConf)
    (userspaceMode : bool) (hostIface contIface : Interface) : M (option error) :=
  let result := {| Interfaces := [hostIface; contIface]; IPs := []; resRest := "" |} in
  if (nonEmpty (IPAM_Type netconf) && negb userspaceMode)%bool then
    flow <- CmdAdd_ipam env args mac netconf hostIface contIface ;;
    fin <- match flow with
           | Return retval errvar => ret (retval, errvar)
           | Continue result' errvar =>
               retval <- call (EvPrintResult result' (CNIVersion netconf))
                           (fun h => PrintResult env h result' (CNIVersion netconf)) ;;
               ret (retval, errvar)
           end ;;
    CmdAdd_ipamDel env args netconf (snd fin) ;;;
    CmdAdd_rollback env args (snd fin) ;;;
    ret (fst fin)
  else
    retval <- call (EvPrintResult result (CNIVersion netconf))
                (fun h => PrintResult env h result (CNIVersion netconf)) ;;
    (* [err] is nil: attachIfaceToBridge succeeded *)
    CmdAdd_rollback env args None ;;;
    ret retval.

(** The values CmdAdd has computed when it opens the container namespace. *)
Record Prepared : Type := mkPrepared {
  p_mac : string;
  p_ovnPort : string;
  p_contPodUid : string;
  p_netconf : NetConf;          (* with the resolved bridge name *)
  p_userspaceMode : bool;
  p_vlanTagNum : N;
  p_trunks : list N;
  p_portType : string
}.

(** CmdAdd from [getEnvArgs] up to and including [ns.GetNS]: the error
    returned, or the values computed. *)
Definition CmdAdd_prelude (env : Env) (args : CmdArgs) : M (result Prepared) :=
  match getEnvArgs env (Args args) with
  | Err err => ret (Err err)
  | Ok envArgs =>
      let mac := match envArgs with Some e => MAC e | None => "" end in
      let ovnPort := match envArgs with Some e => OvnPort e | None => "" end in
      let contPodUid := match envArgs with Some e => K8S_POD_UID e | None => "" end in
      match LoadConf env (StdinData args) with
      | Err err => ret (Err err)
      | Ok netconf0 =>
          match CmdAdd_portKind netconf0 with
          | Err err => ret (Err err)
          | Ok (vlanTagNum, trunks, portType) =>
              d <- call (EvNewOvsDriver (SocketFile netconf0))
                     (fun h => NewOvsDriver env h (SocketFile netconf0)) ;;
              match d with
              | Some err => ret (Err err)
              | None =>
                  match getBridgeName env (BrName netconf0) ovnPort (DeviceID netconf0) with
                  | Err err => ret (Err err)
                  | Ok bridgeName =>
                      (* netconf.BrName = bridgeName *)
                      let netconf := set_BrName netconf0 bridgeName in
                      b <- call (EvNewOvsBridgeDriver bridgeName (SocketFile netconf))
                             (fun h => NewOvsBridgeDriver env h bridgeName (SocketFile netconf)) ;;
                      match b with
                      | Some err => ret (Err err)
                      | None =>
                          um <- (if IsOvsHardwareOffloadEnabled env (DeviceID netconf)
                                 then call (EvHasUserspaceDriver (DeviceID netconf))
                                        (fun h => HasUserspaceDriver env h (DeviceID netconf))
                                 else ret (Ok false)) ;;
                          match um with
                          | Err err => ret (Err err)
                          | Ok userspaceMode =>
                              c <- cleanPorts env ;;
                              match c with
                              | Some err => ret (Err err)
                              | None =>
                                  g <- call (EvGetNS (Netns args))
                                         (fun h => GetNS env h (Netns args)) ;;
                                  match g with
                                  | Some err =>
                                      ret (Err (fmt_Errorf "failed to open netns %q: %v"
                                                  [Netns args] [err]))
                                  | None =>
                                      ret (Ok (mkPrepared mac ovnPort contPodUid netconf
                                                 userspaceMode vlanTagNum trunks portType))
                                  end
                              end
                          end
                      end
                  end
              end
          end
      end
  end.

(** CmdAdd from [sriov.GetVFLinkName] up to and including
    [attachIfaceToBridge]: the cache record is saved, the interface pair
    provisioned and the switch port created.  The error returned, or the
    pair (hostIface, contIface). *)
Definition CmdAdd_provision (env : Env) (args : CmdArgs) (p : Prepared)
  : M (result (Interface * Interface)) :=
  let netconf := p_netconf p in
  o <- (if (IsOvsHardwareOffloadEnabled env (DeviceID netconf)
            && negb (p_userspaceMode p))%bool
        then call (EvGetVFLinkName (DeviceID netconf))
               (fun h => GetVFLinkName env h (DeviceID netconf))
        else ret (Ok "")) ;;
  match o with
  | Err err => ret (Err err)
  | Ok origIfName =>
      (* Cache NetConf for CmdDel *)
      saved <- SaveCache env (GetCRef env (ContainerID args) (IfName args))
                 {| Netconf := netconf; OrigIfName := origIfName;
                    UserspaceMode := p_userspaceMode p |} ;;
      match saved with
      | Some err => ret (Err (fmt_Errorf "error saving NetConf %q" [] [err]))
      | None =>
          ifs <- (if IsOvsHardwareOffloadEnabled env (DeviceID netconf)
                  then call (EvSetupSriovInterface (Netns args) (ContainerID args) (IfName args)
                               (p_mac p) (MTU netconf) (DeviceID netconf) (p_userspaceMode p))
                         (fun h => SetupSriovInterface env h (Netns args) (ContainerID args)
                                     (IfName args) (p_mac p) (MTU netconf) (DeviceID netconf)
                                     (p_userspaceMode p))
                  else setupVeth env (Netns args) (IfName args) (p_mac p) (MTU netconf)) ;;
          match ifs with
          | Err err => ret (Err err)
          | Ok (hostIface, contIface) =>
              a <- attachIfaceToBridge env (Name hostIface) (Name contIface)
                     (OfportRequest netconf) (p_vlanTagNum p) (p_trunks p) (p_portType p)
                     (InterfaceType netconf) (Netns args) (p_ovnPort p) (p_contPodUid p) ;;
              match a with
              | Some err => ret (Err err)
              | None => ret (Ok (hostIface, contIface))
              end
          end
      end
  end.

(** The deferred [contNetns.Close()] runs last, on every return after
    [ns.GetNS]. *)
Definition CmdAdd (env : Env) (args : CmdArgs) : M (option error) :=
  logCall "ADD" args ;;;
  prepared <- CmdAdd_prelude env args ;;
  match prepared with
  | Err err => ret (Some err)
  | Ok p =>
      provisioned <- CmdAdd_provision env args p ;;
      retval <- match provisioned with
                | Err err => ret (Some err)
                | Ok (hostIface, contIface) =>
                    CmdAdd_armed env args (p_mac p) (p_netconf p) (p_userspaceMode p)
                      hostIface contIface
                end ;;
      call (EvNetnsClose (Netns args)) (fun _ => tt) ;;;
      ret retval
  end.

(** ** The DEL verb: [CmdDel] *)

(** The block [if args.Netns == "" { ... return nil }]: the value returned
    and the value of the function's variable [err] at that time. *)
Definition CmdDel_noNetns (env : Env) (args : CmdArgs) (cache_ : CachedNetConf)
  : M (option error * option error) :=
  if IsOvsHardwareOffloadEnabled env (DeviceID (Netconf cache_)) then
    r <- call (EvGetNetRepresentor (DeviceID (Netconf cache_)))
           (fun h => GetNetRepresentor env h (DeviceID (Netconf cache_))) ;;
    match r with
    | Err err => ret (Some err, Some err)
    | Ok rep =>
        (* [err = removeOvsPort(...)]: assigned to the function's [err] *)
        err1 <- removeOvsPort env rep ;;
        match err1 with
        | Some e => logPrintf "Error: %v\n" [] [e]
        | None => ret tt
        end ;;;
        if negb (UserspaceMode cache_) then
          err2 <- call (EvResetVF args (DeviceID (Netconf cache_)) (OrigIfName cache_))
                    (fun h => ResetVF env h args (DeviceID (Netconf cache_))
                                (OrigIfName cache_)) ;;
          match err2 with
          | Some e => ret (Some e, Some e)
          | None => ret (None, None)        (* return nil *)
          end
        else ret (None, err1)               (* return nil *)
    end
  else
    (* [if err := cleanPorts(...)]: a new [err], the function's one stays nil *)
    c <- cleanPorts env ;;
    match c with
    | Some e => ret (Some e, None)
    | None => ret (None, None)              (* return nil *)
    end.

(** CmdDel from [getOvsPortForContIface] on (the namespace path is not
    empty). *)
Definition CmdDel_withNetns (env : Env) (args : CmdArgs) (cache_ : CachedNetConf)
  : M (option error * option error) :=
  x <- getOvsPortForContIface env (IfName args) (Netns args) ;;
  let '(portName, portFound, err0) := x in
  match err0 with
  | Some e =>
      ret (Some (fmt_Errorf "Failed to obtain OVS port for given connection: %v" [] [e]),
           Some e)
  | None =>
      removed <- (if portFound : bool then removeOvsPort env portName else ret None) ;;
      match removed with
      | Some e => ret (Some e, None)  (* [if err := removeOvsPort(...)]: a new [err] *)
      | None =>
          flow <-
            (if IsOvsHardwareOffloadEnabled env (DeviceID (Netconf cache_)) then
               if negb (UserspaceMode cache_) then
                 err1 <- call (EvReleaseVF args (OrigIfName cache_))
                           (fun h => ReleaseVF env h args (OrigIfName cache_)) ;;
                 match err1 with
                 | Some _ =>
                     r <- call (EvResetVF args (DeviceID (Netconf cache_)) (OrigIfName cache_))
                            (fun h => ResetVF env h args (DeviceID (Netconf cache_))
                                        (OrigIfName cache_)) ;;
                     match r with
                     | Some e' =>
                         logPrintf "Failed best-effort cleanup of VF %s: %v"
                           [OrigIfName cache_] [e']
                     | None => ret tt
                     end
                 | None => ret tt
                 end ;;;
                 ret (Continue tt err1)
               else ret (Continue tt None)
             else
               entered <- call (EvWithNetNSPath (Netns args))
                            (fun h => WithNetNSPath_enter env h (Netns args)) ;;
               err1 <- match entered with
                       | Some e => ret (Some e)
                       | None =>
                           call (EvDelLinkByName (IfName args))
                             (fun h => DelLinkByName env h (IfName args))
                       end ;;
               match err1 with
               | Some (NSPathNotExistErr _) | Some ErrLinkNotFound =>
                   (if portFound : bool then
                      e <- call (EvDelLinkByName portName)
                             (fun h => DelLinkByName env h portName) ;;
                      match e with
                      | Some e' =>
                          logPrintf "Failed best-effort cleanup of %s: %v" [portName] [e']
                      | None => ret tt
                      end
                    else ret tt) ;;;
                   ret (Return None err1)   (* return nil *)
               | _ => ret (Continue tt err1)
               end) ;;
          match flow with
          | Return retval errvar => ret (retval, errvar)
          | Continue _ errvar =>
              (* [if err := cleanPorts(...)]: a new [err] *)
              c <- cleanPorts env ;;
              match c with
              | Some e => ret (Some e, errvar)
              | None => ret (errvar, errvar) (* return err *)
              end
          end
      end
  end.

(** CmdDel after the cache record was loaded and the deferred closure
    registered: the value returned and the final value of the function's
    variable [err]. *)
Definition CmdDel_body (env : Env) (args : CmdArgs) (cache_ : CachedNetConf)
  : M (option error * option error) :=
  match getEnvArgs env (Args args) with
  | Err err => ret (Some err, Some err)
  | Ok envArgs =>
      let ovnPort := match envArgs with Some e => OvnPort e | None => "" end in
      d <- call (EvNewOvsDriver (SocketFile (Netconf cache_)))
             (fun h => NewOvsDriver env h (SocketFile (Netconf cache_))) ;;
      match d with
      | Some err => ret (Some err, Some err)
      | None =>
          match getBridgeName env (BrName (Netconf cache_)) ovnPort
                  (DeviceID (Netconf cache_)) with
          | Err err => ret (Some err, Some err)
          | Ok bridgeName =>
              b <- call (EvNewOvsBridgeDriver bridgeName (SocketFile (Netconf cache_)))
                     (fun h => NewOvsBridgeDriver env h bridgeName
                                 (SocketFile (Netconf cache_))) ;;
              match b with
              | Some err => ret (Some err, Some err)
              | None =>
                  i <- (if nonEmpty (IPAM_Type (Netconf cache_))
                        then call (EvExecDel (IPAM_Type (Netconf cache_)) (StdinData args))
                               (fun h => ExecDel env h (IPAM_Type (Netconf cache_))
                                           (StdinData args))
                        else ret None) ;;
                  match i with
                  | Some err => ret (Some err, Some err)
                  | None =>
                      if String.eqb (Netns args) ""
                      then CmdDel_noNetns env args cache_
                      else CmdDel_withNetns env args cache_
                  end
              end
          end
      end
  end.

(** The deferred closure of CmdDel: the cache record is cleaned when the
    function's variable [err] is nil. *)
Definition CmdDel_deferred (env : Env) (cRef : string) (errvar : option error) : M unit :=
  match errvar with
  | None =>
      e <- CleanCache env cRef ;;
      match e with
      | Some err => logPrintf "Failed cleaning up cache: %v" [] [err]
      | None => ret tt
      end
  | Some _ => ret tt
  end.

Definition CmdDel (env : Env) (args : CmdArgs) : M (option error) :=
  logCall "DEL" args ;;;
  let cRef := GetCRef env (ContainerID args) (IfName args) in
  loaded <- LoadConfFromCache cRef ;;
  match loaded with
  | Err _ => ret None
  | Ok cache_ =>
      x <- CmdDel_body env args cache_ ;;
      CmdDel_deferred env cRef (snd x) ;;;
      ret (fst x)
  end.

(** ** The CHECK verb: [CmdCheck] and its validators *)

(** [%d] of a [uint] and [%v] of a [[]uint]. *)
Definition fmt_uint (n : N) : string :=
  DecimalString.NilZero.string_of_uint (N.to_uint n).

Definition fmt_uints (l : list N) : string :=
  ("[" ++ String.concat " " (map fmt_uint l) ++ "]")%string.

Definition validateCache (cache_ : CachedNetConf) (netconf : NetConf) : option error :=
  if negb (String.eqb (BrName (Netconf cache_)) (BrName netconf)) then
    Some (fmt_Errorf "BrName mismatch. cache=%s,netconf=%s"
            [BrName (Netconf cache_); BrName netconf] [])
  else if negb (String.eqb (SocketFile (Netconf cache_)) (SocketFile netconf)) then
    Some (fmt_Errorf "SocketFile mismatch. cache=%s,netconf=%s"
            [SocketFile (Netconf cache_); SocketFile netconf] [])
  else if negb (String.eqb (IPAM_Type (Netconf cache_)) (IPAM_Type netconf)) then
    Some (fmt_Errorf "IPAM mismatch. cache=%s,netconf=%s"
            [IPAM_Type (Netconf cache_); IPAM_Type netconf] [])
  else if negb (String.eqb (DeviceID (Netconf cache_)) (DeviceID netconf)) then
    Some (fmt_Errorf "DeviceID mismatch. cache=%s,netconf=%s"
            [DeviceID (Netconf cache_); DeviceID netconf] [])
  else None.

Definition validateInterface (env : Env) (intf : Interface) (isHost hwOffload : bool)
  : M (option error) :=
  let iftype := if isHost then "Host" else "Container" in
  if String.eqb (Name intf) "" then
    ret (Some (fmt_Errorf "%s interface name missing in prevResult: %v"
                 [iftype; Name intf] []))
  else
    r <- call (EvLinkByName (Name intf)) (fun h => LinkByName env h (Name intf)) ;;
    match r with
    | Err _ =>
        ret (Some (fmt_Errorf "Error: %s Interface name in prevResult: %s not found"
                     [iftype; Name intf] []))
    | Ok link =>
        if (negb isHost && String.eqb (Sandbox intf) "")%bool then
          ret (Some (fmt_Errorf "Error: %s interface %s should not be in host namespace"
                       [iftype; linkName link] []))
        else if (negb hwOffload && negb (linkIsVeth link))%bool then
          ret (Some (fmt_Errorf "Error: %s interface %s not of type veth/p2p"
                       [iftype; linkName link] []))
        else if (nonEmpty (Mac intf)
                 && negb (String.eqb (Mac intf)
                            (HardwareAddr_String (linkHardwareAddr link))))%bool then
          ret (Some (fmt_Errorf "Error: Interface %s Mac %s doesn't match %s Mac: %s"
                       [Name intf; Mac intf; iftype;
                        HardwareAddr_String (linkHardwareAddr link)] []))
        else ret None
    end.

(** The switch database as [validateOvs] reads it.  [validateOvs] changes
    nothing and makes each of these calls at most once, so the answers are
    taken as functions of the arguments alone. *)
Record OvsQueries : Type := mkOvsQueries {
  q_NewOvsBridgeDriver : string -> string -> option error;
  q_IsBridgePresent : string -> result bool;
  q_FindInterfacesWithError : result (list string);
  (* (vlanMode, tag, trunk) *)
  q_GetOFPortVlanState : string -> result (string * option N * list N)
}.

(** [for i := 0; i < len(trunk); i++ { if trunk[i] != netconfTrunks[i] ... }]:
    true when some index differs.  The loop runs once the two lengths are
    known to be equal. *)
Definition trunkDiffers (trunk netconfTrunks : list N) : bool :=
  existsb (fun i => negb (N.eqb (nth i trunk 0%N) (nth i netconfTrunks 0%N)))
    (seq 0 (length trunk)).

(** [validateOvs], the block [// check vlan tag]. *)
Definition validateOvs_tag (netconf : NetConf) (vlanMode : string) (tag : option N)
  : option error :=
  match VlanTag netconf with
  | None =>
      match tag with
      | Some t => Some (fmt_Errorf "vlan tag mismatch. ovs=%d,netconf=nil" [fmt_uint t] [])
      | None => None
      end
  | Some conf =>
      match tag with
      | None =>
          Some (fmt_Errorf "vlan tag mismatch. ovs=nil,netconf=%d" [fmt_uint conf] [])
      | Some t =>
          if negb (N.eqb t conf) then
            Some (fmt_Errorf "vlan tag mismatch. ovs=%d,netconf=%d"
                    [fmt_uint t; fmt_uint conf] [])
          else if negb (String.eqb vlanMode "access") then
            Some (fmt_Errorf "vlan mode mismatch. expected=access,real=%s" [vlanMode] [])
          else None
      end
  end.

(** [validateOvs], the comparison of the live trunk IDs with the expected
    ones: the lengths, then each index, then the mode. *)
Definition validateOvs_compareTrunks (vlanMode : string) (trunk netconfTrunks : list N)
  : option error :=
  if negb (length trunk =? length netconfTrunks)%nat then
    Some (fmt_Errorf "trunk mismatch. ovs=%v,netconf=%v"
            [fmt_uints trunk; fmt_uints netconfTrunks] [])
  else if (0 <? length netconfTrunks)%nat then
    if trunkDiffers trunk netconfTrunks then
      Some (fmt_Errorf "trunk mismatch. ovs=%v,netconf=%v"
              [fmt_uints trunk; fmt_uints netconfTrunks] [])
    else if negb (String.eqb vlanMode "trunk") then
      Some (fmt_Errorf "vlan mode mismatch. expected=trunk,real=%s" [vlanMode] [])
    else None
  else None.

(** [validateOvs], the block [// check trunk]. *)
Definition validateOvs_trunk (netconf : NetConf) (vlanMode : string) (trunk : list N)
  : option error :=
  match (if (0 <? length (Trunk_ netconf))%nat
         then match splitVlanIds (Trunk_ netconf) with
              | Err err => Err err
              | Ok trunkVlanIds => Ok ([] ++ trunkVlanIds)
              end
         else Ok []) with
  | Err err => Some err
  | Ok netconfTrunks => validateOvs_compareTrunks vlanMode trunk netconfTrunks
  end.

(** The checks of [validateOvs] on the VLAN state of the host port: the tag,
    then the trunk. *)
Definition validateOvs_vlan (netconf : NetConf) (vlanMode : string) (tag : option N)
    (trunk : list N) : option error :=
  match validateOvs_tag netconf vlanMode tag with
  | Some err => Some err
  | None => validateOvs_trunk netconf vlanMode trunk
  end.

Definition validateOvs (q : OvsQueries) (netconf : NetConf) (hostIfname : string)
  : option error :=
  match q_NewOvsBridgeDriver q (BrName netconf) (SocketFile netconf) with
  | Some err => Some err
  | None =>
      match q_IsBridgePresent q (BrName netconf) with
      | Err err => Some err
      | Ok found =>
          if negb found then
            Some (fmt_Errorf "Error: bridge %s is not found in OVS" [BrName netconf] [])
          else
            match q_FindInterfacesWithError q with
            | Err err => Some err
            | Ok ifaces =>
                if (0 <? length ifaces)%nat then
                  Some (fmt_Errorf "Error: There are some interfaces in error state: %v"
                          ifaces [])
                else
                  match q_GetOFPortVlanState q hostIfname with
                  | Err err =>
                      Some (fmt_Errorf "Error: Failed to retrieve port %s state: %v"
                              [hostIfname] [err])
                  | Ok (vlanMode, tag, trunk) => validateOvs_vlan netconf vlanMode tag trunk
                  end
            end
      end
  end.

(** CmdCheck from its start up to [if cache.UserspaceMode { return nil }]:
    the value returned ([inl]), or the configuration with the re-resolved
    bridge name and the cache record with which the check goes on ([inr]). *)
Definition CmdCheck_cache (env : Env) (args : CmdArgs)
  : M (option error + NetConf * CachedNetConf) :=
  logCall "CHECK" args ;;;
  match LoadConf env (StdinData args) with
  | Err err => ret (inl (Some err))
  | Ok netconf0 =>
      match getEnvArgs env (Args args) with
      | Err err => ret (inl (Some err))
      | Ok envArgs =>
          let ovnPort := match envArgs with Some e => OvnPort e | None => "" end in
          d <- call (EvNewOvsDriver (SocketFile netconf0))
                 (fun h => NewOvsDriver env h (SocketFile netconf0)) ;;
          match d with
          | Some err => ret (inl (Some err))
          | None =>
              match getBridgeName env (BrName netconf0) ovnPort (DeviceID netconf0) with
              | Err err => ret (inl (Some err))
              | Ok bridgeName =>
                  let netconf := set_BrName netconf0 bridgeName in
                  loaded <- LoadConfFromCache
                              (GetCRef env (ContainerID args) (IfName args)) ;;
                  match loaded with
                  | Err err => ret (inl (Some err))
                  | Ok cache_ =>
                      match validateCache cache_ netconf with
                      | Some err => ret (inl (Some err))
                      | None =>
                          if UserspaceMode cache_ then ret (inl None)
                          else ret (inr (netconf, cache_))
                      end
                  end
              end
          end
      end
  end.

(** The loop of CmdCheck over the interfaces of the previous result, with
    [contIntf] and [hostIntf] as found so far: the error returned by the
    validation of a host interface, or the pair found. *)
Fixpoint CmdCheck_findInterfaces (env : Env) (args : CmdArgs) (ovsHWOffloadEnable : bool)
    (ifaces : list Interface) (contIntf hostIntf : Interface)
  : M (result (Interface * Interface)) :=
  match ifaces with
  | [] => ret (Ok (contIntf, hostIntf))
  | intf :: rest =>
      if String.eqb (IfName args) (Name intf) then
        CmdCheck_findInterfaces env args ovsHWOffloadEnable rest
          (if String.eqb (Netns args) (Sandbox intf) then intf else contIntf) hostIntf
      else
        e <- validateInterface env intf true ovsHWOffloadEnable ;;
        match e with
        | Some err => ret (Err err)
        | None =>
            CmdCheck_findInterfaces env args ovsHWOffloadEnable rest contIntf intf
        end
  end.

(** The interfaces CmdCheck works with: the loop started from two zero
    values, then the test that the namespace is the one configured. *)
Definition CmdCheck_interfaces (env : Env) (args : CmdArgs) (ovsHWOffloadEnable : bool)
    (ifaces : list Interface) : M (result (Interface * Interface)) :=
  let zero := {| Name := ""; Mac := ""; Sandbox := "" |} in
  r <- CmdCheck_findInterfaces env args ovsHWOffloadEnable ifaces zero zero ;;
  match r with
  | Err err => ret (Err err)
  | Ok (contIntf, hostIntf) =>
      if negb (String.eqb (Netns args) (Sandbox contIntf)) then
        ret (Err (fmt_Errorf "Sandbox in prevResult %s doesn't match configured netns: %s"
                    [Sandbox contIntf; Netns args] []))
      else ret (Ok (contIntf, hostIntf))
  end.

(** ** A concrete world for running the verbs *)

Definition demo_netconf (vlanTag : option N) (trunk : list Trunk) (ipamType : string) : NetConf :=
  {| CNIVersion := "1.0.0"; IPAM_Type := ipamType; BrName := "br0";
     VlanTag := vlanTag; Trunk_ := trunk; OfportRequest := 0%N;
     InterfaceType := ""; MTU := 1500%Z; DeviceID := "";
     SocketFile := "unix:/var/run/openvswitch/db.sock";
     LinkStateCheckRetries := 3%Z; LinkStateCheckInterval := 100%Z |}.

Definition demo_args (netns : string) : CmdArgs :=
  {| ContainerID := "c1"; Netns := netns; IfName := "eth0"; Args := ""; StdinData := "{}" |}.

Definition demo_link (name : string) : Link :=
  {| linkName := name;
     linkHardwareAddr := [Byte.x02; Byte.x00; Byte.x00; Byte.x00; Byte.x00; Byte.x01];
     linkIsVeth := true |}.

(** An environment with software (veth) attachments only, in which every
    call succeeds except for the outcomes given as arguments: the
    configuration loaded, the outcome of the IPAM add, of a link lookup, of a
    link deletion, of a port deletion, of the scan for interfaces in error
    and of a poll of the port state. *)
Definition demo_env (conf : NetConf) (execAdd : result string)
    (linkByName : string -> result Link)
    (delLink deletePort : string -> option error)
    (withError : result (list string))
    (opState : History -> result string) : Env :=
  {| LoadArgs := fun _ => Ok {| MAC := ""; OvnPort := ""; K8S_POD_UID := "" |};
     LoadConf := fun _ => Ok conf;
     GetCRef := fun cid ifname => (cid ++ "-" ++ ifname)%string;
     IsOvsHardwareOffloadEnabled := fun deviceID => nonEmpty deviceID;
     GetBridgeUplinkNameByDeviceID := fun deviceID =>
       if String.eqb deviceID "0000:03:00.1" then Ok ["eth2"; "eth3"] else Ok ["eth4"];
     FindBridgeByInterface := fun uplinkName =>
       if String.eqb uplinkName "eth3" then Ok "br-phys" else Err (errors_New "no bridge");
     NewResultFromResult := fun raw =>
       Ok {| Interfaces := [];
             IPs := if nonEmpty raw
                    then [ {| ipInterface := None;
                              Address_IP := [Byte.x0a; Byte.x00; Byte.x00; Byte.x05];
                              ipRest := "/24" |} ]
                    else [];
             resRest := "" |};
     sha256_Sum256 := fun _ => repeat Byte.x00 32;
     IP_String := fun _ => "";
     NewOvsDriver := fun _ _ => None;
     NewOvsBridgeDriver := fun _ _ _ => None;
     HasUserspaceDriver := fun _ _ => Ok false;
     FindInterfacesWithError := fun _ => withError;
     DeletePort := fun _ name => deletePort name;
     GetNS := fun _ _ => None;
     GetVFLinkName := fun _ _ => Ok "";
     SaveCache_fails := fun _ _ _ => None;
     CleanCache_fails := fun _ _ => None;
     SetupSriovInterface := fun _ _ _ _ _ _ _ _ => Err (errors_New "no sriov");
     netns_Do_enter := fun _ _ => None;
     ip_SetupVeth := fun _ contIfaceName _ _ =>
       Ok ({| niName := "veth1"; niHardwareAddr := [] |},
           {| niName := contIfaceName;
              niHardwareAddr := [Byte.x02; Byte.x00; Byte.x00; Byte.x00; Byte.x00; Byte.x02] |});
     LinkByName := fun _ name => linkByName name;
     LinkSetUp := fun _ _ => None;
     CreatePort := fun _ _ _ _ _ _ _ _ _ _ _ => None;
     GetOvsPortForContIface := fun _ _ _ => ("veth1", true, None);
     ExecAdd := fun _ _ _ => execAdd;
     ExecDel := fun _ _ _ => None;
     GetOFPortOpState := fun h _ => opState h;
     LinkSetHardwareAddr := fun _ _ _ => None;
     ConfigureIface := fun _ _ _ => None;
     InterfaceByName := fun _ name => Ok {| niName := name; niHardwareAddr := [] |};
     GratuitousArpOverIface := fun _ _ _ => None;
     PrintResult := fun _ _ _ => None;
     GetNetRepresentor := fun _ _ => Err (errors_New "no sriov");
     ResetVF := fun _ _ _ _ => None;
     ReleaseVF := fun _ _ _ => None;
     WithNetNSPath_enter := fun _ _ => None;
     DelLinkByName := fun _ name => delLink name |}.

Definition emptyWorld : World := {| cache := ∅; trace := [] |}.

(** ** Vocabulary of the statements *)

(** The IDs an entry contributes in the source: its single ID, and the
    members of its range when both bounds are given and the lower one is
    not 0 (the loop over the range is guarded by [minID > 0 && maxID > 0]). *)
Definition itemMember (item : Trunk) (v : N) : Prop :=
  ID item = Some v ∨
  ∃ lo hi, MinID item = Some lo ∧ MaxID item = Some hi ∧ (0 < lo)%N ∧ (lo <= v <= hi)%N.

Definition codeMember (trunks : list Trunk) (v : N) : Prop :=
  ∃ item, item ∈ trunks ∧ itemMember item v.

(** The union of the specified single IDs and range members, as the
    specification words it: every range contributes all its members. *)
Definition specMember (trunks : list Trunk) (v : N) : Prop :=
  ∃ item, item ∈ trunks ∧
    (ID item = Some v ∨
     ∃ lo hi, MinID item = Some lo ∧ MaxID item = Some hi ∧ (lo <= v <= hi)%N).

(** An entry the source rejects: a bound above 4096, or a maximum below the
    minimum (an absent minimum counts as 0). *)
Definition rejectedItem (item : Trunk) : Prop :=
  (∃ m, MinID item = Some m ∧ (4096 < m)%N) ∨
  (∃ m, MaxID item = Some m ∧ ((4096 < m)%N ∨ (m < default 0%N (MinID item))%N)).

(** The switch database knows no bridge for this uplink. *)
Definition uplinkFails (env : Env) (uplinkName : string) : Prop :=
  is_Ok (FindBridgeByInterface env uplinkName) = false.

(** The error [getBridgeName] records for a candidate uplink. *)
Definition uplinkError (env : Env) (uplinkName : string) : error :=
  match FindBridgeByInterface env uplinkName with
  | Err err =>
      fmt_Errorf "failed to get bridge name - failed to find bridge name by uplink name %s: %v"
        [uplinkName] [err]
  | Ok _ => errors_New ""
  end.

(** The 16-byte form [::ffff:a.b.c.d] of an IPv4 address. *)
Definition v4InV6 (a b c d : Byte.byte) : IP :=
  repeat Byte.x00 10 ++ [Byte.xff; Byte.xff; a; b; c; d].

(** A poll of the port state made with history [h] reports "up". *)
Definition reportsUp (env : Env) (ofPortName : string) (h : History) : Prop :=
  GetOFPortOpState env h ofPortName = Ok "up".

(** The line [waitLinkUp] logs when the poll made with history [h] fails. *)
Definition pollError (env : Env) (ofPortName : string) (h : History) : list Event :=
  match GetOFPortOpState env h ofPortName with
  | Err err => [EvLogPrintf "error in retrieving port %s state: %v" [ofPortName] [err]]
  | Ok _ => []
  end.

(** The events of one round of [waitLinkUp] that does not end the loop: the
    poll, the log line if the poll failed, the sleep. *)
Definition pollRound (env : Env) (ofPortName : string) (d : Z) (h : History) : list Event :=
  (EvGetOFPortOpState ofPortName :: pollError env ofPortName h ++ [EvSleep d])%list.

(** The events of [k] such rounds in a row, started with history [h]. *)
Fixpoint rounds (env : Env) (ofPortName : string) (d : Z) (h : History) (k : nat)
  : list Event :=
  match k with
  | O => []
  | S k' =>
      let t := pollRound env ofPortName d h in
      (t ++ rounds env ofPortName d (h ++ t) k')%list
  end.

Definition isPollOrSleep (ev : Event) : bool :=
  match ev with
  | EvGetOFPortOpState _ | EvSleep _ => true
  | _ => false
  end.

(** [n] polls with a sleep of [d] between two of them. *)
Fixpoint pollSchedule (ofPortName : string) (d : Z) (n : nat) : list Event :=
  match n with
  | O => []
  | S O => [EvGetOFPortOpState ofPortName]
  | S n' => EvGetOFPortOpState ofPortName :: EvSleep d :: pollSchedule ofPortName d n'
  end.

Definition waitLinkUp_error (ofPortName : string) : error :=
  fmt_Errorf
    "The OF port %s state is not up, try increasing number of retries/interval config parameter"
    [ofPortName] [].

(** The cache record of the demo attachment and a world that holds it. *)
Definition demo_record : CachedNetConf :=
  {| Netconf := demo_netconf None [] ""; OrigIfName := ""; UserspaceMode := false |}.

Definition attachedWorld : World :=
  {| cache := {[ "c1-eth0" := demo_record ]}; trace := [] |}.

(** The world once one more call has been recorded. *)
Definition afterCall (w : World) (ev : Event) : World :=
  {| cache := cache w; trace := trace w ++ [ev] |}.

(** The events of a trace other than log lines. *)
Definition isAction (ev : Event) : bool :=
  match ev with
  | EvLogPrintf _ _ _ | EvLogCall _ _ => false
  | _ => true
  end.

Definition actions (t : list Event) : list Event := List.filter isAction t.

(** A step of CmdAdd after the creation of the switch port fails, in the
    world [w] reached when [attachIfaceToBridge] has returned: the error the
    attach returns for it and the world in which the failure occurs.  The
    steps are, in the order of the source: the IPAM add, the conversion of
    its result, the wait for the link state, the entry into the container
    namespace, the assignment of the derived MAC, the configuration of the
    container interface. *)
Inductive IPAMFailure (env : Env) (args : CmdArgs) (mac : string) (netconf : NetConf)
    (hostIface contIface : Interface) (w : World) : error -> World -> Prop :=
| IPAMAddFails err :
    ExecAdd env (trace w) (IPAM_Type netconf) (StdinData args) = Err err ->
    IPAMFailure env args mac netconf hostIface contIface w
      (fmt_Errorf "failed to set up IPAM plugin type %q: %v" [IPAM_Type netconf] [err])
      (afterCall w (EvExecAdd (IPAM_Type netconf) (StdinData args)))
| ResultConversionFails raw err :
    ExecAdd env (trace w) (IPAM_Type netconf) (StdinData args) = Ok raw ->
    NewResultFromResult env raw = Err err ->
    IPAMFailure env args mac netconf hostIface contIface w err
      (afterCall w (EvExecAdd (IPAM_Type netconf) (StdinData args)))
| LinkWaitFails raw newResult0 err w2 :
    ExecAdd env (trace w) (IPAM_Type netconf) (StdinData args) = Ok raw ->
    NewResultFromResult env raw = Ok newResult0 ->
    IPs newResult0 <> [] ->
    waitLinkUp env (Name hostIface) (LinkStateCheckRetries netconf)
      (LinkStateCheckInterval netconf)
      (afterCall w (EvExecAdd (IPAM_Type netconf) (StdinData args))) = (Some err, w2) ->
    IPAMFailure env args mac netconf hostIface contIface w err w2
| NamespaceEntryFails raw newResult0 w2 err :
    ExecAdd env (trace w) (IPAM_Type netconf) (StdinData args) = Ok raw ->
    NewResultFromResult env raw = Ok newResult0 ->
    IPs newResult0 <> [] ->
    waitLinkUp env (Name hostIface) (LinkStateCheckRetries netconf)
      (LinkStateCheckInterval netconf)
      (afterCall w (EvExecAdd (IPAM_Type netconf) (StdinData args))) = (None, w2) ->
    netns_Do_enter env (trace w2) (Netns args) = Some err ->
    IPAMFailure env args mac netconf hostIface contIface w err
      (afterCall w2 (EvNetnsDo (Netns args)))
| MacAssignmentFails raw newResult0 w2 err res w3 :
    ExecAdd env (trace w) (IPAM_Type netconf) (StdinData args) = Ok raw ->
    NewResultFromResult env raw = Ok newResult0 ->
    IPs newResult0 <> [] ->
    waitLinkUp env (Name hostIface) (LinkStateCheckRetries netconf)
      (LinkStateCheckInterval netconf)
      (afterCall w (EvExecAdd (IPAM_Type netconf) (StdinData args))) = (None, w2) ->
    netns_Do_enter env (trace w2) (Netns args) = None ->
    CmdAdd_assignMac env args mac netconf (CmdAdd_newResult contIface newResult0)
      (afterCall w2 (EvNetnsDo (Netns args))) = ((Some err, res), w3) ->
    IPAMFailure env args mac netconf hostIface contIface w err w3
| ConfigurationFails raw newResult0 w2 res w3 err w4 :
    ExecAdd env (trace w) (IPAM_Type netconf) (StdinData args) = Ok raw ->
    NewResultFromResult env raw = Ok newResult0 ->
    IPs newResult0 <> [] ->
    waitLinkUp env (Name hostIface) (LinkStateCheckRetries netconf)
      (LinkStateCheckInterval netconf)
      (afterCall w (EvExecAdd (IPAM_Type netconf) (StdinData args))) = (None, w2) ->
    netns_Do_enter env (trace w2) (Netns args) = None ->
    CmdAdd_assignMac env args mac netconf (CmdAdd_newResult contIface newResult0)
      (afterCall w2 (EvNetnsDo (Netns args))) = ((None, res), w3) ->
    CmdAdd_configureIface env args res w3 = (Some err, w4) ->
    IPAMFailure env args mac netconf hostIface contIface w err w4.

(** The same, with the condition under which CmdAdd runs these steps at all:
    an IPAM type is configured and the device has no userspace driver. *)
Definition LateFailure (env : Env) (args : CmdArgs) (p : Prepared)
    (hostIface contIface : Interface) (w : World) (err : error) (wf : World) : Prop :=
  (nonEmpty (IPAM_Type (p_netconf p)) && negb (p_userspaceMode p))%bool = true ∧
  IPAMFailure env args (p_mac p) (p_netconf p) hostIface contIface w err wf.

(** A computation that leaves the cache store as it found it. *)
Definition keeps_cache {A} (m : M A) : Prop :=
  ∀ w, cache (snd (m w)) = cache w.

(** The trunk IDs [validateOvs] expects on the port: none when no trunk
    entry is configured, otherwise what [splitVlanIds] returns. *)
Definition expectedTrunks (netconf : NetConf) (expected : list N) : Prop :=
  (Trunk_ netconf = [] ∧ expected = []) ∨
  (Trunk_ netconf ≠ [] ∧ splitVlanIds (Trunk_ netconf) = Ok expected).

(** Two results of [splitVlanIds] agree: both fail, or both give the same
    sequence. *)
Definition sameVlanIds (r1 r2 : result (list N)) : Prop :=
  match r1, r2 with
  | Ok ids1, Ok ids2 => ids1 = ids2
  | Err _, Err _ => True
  | _, _ => False
  end.

(** The zero value of [current.Interface]. *)
Definition zeroInterface : Interface := {| Name := ""; Mac := ""; Sandbox := "" |}.

(** What [validateInterface] wants from the link found under the name of
    the interface record. *)
Definition linkMatches (intf : Interface) (isHost hwOffload : bool) (link : Link) : Prop :=
  (isHost = false → Sandbox intf ≠ "") ∧
  (hwOffload = false → linkIsVeth link = true) ∧
  (Mac intf = "" ∨ Mac intf = HardwareAddr_String (linkHardwareAddr link)).

Definition isIPv4 (ipc : IPConfig) : bool := isSome (To4 (Address_IP ipc)).

(** A computation that leaves the records of every key but [cRef] as they
    are. *)
Definition keeps_other_keys {A} (cRef : string) (m : M A) : Prop :=
  ∀ w k, k ≠ cRef → cache (snd (m w)) !! k = cache w !! k.

(** [env] with another answer for [ipam.ExecDel]. *)
Definition with_ExecDel (env : Env) (execDel : History -> string -> string -> option error)
  : Env :=
  {| LoadArgs := LoadArgs env; LoadConf := LoadConf env; GetCRef := GetCRef env;
     IsOvsHardwareOffloadEnabled := IsOvsHardwareOffloadEnabled env;
     GetBridgeUplinkNameByDeviceID := GetBridgeUplinkNameByDeviceID env;
     FindBridgeByInterface := FindBridgeByInterface env;
     NewResultFromResult := NewResultFromResult env;
     sha256_Sum256 := sha256_Sum256 env; IP_String := IP_String env;
     NewOvsDriver := NewOvsDriver env; NewOvsBridgeDriver := NewOvsBridgeDriver env;
     HasUserspaceDriver := HasUserspaceDriver env;
     FindInterfacesWithError := FindInterfacesWithError env;
     DeletePort := DeletePort env; GetNS := GetNS env; GetVFLinkName := GetVFLinkName env;
     SaveCache_fails := SaveCache_fails env; CleanCache_fails := CleanCache_fails env;
     SetupSriovInterface := SetupSriovInterface env;
     netns_Do_enter := netns_Do_enter env; ip_SetupVeth := ip_SetupVeth env;
     LinkByName := LinkByName env; LinkSetUp := LinkSetUp env; CreatePort := CreatePort env;
     GetOvsPortForContIface := GetOvsPortForContIface env;
     ExecAdd := ExecAdd env; ExecDel := execDel;
     GetOFPortOpState := GetOFPortOpState env;
     LinkSetHardwareAddr := LinkSetHardwareAddr env; ConfigureIface := ConfigureIface env;
     InterfaceByName := InterfaceByName env;
     GratuitousArpOverIface := GratuitousArpOverIface env; PrintResult := PrintResult env;
     GetNetRepresentor := GetNetRepresentor env; ResetVF := ResetVF env;
     ReleaseVF := ReleaseVF env; WithNetNSPath_enter := WithNetNSPath_enter env;
     DelLinkByName := DelLinkByName env |}.

(** A world that holds the record of a veth attachment with IPAM. *)
Definition attachedWorldIPAM : World :=
  {| cache := {[ "c1-eth0" :=
                   {| Netconf := demo_netconf None [] "host-local"; OrigIfName := "";
                      UserspaceMode := false |} ]};
     trace := [] |}.

(** A computation that only adds to the trace, and only calls that satisfy
    [P]. *)
Definition emits {A} (P : Event -> bool) (m : M A) : Prop :=
  ∀ w, ∃ t, trace (snd (m w)) = trace w ++ t ∧ Forall (fun ev => P ev = true) t.

(** The calls that set something up for an attachment. *)
Definition isSetup (ev : Event) : bool :=
  match ev with
  | EvSaveCache _ _ | EvSetupSriovInterface _ _ _ _ _ _ _ | EvSetupVeth _ _ _
  | EvLinkSetUp _ | EvCreatePort _ _ _ _ _ _ _ _ _ _ | EvExecAdd _ _
  | EvLinkSetHardwareAddr _ _ | EvConfigureIface _ _ | EvGratuitousArpOverIface _ _
  | EvPrintResult _ _ => true
  | _ => false
  end.

(** The calls that remove a cache record or a link, or give a virtual
    function back. *)
Definition isTeardown (ev : Event) : bool :=
  match ev with
  | EvCleanCache _ | EvDelLinkByName _ | EvResetVF _ _ _ | EvReleaseVF _ _ => true
  | _ => false
  end.

(** The calls that undo a step of an attachment. *)
Definition isUndo (ev : Event) : bool :=
  match ev with
  | EvDeletePort _ | EvExecDel _ _ => true
  | _ => isTeardown ev
  end.

(** The calls that need the namespace of the container. *)
Definition needsNetns (ev : Event) : bool :=
  match ev with
  | EvGetOvsPortForContIface _ _ | EvWithNetNSPath _ | EvDelLinkByName _
  | EvReleaseVF _ _ | EvGetNS _ | EvNetnsDo _ => true
  | _ => false
  end.

(** The calls that only read: log lines, connections to the switch database,
    the cache lookup and link lookups. *)
Definition isRead (ev : Event) : bool :=
  match ev with
  | EvLogCall _ _ | EvLogPrintf _ _ _ | EvNewOvsDriver _ | EvNewOvsBridgeDriver _ _
  | EvLoadConfFromCache _ | EvLinkByName _ => true
  | _ => false
  end.

(** The call that sets the MAC of a link. *)
Definition isSetMac (ev : Event) : bool :=
  match ev with
  | EvLinkSetHardwareAddr _ _ => true
  | _ => false
  end.

(** [env] with another answer for [cnitypes.LoadArgs]. *)
Definition with_LoadArgs (env : Env) (loadArgs : string -> result EnvArgs) : Env :=
  {| LoadArgs := loadArgs; LoadConf := LoadConf env; GetCRef := GetCRef env;
     IsOvsHardwareOffloadEnabled := IsOvsHardwareOffloadEnabled env;
     GetBridgeUplinkNameByDeviceID := GetBridgeUplinkNameByDeviceID env;
     FindBridgeByInterface := FindBridgeByInterface env;
     NewResultFromResult := NewResultFromResult env;
     sha256_Sum256 := sha256_Sum256 env; IP_String := IP_String env;
     NewOvsDriver := NewOvsDriver env; NewOvsBridgeDriver := NewOvsBridgeDriver env;
     HasUserspaceDriver := HasUserspaceDriver env;
     FindInterfacesWithError := FindInterfacesWithError env;
     DeletePort := DeletePort env; GetNS := GetNS env; GetVFLinkName := GetVFLinkName env;
     SaveCache_fails := SaveCache_fails env; CleanCache_fails := CleanCache_fails env;
     SetupSriovInterface := SetupSriovInterface env;
     netns_Do_enter := netns_Do_enter env; ip_SetupVeth := ip_SetupVeth env;
     LinkByName := LinkByName env; LinkSetUp := LinkSetUp env; CreatePort := CreatePort env;
     GetOvsPortForContIface := GetOvsPortForContIface env;
     ExecAdd := ExecAdd env; ExecDel := ExecDel env;
     GetOFPortOpState := GetOFPortOpState env;
     LinkSetHardwareAddr := LinkSetHardwareAddr env; ConfigureIface := ConfigureIface env;
     InterfaceByName := InterfaceByName env;
     GratuitousArpOverIface := GratuitousArpOverIface env; PrintResult := PrintResult env;
     GetNetRepresentor := GetNetRepresentor env; ResetVF := ResetVF env;
     ReleaseVF := ReleaseVF env; WithNetNSPath_enter := WithNetNSPath_enter env;
     DelLinkByName := DelLinkByName env |}.

(** [env] with another answer for [cnitypes.PrintResult]. *)
Definition with_PrintResult (env : Env)
    (printResult : History -> Result -> string -> option error) : Env :=
  {| LoadArgs := LoadArgs env; LoadConf := LoadConf env; GetCRef := GetCRef env;
     IsOvsHardwareOffloadEnabled := IsOvsHardwareOffloadEnabled env;
     GetBridgeUplinkNameByDeviceID := GetBridgeUplinkNameByDeviceID env;
     FindBridgeByInterface := FindBridgeByInterface env;
     NewResultFromResult := NewResultFromResult env;
     sha256_Sum256 := sha256_Sum256 env; IP_String := IP_String env;
     NewOvsDriver := NewOvsDriver env; NewOvsBridgeDriver := NewOvsBridgeDriver env;
     HasUserspaceDriver := HasUserspaceDriver env;
     FindInterfacesWithError := FindInterfacesWithError env;
     DeletePort := DeletePort env; GetNS := GetNS env; GetVFLinkName := GetVFLinkName env;
     SaveCache_fails := SaveCache_fails env; CleanCache_fails := CleanCache_fails env;
     SetupSriovInterface := SetupSriovInterface env;
     netns_Do_enter := netns_Do_enter env; ip_SetupVeth := ip_SetupVeth env;
     LinkByName := LinkByName env; LinkSetUp := LinkSetUp env; CreatePort := CreatePort env;
     GetOvsPortForContIface := GetOvsPortForContIface env;
     ExecAdd := ExecAdd env; ExecDel := ExecDel env;
     GetOFPortOpState := GetOFPortOpState env;
     LinkSetHardwareAddr := LinkSetHardwareAddr env; ConfigureIface := ConfigureIface env;
     InterfaceByName := InterfaceByName env;
     GratuitousArpOverIface := GratuitousArpOverIface env; PrintResult := printResult;
     GetNetRepresentor := GetNetRepresentor env; ResetVF := ResetVF env;
     ReleaseVF := ReleaseVF env; WithNetNSPath_enter := WithNetNSPath_enter env;
     DelLinkByName := DelLinkByName env |}.

(** The calls made by the two deferred closures of CmdAdd: the IPAM del, the
    lookup of the switch port by container interface and namespace, and the
    deletion of a port. *)
Definition isRollback (ev : Event) : bool :=
  match ev with
  | EvExecDel _ _ | EvGetOvsPortForContIface _ _ | EvDeletePort _ => true
  | _ => false
  end.

(** * Properties *)

(** Running a computation of [M] one step further in a goal. *)
Ltac run :=
  cbv beta iota delta [bind call ret logPrintf logCall];
  cbn [fst snd trace cache].

(** ** Trunk resolver *)

Lemma rangeIds_elem (lo hi v : N) :
  v ∈ rangeIds lo hi ↔ (lo <= v <= hi)%N.
Proof.
  unfold rangeIds. rewrite list_elem_of_fmap. split.
  - intros (k & -> & Hk). apply list_elem_of_In, in_seq in Hk. lia.
  - intros Hv. exists (N.to_nat (v - lo)). split; [lia|].
    apply list_elem_of_In, in_seq. lia.
Qed.

Lemma fold_insert_elem (l : list N) (s : gset N) (v : N) :
  v ∈ fold_left (fun vl x => {[ x ]} ∪ vl) l s ↔ v ∈ s ∨ v ∈ l.
Proof.
  revert s. induction l as [|x l IH]; intros s; simpl.
  - rewrite elem_of_nil. tauto.
  - rewrite IH, elem_of_union, elem_of_singleton, elem_of_cons. tauto.
Qed.

Lemma addRange_elem (lo hi : N) (s : gset N) (v : N) :
  v ∈ addRange lo hi s ↔ v ∈ s ∨ (lo <= v <= hi)%N.
Proof. unfold addRange. rewrite fold_insert_elem, rangeIds_elem. tauto. Qed.

(** One entry: when it is accepted, the set grows by exactly its members. *)
Lemma splitVlanIds_item_Ok (s s' : gset N) (item : Trunk) :
  splitVlanIds_item s item = Ok s' →
  ¬ rejectedItem item ∧ ∀ v, v ∈ s' ↔ v ∈ s ∨ itemMember item v.
Proof.
  unfold splitVlanIds_item, itemMember, rejectedItem.
  destruct item as [[lo|] [hi|] [id|]]; simpl;
    repeat (match goal with
            | |- context [N.ltb ?a ?b] => destruct (N.ltb_spec a b)
            end; simpl);
    intros Heq; try discriminate; injection Heq as <-;
    (split;
     [ intros [(m & [= <-] & ?) | (m & [= <-] & [?|?])]; lia
     | intros v; rewrite ?elem_of_union, ?elem_of_singleton, ?addRange_elem;
       split;
       [ intros; repeat match goal with H : _ ∨ _ |- _ => destruct H end; subst;
         eauto 10
       | intros [?|[[= ->]|(lo' & hi' & [= <-] & [= <-] & ? & ?)]]; eauto; try lia ] ]).
Qed.

Lemma splitVlanIds_item_Err (s : gset N) (item : Trunk) (e : error) :
  splitVlanIds_item s item = Err e → rejectedItem item.
Proof.
  unfold splitVlanIds_item, rejectedItem.
  destruct item as [[lo|] [hi|] [id|]]; simpl;
    repeat (match goal with
            | |- context [N.ltb ?a ?b] => destruct (N.ltb_spec a b)
            end; simpl);
    intros Heq; try discriminate; eauto 10.
Qed.

Lemma splitVlanIds_loop_Ok (trunks : list Trunk) (s s' : gset N) :
  splitVlanIds_loop s trunks = Ok s' →
  (∀ item, item ∈ trunks → ¬ rejectedItem item) ∧
  (∀ v, v ∈ s' ↔ v ∈ s ∨ codeMember trunks v).
Proof.
  revert s. induction trunks as [|item rest IH]; intros s; simpl.
  - intros [= <-]. split.
    + intros item Hin. inversion Hin.
    + intros v. split; [tauto|]. intros [?|(item & Hin & _)]; [done|inversion Hin].
  - destruct (splitVlanIds_item s item) as [s1|e] eqn:Hitem; simpl; [|discriminate].
    intros Hloop. apply splitVlanIds_item_Ok in Hitem as [Hacc Hmem].
    apply IH in Hloop as [Hrest Hmem'].
    split.
    + intros it [->|Hin]%elem_of_cons; auto.
    + intros v. rewrite Hmem', Hmem. unfold codeMember. split.
      * intros [[?|?]|(it & Hin & ?)]; [tauto| |].
        -- right. exists item. split; [left|done].
        -- right. exists it. split; [by right|done].
      * intros [?|(it & [->|Hin]%elem_of_cons & ?)]; [tauto|tauto|].
        right. exists it. done.
Qed.

Lemma splitVlanIds_loop_Err (trunks : list Trunk) (s : gset N) (e : error) :
  splitVlanIds_loop s trunks = Err e → ∃ item, item ∈ trunks ∧ rejectedItem item.
Proof.
  revert s. induction trunks as [|item rest IH]; intros s; simpl; [discriminate|].
  destruct (splitVlanIds_item s item) as [s1|e1] eqn:Hitem; simpl.
  - intros (it & Hin & Hrej)%IH. exists it. split; [by right|done].
  - intros _. exists item. split; [left|]. eapply splitVlanIds_item_Err, Hitem.
Qed.

Lemma sortedKeys_elem (s : gset N) (v : N) : v ∈ sortedKeys s ↔ v ∈ s.
Proof. unfold sortedKeys. rewrite merge_sort_Permutation. apply elem_of_elements. Qed.

Lemma sortedKeys_NoDup (s : gset N) : NoDup (sortedKeys s).
Proof. unfold sortedKeys. rewrite merge_sort_Permutation. apply NoDup_elements. Qed.

Lemma Sorted_le_NoDup_lt (l : list N) :
  Sorted N.le l → NoDup l → StronglySorted N.lt l.
Proof.
  intros Hs%Sorted_StronglySorted; [|apply _].
  induction Hs as [|x l Hs IH Hall]; intros Hnd; [constructor|].
  apply NoDup_cons in Hnd as [Hx Hnd].
  constructor; [auto|].
  rewrite Forall_forall in *. intros y Hy.
  assert (x ≠ y) by (intros ->; exact (Hx Hy)).
  specialize (Hall y Hy). lia.
Qed.

Lemma sortedKeys_increasing (s : gset N) : StronglySorted N.lt (sortedKeys s).
Proof.
  apply Sorted_le_NoDup_lt; [|apply sortedKeys_NoDup].
  unfold sortedKeys. apply Sorted_merge_sort. apply _.
Qed.

(** What [splitVlanIds] does: it fails exactly when an entry is rejected or
    no ID was accumulated. *)
Lemma splitVlanIds_fails_iff (trunks : list Trunk) :
  is_Ok (splitVlanIds trunks) = false ↔
  (∃ item, item ∈ trunks ∧ rejectedItem item) ∨ (∀ v, ¬ codeMember trunks v).
Proof.
  unfold splitVlanIds.
  destruct (splitVlanIds_loop ∅ trunks) as [s|e] eqn:Hloop; simpl.
  - apply splitVlanIds_loop_Ok in Hloop as [Hacc Hmem].
    destruct (decide (size s = 0)) as [Hz|Hnz]; simpl.
    + split; [intros _|done]. right. intros v Hv.
      apply size_empty_inv in Hz. assert (v ∈ s) as Hin by (apply Hmem; auto).
      rewrite Hz in Hin. by apply not_elem_of_empty in Hin.
    + split; [done|]. intros [(item & Hin & Hrej)|Hnone].
      * by apply Hacc in Hin.
      * exfalso. apply Hnz, size_empty_iff. intros v. split.
        -- intros Hv. exfalso. apply (Hnone v). apply Hmem in Hv as [Hv|Hv]; [|done].
           by apply not_elem_of_empty in Hv.
        -- intros Hv. by apply not_elem_of_empty in Hv.
  - split; [intros _|done]. left. eapply splitVlanIds_loop_Err, Hloop.
Qed.

Lemma splitVlanIds_Ok (trunks : list Trunk) (ids : list N) :
  splitVlanIds trunks = Ok ids →
  StronglySorted N.lt ids ∧ NoDup ids ∧ (∀ v, v ∈ ids ↔ codeMember trunks v).
Proof.
  unfold splitVlanIds.
  destruct (splitVlanIds_loop ∅ trunks) as [s|e] eqn:Hloop; simpl; [|discriminate].
  destruct (decide (size s = 0)); [discriminate|]. intros [= <-].
  apply splitVlanIds_loop_Ok in Hloop as [_ Hmem].
  split; [apply sortedKeys_increasing|]. split; [apply sortedKeys_NoDup|].
  intros v. rewrite sortedKeys_elem, Hmem. split; [|tauto].
  intros [Hv|?]; [|done]. by apply not_elem_of_empty in Hv.
Qed.

(** C4 (the source departs from the claim).  An entry that gives a single ID
    only is accepted whatever the ID: the bound test of the single ID reads
    [minID], which is 0 here, so an ID above 4096 such as 5000 is not
    rejected and is returned as a VLAN ID. *)
Theorem splitVlanIds_single_id_unchecked :
  (∀ id : N, splitVlanIds [mkTrunk None None (Some id)] = Ok [id]) ∧
  splitVlanIds [mkTrunk None None (Some 5000%N)] = Ok [5000%N].
Proof.
  assert (∀ id : N, splitVlanIds [mkTrunk None None (Some id)] = Ok [id]) as H.
  { intros id.
    assert (splitVlanIds_loop ∅ [mkTrunk None None (Some id)] = Ok {[id]}) as Hloop.
    { change (Ok ({[id]} ∪ ∅ : gset N) = Ok {[id]}). by rewrite (right_id_L ∅ (∪)). }
    unfold splitVlanIds. rewrite Hloop. cbn [result_bind].
    rewrite size_singleton.
    destruct (decide (1 = 0)) as [?|_]; [discriminate|].
    unfold sortedKeys. by rewrite elements_singleton. }
  split; [exact H|apply H].
Qed.

(** C5, as the claim words it, fails on a range whose minimum is 0: the
    range [0..2] contributes nothing, so 1 is a range member that the result
    [7] does not contain. *)
Lemma splitVlanIds_range_from_zero_skipped :
  let trunks := [mkTrunk (Some 0%N) (Some 2%N) None; mkTrunk None None (Some 7%N)] in
  splitVlanIds trunks = Ok [7%N] ∧
  ¬ (∀ v, v ∈ [7%N] ↔ specMember trunks v).
Proof.
  simpl. split; [vm_compute; reflexivity|].
  intros H. specialize (H 1%N). destruct H as [_ H].
  assert (1%N ∈ [7%N]) as Hin.
  { apply H. exists (mkTrunk (Some 0%N) (Some 2%N) None). split; [left|].
    right. exists 0%N, 2%N. simpl. repeat split; lia. }
  apply list_elem_of_singleton in Hin. discriminate.
Qed.

(** C5 (amended).  Whenever [splitVlanIds] succeeds, the sequence returned
    is not empty, strictly increasing and free of duplicates, and its
    members are exactly the single IDs given and the members of the ranges
    whose minimum is at least 1; for the range 10..12 followed by the single
    ID 12 the result is [10; 11; 12]. *)
Theorem splitVlanIds_sorted_union :
  (∀ trunks ids,
     splitVlanIds trunks = Ok ids →
     ids ≠ [] ∧ StronglySorted N.lt ids ∧ NoDup ids ∧
     (∀ v, v ∈ ids ↔ codeMember trunks v)) ∧
  splitVlanIds [mkTrunk (Some 10%N) (Some 12%N) None; mkTrunk None None (Some 12%N)]
  = Ok [10%N; 11%N; 12%N].
Proof.
  split; [|vm_compute; reflexivity].
  intros trunks ids Hok. split; [|by apply splitVlanIds_Ok].
  intros ->.
  assert (is_Ok (splitVlanIds trunks) = false) as Hfail.
  { apply splitVlanIds_fails_iff. right. intros v Hv.
    apply (splitVlanIds_Ok _ _ Hok) in Hv. inversion Hv. }
  rewrite Hok in Hfail. discriminate.
Qed.

Lemma splitVlanIds_sorted_union_witness :
  StronglySorted N.lt [10%N; 11%N; 12%N] ∧
  (∀ v, v ∈ [10%N; 11%N; 12%N] ↔
        codeMember [mkTrunk (Some 10%N) (Some 12%N) None; mkTrunk None None (Some 12%N)] v).
Proof.
  destruct (proj1 splitVlanIds_sorted_union
              [mkTrunk (Some 10%N) (Some 12%N) None; mkTrunk None None (Some 12%N)]
              [10%N; 11%N; 12%N]) as (_ & Hs & _ & Hm).
  - vm_compute. reflexivity.
  - split; assumption.
Defined.

(** ** Bridge resolver *)

Lemma getBridgeName_uplinks_first env all pre u post b errList :
  Forall (uplinkFails env) pre →
  FindBridgeByInterface env u = Ok b →
  getBridgeName_uplinks env all (pre ++ u :: post) errList = Ok b.
Proof.
  intros Hpre Hu. revert errList.
  induction Hpre as [|x pre Hx _ IH]; intros errList; simpl.
  - by rewrite Hu.
  - unfold uplinkFails in Hx.
    destruct (FindBridgeByInterface env x); [discriminate|]. apply IH.
Qed.

Lemma getBridgeName_uplinks_all_fail env all rest errList :
  Forall (uplinkFails env) rest →
  getBridgeName_uplinks env all rest errList =
  Err (fmt_Errorf "failed to find bridge by uplink names %v: %v" all
         (errList ++ map (uplinkError env) rest)).
Proof.
  intros Hall. revert errList.
  induction Hall as [|x rest Hx _ IH]; intros errList; simpl.
  - by rewrite app_nil_r.
  - unfold uplinkFails in Hx. unfold uplinkError at 1.
    destruct (FindBridgeByInterface env x); [discriminate|].
    rewrite IH. by rewrite <- app_assoc.
Qed.

Lemma getBridgeName_uplinks_Err env all rest errList :
  is_Ok (getBridgeName_uplinks env all rest errList) = false →
  Forall (uplinkFails env) rest.
Proof.
  revert errList. induction rest as [|x rest IH]; intros errList; simpl; [constructor|].
  destruct (FindBridgeByInterface env x) eqn:Hx; simpl; [discriminate|].
  intros H. constructor; [unfold uplinkFails; by rewrite Hx|eauto].
Qed.

Lemma nonEmpty_true (s : string) : nonEmpty s = true ↔ s ≠ "".
Proof.
  unfold nonEmpty. destruct (String.eqb_spec s ""); simpl; split; congruence.
Qed.

Lemma nonEmpty_false (s : string) : nonEmpty s = false ↔ s = "".
Proof.
  unfold nonEmpty. destruct (String.eqb_spec s ""); simpl; split; congruence.
Qed.

(** C7.  [getBridgeName] decides in a fixed order: an explicit bridge name is
    returned as it is; otherwise a non-empty [ovnPort] gives "br-int";
    otherwise, for a non-empty device ID, the candidate uplinks are tried in
    order and the bridge of the first one that has a bridge is returned,
    the consolidated failure (which lists the error of every candidate)
    being returned exactly when every candidate fails, and a failure to
    list the candidates being returned as such; otherwise it fails. *)
Theorem getBridgeName_priority (env : Env) (bridgeName ovnPort deviceID : string) :
  (bridgeName ≠ "" → getBridgeName env bridgeName ovnPort deviceID = Ok bridgeName) ∧
  (bridgeName = "" → ovnPort ≠ "" →
   getBridgeName env bridgeName ovnPort deviceID = Ok "br-int") ∧
  (bridgeName = "" → ovnPort = "" → deviceID ≠ "" →
   match GetBridgeUplinkNameByDeviceID env deviceID with
   | Err err =>
       getBridgeName env bridgeName ovnPort deviceID =
       Err (fmt_Errorf "failed to get bridge name - failed to resolve uplink name: %v" [] [err])
   | Ok names =>
       (∀ pre u post b,
          names = (pre ++ u :: post)%list → Forall (uplinkFails env) pre →
          FindBridgeByInterface env u = Ok b →
          getBridgeName env bridgeName ovnPort deviceID = Ok b) ∧
       (Forall (uplinkFails env) names →
        getBridgeName env bridgeName ovnPort deviceID =
        Err (fmt_Errorf "failed to find bridge by uplink names %v: %v" names
               (map (uplinkError env) names))) ∧
       (is_Ok (getBridgeName env bridgeName ovnPort deviceID) = false →
        Forall (uplinkFails env) names)
   end) ∧
  (bridgeName = "" → ovnPort = "" → deviceID = "" →
   getBridgeName env bridgeName ovnPort deviceID =
   Err (fmt_Errorf "failed to get bridge name" [] [])).
Proof.
  unfold getBridgeName. repeat split.
  - intros H%nonEmpty_true. by rewrite H.
  - intros -> H%nonEmpty_true. by rewrite H.
  - intros -> -> H%nonEmpty_true. rewrite H. simpl.
    destruct (GetBridgeUplinkNameByDeviceID env deviceID) as [names|err]; [|done].
    split; [|split].
    + intros pre u post b -> Hpre Hu. by apply getBridgeName_uplinks_first.
    + intros Hall. by rewrite getBridgeName_uplinks_all_fail.
    + apply getBridgeName_uplinks_Err.
  - by intros -> -> ->.
Qed.

Lemma getBridgeName_priority_witness :
  let env := demo_env (demo_netconf None [] "") (Ok "") (fun n => Ok (demo_link n))
               (fun _ => None) (fun _ => None) (Ok []) (fun _ => Ok "up") in
  getBridgeName env "br0" "port1" "0000:03:00.1" = Ok "br0" ∧
  getBridgeName env "" "port1" "0000:03:00.1" = Ok "br-int" ∧
  getBridgeName env "" "" "0000:03:00.1" = Ok "br-phys" ∧
  getBridgeName env "" "" "0000:03:00.2" =
    Err (fmt_Errorf "failed to find bridge by uplink names %v: %v" ["eth4"]
           [uplinkError env "eth4"]) ∧
  getBridgeName env "" "" "" = Err (fmt_Errorf "failed to get bridge name" [] []).
Proof.
  intros env. split; [|split; [|split; [|split]]].
  - apply (getBridgeName_priority env "br0" "port1" "0000:03:00.1"). discriminate.
  - apply (getBridgeName_priority env "" "port1" "0000:03:00.1"); [reflexivity|discriminate].
  - apply (proj1 (proj1 (proj2 (proj2 (getBridgeName_priority env "" "" "0000:03:00.1")))
                    eq_refl eq_refl ltac:(discriminate)) ["eth2"] "eth3" [] "br-phys").
    + reflexivity.
    + constructor; [reflexivity|constructor].
    + reflexivity.
  - apply (proj1 (proj2 (proj1 (proj2 (proj2 (getBridgeName_priority env "" "" "0000:03:00.2")))
                           eq_refl eq_refl ltac:(discriminate)))).
    constructor; [reflexivity|constructor].
  - apply (getBridgeName_priority env "" "" ""); reflexivity.
Defined.

(** ** MAC derivation *)

Lemma To4_v4 (a b c d : Byte.byte) : To4 [a; b; c; d] = Some [a; b; c; d].
Proof. reflexivity. Qed.

Lemma To4_v4InV6 (a b c d : Byte.byte) : To4 (v4InV6 a b c d) = Some [a; b; c; d].
Proof. reflexivity. Qed.

(** C8.  [IPAddrToHWAddr] is a function of the address: an IPv4 address
    a.b.c.d, in its 4-byte or in its 16-byte form, gives 0a:58:a:b:c:d; an
    address that is not IPv4 gives 0a:58 followed by the first four bytes
    of the SHA-256 hash of the text of the address (the hash has 32
    bytes); 10.0.0.5 gives "0a:58:0a:00:00:05"; equal addresses give equal
    MACs. *)
Theorem IPAddrToHWAddr_deterministic (env : Env) :
  (∀ a b c d,
     IPAddrToHWAddr env [a; b; c; d] = [Byte.x0a; Byte.x58; a; b; c; d] ∧
     IPAddrToHWAddr env (v4InV6 a b c d) = [Byte.x0a; Byte.x58; a; b; c; d]) ∧
  (∀ ip,
     To4 ip = None →
     length (sha256_Sum256 env (list_byte_of_string (IP_String env ip))) = 32 →
     IPAddrToHWAddr env ip =
     ([Byte.x0a; Byte.x58] ++
      firstn 4 (sha256_Sum256 env (list_byte_of_string (IP_String env ip))))%list) ∧
  HardwareAddr_String (IPAddrToHWAddr env [Byte.x0a; Byte.x00; Byte.x00; Byte.x05])
  = "0a:58:0a:00:00:05" ∧
  (∀ ip1 ip2, ip1 = ip2 → IPAddrToHWAddr env ip1 = IPAddrToHWAddr env ip2).
Proof.
  split; [|split; [|split]].
  - intros a b c d. split; reflexivity.
  - intros ip Hnone Hlen. unfold IPAddrToHWAddr. rewrite Hnone.
    destruct (sha256_Sum256 env _) as [|h0 [|h1 [|h2 [|h3 rest]]]]; try discriminate.
    reflexivity.
  - reflexivity.
  - by intros ip1 ip2 ->.
Qed.

Lemma IPAddrToHWAddr_deterministic_witness :
  let env := demo_env (demo_netconf None [] "") (Ok "") (fun n => Ok (demo_link n))
               (fun _ => None) (fun _ => None) (Ok []) (fun _ => Ok "up") in
  let ip6 := repeat Byte.x20 16 in
  IPAddrToHWAddr env ip6 = [Byte.x0a; Byte.x58; Byte.x00; Byte.x00; Byte.x00; Byte.x00].
Proof.
  intros env ip6.
  apply (proj1 (proj2 (IPAddrToHWAddr_deterministic env)) ip6); reflexivity.
Defined.

(** ** Interface provisioning *)

(** C10.  [refetchIface] never returns an error: it only replaces the MAC of
    the record by what [getHardwareAddr] gives, which is the empty string
    whenever the lookup of the link by name fails; [setupVeth] therefore
    succeeds, with an empty host MAC, when that lookup is the only call that
    fails. *)
Theorem refetchIface_never_fails (env : Env) :
  (∀ iface w,
     let r := fst (refetchIface env iface w) in
     snd r = None ∧ Name (fst r) = Name iface ∧ Sandbox (fst r) = Sandbox iface ∧
     (is_Ok (LinkByName env (trace w) (Name iface)) = false → Mac (fst r) = "")) ∧
  (∀ ifName w,
     is_Ok (LinkByName env (trace w) ifName) = false →
     fst (getHardwareAddr env ifName w) = "") ∧
  (∀ contNetns contIfaceName requestedMac mtu w hostVeth containerVeth link,
     let h1 := (trace w ++ [EvNetnsDo contNetns])%list in
     let h2 := (h1 ++ [EvSetupVeth contIfaceName mtu requestedMac])%list in
     let h3 := (h2 ++ [EvLinkByName contIfaceName])%list in
     let h4 := (h3 ++ [EvLinkSetUp (linkName link)])%list in
     netns_Do_enter env (trace w) contNetns = None →
     ip_SetupVeth env h1 contIfaceName mtu requestedMac = Ok (hostVeth, containerVeth) →
     LinkByName env h2 contIfaceName = Ok link →
     LinkSetUp env h3 (linkName link) = None →
     is_Ok (LinkByName env h4 (niName hostVeth)) = false →
     fst (setupVeth env contNetns contIfaceName requestedMac mtu w) =
     Ok ({| Name := niName hostVeth; Mac := ""; Sandbox := "" |},
         {| Name := niName containerVeth;
            Mac := HardwareAddr_String (niHardwareAddr containerVeth);
            Sandbox := contNetns |})).
Proof.
  split; [|split].
  - intros iface w. unfold refetchIface, getHardwareAddr, bind, call, ret. simpl.
    destruct (LinkByName env (trace w) (Name iface)); simpl; repeat split; discriminate.
  - intros ifName w. unfold getHardwareAddr, bind, call, ret. simpl.
    destruct (LinkByName env (trace w) ifName); simpl; [discriminate|done].
  - intros contNetns contIfaceName requestedMac mtu w hostVeth containerVeth link
      h1 h2 h3 h4 Henter Hveth Hlink Hup Hhost.
    subst h1 h2 h3 h4.
    unfold setupVeth, setInterfaceUp, refetchIface, getHardwareAddr. run.
    rewrite Henter. run. rewrite Hveth. run. rewrite Hlink. run. rewrite Hup. run.
    cbn [Name].
    destruct (LinkByName env _ (niName hostVeth)); [discriminate|reflexivity].
Qed.

Lemma refetchIface_never_fails_witness :
  let env := demo_env (demo_netconf None [] "") (Ok "")
               (fun n => if String.eqb n "veth1"
                         then Err (errors_New "Link not found") else Ok (demo_link n))
               (fun _ => None) (fun _ => None) (Ok []) (fun _ => Ok "up") in
  fst (setupVeth env "/proc/1/ns/net" "eth0" "" 1500 emptyWorld) =
  Ok ({| Name := "veth1"; Mac := ""; Sandbox := "" |},
      {| Name := "eth0"; Mac := "02:00:00:00:00:02"; Sandbox := "/proc/1/ns/net" |}).
Proof.
  intros env.
  apply (proj2 (proj2 (refetchIface_never_fails env)) "/proc/1/ns/net" "eth0" "" 1500%Z
           emptyWorld
           {| niName := "veth1"; niHardwareAddr := [] |}
           {| niName := "eth0";
              niHardwareAddr := [Byte.x02; Byte.x00; Byte.x00; Byte.x00; Byte.x00; Byte.x02] |}
           (demo_link "eth0")); reflexivity.
Defined.

(** ** Link-state polling *)

Lemma filter_pollRound env name d h :
  filter isPollOrSleep (pollRound env name d h) = [EvGetOFPortOpState name; EvSleep d].
Proof.
  unfold pollRound, pollError.
  destruct (GetOFPortOpState env h name); reflexivity.
Qed.

Lemma filter_pollError env name h :
  filter isPollOrSleep (pollError env name h) = [].
Proof. unfold pollError. destruct (GetOFPortOpState env h name); reflexivity. Qed.

Lemma pollSchedule_S name d n :
  (1 <= n)%nat →
  pollSchedule name d (S n) =
  EvGetOFPortOpState name :: EvSleep d :: pollSchedule name d n.
Proof. destruct n; [lia|reflexivity]. Qed.

Lemma eqb_up (st : string) : String.eqb st "up" = true ↔ st = "up".
Proof. apply String.eqb_eq. Qed.

(** The loop, entered with the [m] indices [i .. retryCount] still to come. *)
Lemma waitLinkUp_loop_spec env name rc d (m : nat) :
  ∀ (i : nat) (w : World),
    (1 <= m)%nat → Z.of_nat (i + m - 1) = rc →
    ∃ n, (1 <= n <= m)%nat ∧
      (∀ k, (k < n - 1)%nat → ¬ reportsUp env name (trace w ++ rounds env name d (trace w) k)) ∧
      let h := (trace w ++ rounds env name d (trace w) (n - 1))%list in
      let r := waitLinkUp_loop env name rc d (map (fun k => Z.of_nat k) (seq i m)) w in
      cache (snd r) = cache w ∧
      ((reportsUp env name h ∧ fst r = None ∧
        trace (snd r) = (h ++ [EvGetOFPortOpState name])%list) ∨
       (¬ reportsUp env name h ∧ n = m ∧ fst r = Some (waitLinkUp_error name) ∧
        trace (snd r) = (h ++ EvGetOFPortOpState name :: pollError env name h)%list)).
Proof.
  induction m as [|m IH]; intros i w Hm Hrc; [lia|].
  cbn [seq map waitLinkUp_loop]. run.
  destruct (GetOFPortOpState env (trace w) name) as [st|err] eqn:Hpoll.
  - (* the poll answers *)
    run. destruct (String.eqb st "up") eqn:Hup.
    + apply eqb_up in Hup. subst st. exists 1%nat. split; [lia|]. split; [intros k; lia|].
      cbn [Nat.sub rounds]. rewrite app_nil_r. run. split; [done|]. left. done.
    + assert (¬ reportsUp env name (trace w)) as Hnot.
      { unfold reportsUp. rewrite Hpoll. intros [= ->]. discriminate. }
      destruct (Z.eqb_spec (Z.of_nat i) rc) as [Hlast|Hmore].
      * exists 1%nat. assert (m = 0)%nat by lia. subst m.
        split; [lia|]. split; [intros k; lia|].
        cbn [Nat.sub rounds]. rewrite app_nil_r. run. split; [done|]. right.
        unfold pollError. rewrite Hpoll. done.
      * run.
        destruct (IH (S i) (mkWorld (cache w) ((trace w ++ [EvGetOFPortOpState name]) ++ [EvSleep d])))
          as (n & Hn & Hbefore & Hcache & Hend); [lia|lia|].
        cbn [trace cache] in *.
        assert (pollRound env name d (trace w) = [EvGetOFPortOpState name; EvSleep d]) as Hround.
        { unfold pollRound, pollError. by rewrite Hpoll. }
        assert (((trace w ++ [EvGetOFPortOpState name]) ++ [EvSleep d])%list
                = (trace w ++ pollRound env name d (trace w))%list) as Htr.
        { rewrite Hround. by rewrite <- app_assoc. }
        rewrite Htr in *.
        exists (S n). split; [lia|]. split.
        { intros [|k] Hk; cbn [rounds]; [by rewrite app_nil_r|].
          rewrite app_assoc. apply Hbefore. lia. }
        replace (S n - 1)%nat with (S (n - 1)) by lia. cbn [rounds].
        rewrite (app_assoc (trace w) (pollRound env name d (trace w))).
        split; [done|]. destruct Hend as [(?&?&?)|(?&?&?&?)]; [left|right]; repeat split;
          try done; lia.
  - (* the poll fails: logged, and counted as not up *)
    run.
    assert (¬ reportsUp env name (trace w)) as Hnot.
    { unfold reportsUp. by rewrite Hpoll. }
    destruct (Z.eqb_spec (Z.of_nat i) rc) as [Hlast|Hmore].
    + exists 1%nat. assert (m = 0)%nat by lia. subst m.
      split; [lia|]. split; [intros k; lia|].
      cbn [Nat.sub rounds]. rewrite app_nil_r. run. split; [done|]. right.
      unfold pollError. rewrite Hpoll. rewrite <- app_assoc. done.
    + run.
      match goal with
      | |- context [waitLinkUp_loop _ _ _ _ _ ?w1] =>
          destruct (IH (S i) w1) as (n & Hn & Hbefore & Hcache & Hend); [lia|lia|]
      end.
      cbn [trace cache] in *.
      assert (pollRound env name d (trace w) =
              [EvGetOFPortOpState name;
               EvLogPrintf "error in retrieving port %s state: %v" [name] [err];
               EvSleep d]) as Hround.
      { unfold pollRound, pollError. by rewrite Hpoll. }
      match type of Hcache with
      | context [waitLinkUp_loop _ _ _ _ _ (mkWorld _ ?tr)] =>
          assert (tr = (trace w ++ pollRound env name d (trace w))%list) as Htr
            by (rewrite Hround; by rewrite <- !app_assoc)
      end.
      rewrite Htr in *.
      exists (S n). split; [lia|]. split.
      { intros [|k] Hk; cbn [rounds]; [by rewrite app_nil_r|].
        rewrite app_assoc. apply Hbefore. lia. }
      replace (S n - 1)%nat with (S (n - 1)) by lia. cbn [rounds].
      rewrite (app_assoc (trace w) (pollRound env name d (trace w))).
      split; [done|]. destruct Hend as [(?&?&?)|(?&?&?&?)]; [left|right]; repeat split;
        try done; lia.
Qed.

Lemma filter_rounds env name d (k : nat) :
  ∀ h tl,
    filter isPollOrSleep tl = [EvGetOFPortOpState name] →
    filter isPollOrSleep (rounds env name d h k ++ tl) = pollSchedule name d (S k).
Proof.
  induction k as [|k IH]; intros h tl Htl; cbn [rounds].
  - exact Htl.
  - rewrite <- app_assoc, filter_app, filter_pollRound, (IH _ _ Htl).
    rewrite (pollSchedule_S name d (S k)); [reflexivity|lia].
Qed.

(** With a retry count of 0 or less the loop body is never entered. *)
Lemma waitLinkUp_no_retries env name rc interval w :
  (rc <= 0)%Z → waitLinkUp env name rc interval w = (None, w).
Proof.
  intros Hrc. unfold waitLinkUp.
  replace (Z.to_nat rc) with 0%nat by lia. reflexivity.
Qed.

(** C6, as the claim words it, fails for a retry count of 0 (or less): no
    poll is made and nil is returned, although the port never reports
    "up". *)
Lemma waitLinkUp_zero_retries_no_poll :
  let env := demo_env (demo_netconf None [] "") (Ok "")
               (fun n => Ok (demo_link n)) (fun _ => None) (fun _ => None) (Ok [])
               (fun _ => Ok "down") in
  waitLinkUp env "veth1" 0 100 emptyWorld = (None, emptyWorld) ∧
  waitLinkUp env "veth1" (-1) 100 emptyWorld = (None, emptyWorld) ∧
  ¬ reportsUp env "veth1" [].
Proof. repeat split. intros H. discriminate H. Qed.

(** C6 (amended).  For every retry count of at least 1 and every interval,
    [waitLinkUp] makes [n] polls with [1 <= n <= retryCount], separated by
    sleeps of the one duration computed from the interval; no poll before
    the last one reported "up"; either the last poll reported "up" and nil
    is returned at once, or it did not, all [retryCount] polls were made and
    the error is returned.  The cache is not touched. *)
Theorem waitLinkUp_bounded_polling (env : Env) (ofPortName : string)
    (retryCount interval : Z) (w : World) :
  (1 <= retryCount)%Z →
  let d := wrap_int64 (interval * 1000000) in
  let r := waitLinkUp env ofPortName retryCount interval w in
  ∃ n : nat,
    (1 <= n <= Z.to_nat retryCount)%nat ∧
    cache (snd r) = cache w ∧
    filter isPollOrSleep (drop (length (trace w)) (trace (snd r)))
      = pollSchedule ofPortName d n ∧
    (∀ k, (k < n - 1)%nat →
          ¬ reportsUp env ofPortName (trace w ++ rounds env ofPortName d (trace w) k)) ∧
    let h := (trace w ++ rounds env ofPortName d (trace w) (n - 1))%list in
    (reportsUp env ofPortName h ∧ fst r = None ∧
     trace (snd r) = (h ++ [EvGetOFPortOpState ofPortName])%list) ∨
    (¬ reportsUp env ofPortName h ∧ n = Z.to_nat retryCount ∧
     fst r = Some (waitLinkUp_error ofPortName) ∧
     trace (snd r) =
       (h ++ EvGetOFPortOpState ofPortName :: pollError env ofPortName h)%list).
Proof.
  intros Hrc d r. subst r. unfold waitLinkUp. fold d.
  destruct (waitLinkUp_loop_spec env ofPortName retryCount d (Z.to_nat retryCount) 1 w)
    as (n & Hn & Hbefore & Hcache & Hend); [lia|lia|].
  exists n. split; [done|]. split; [done|]. split; [|split; [done|]].
  - transitivity (pollSchedule ofPortName d (S (n - 1))); [|f_equal; lia].
    destruct Hend as [(_ & _ & ->)|(_ & _ & _ & ->)];
      rewrite <- app_assoc, drop_app_length; apply filter_rounds.
    + reflexivity.
    + rewrite filter_cons. cbn [isPollOrSleep]. rewrite decide_True by done.
      by rewrite filter_pollError.
  - exact Hend.
Qed.

Lemma waitLinkUp_bounded_polling_witness :
  let env := demo_env (demo_netconf None [] "") (Ok "")
               (fun n => Ok (demo_link n)) (fun _ => None) (fun _ => None) (Ok [])
               (fun h => if (length h <? 2)%nat then Ok "down" else Ok "up") in
  ∃ n : nat,
    (1 <= n <= 3)%nat ∧
    filter isPollOrSleep (trace (snd (waitLinkUp env "veth1" 3 100 emptyWorld)))
      = pollSchedule "veth1" 100000000 n.
Proof.
  intros env.
  destruct (waitLinkUp_bounded_polling env "veth1" 3 100 emptyWorld ltac:(lia))
    as (n & Hn & _ & Hsched & _).
  exists n. split; [exact Hn|exact Hsched].
Defined.

(** ** Computations that leave the cache store alone *)

Lemma keeps_cache_ret {A} (a : A) : keeps_cache (ret a).
Proof. intros w. reflexivity. Qed.

Lemma keeps_cache_call {R} (ev : Event) (oracle : History -> R) :
  keeps_cache (call ev oracle).
Proof. intros w. reflexivity. Qed.

Lemma keeps_cache_bind {A B} (m : M A) (k : A -> M B) :
  keeps_cache m → (∀ a, keeps_cache (k a)) → keeps_cache (bind m k).
Proof.
  intros Hm Hk w. unfold bind. specialize (Hm w).
  destruct (m w) as [a w1]. rewrite Hk. exact Hm.
Qed.

Create HintDb keeps discriminated.

Ltac keeps_cache_step :=
  first
    [ solve [auto with keeps nocore]
    | apply keeps_cache_ret
    | apply keeps_cache_call
    | apply keeps_cache_bind; [|intros]
    | match goal with
      | |- keeps_cache (match ?x with _ => _ end) => destruct x
      | |- keeps_cache (let '(_, _) := ?x in _) => destruct x
      end ].

Ltac keeps_cache_auto := unfold logPrintf, logCall; repeat keeps_cache_step.

Lemma keeps_cache_getHardwareAddr env ifName : keeps_cache (getHardwareAddr env ifName).
Proof. unfold getHardwareAddr. keeps_cache_auto. Qed.
#[local] Hint Resolve keeps_cache_getHardwareAddr : keeps.

Lemma keeps_cache_setInterfaceUp env name : keeps_cache (setInterfaceUp env name).
Proof. unfold setInterfaceUp. keeps_cache_auto. Qed.
#[local] Hint Resolve keeps_cache_setInterfaceUp : keeps.

Lemma keeps_cache_setupVeth env contNetns contIfaceName requestedMac mtu :
  keeps_cache (setupVeth env contNetns contIfaceName requestedMac mtu).
Proof. unfold setupVeth, refetchIface. keeps_cache_auto. Qed.
#[local] Hint Resolve keeps_cache_setupVeth : keeps.

Lemma keeps_cache_attachIfaceToBridge env h c o v t pt it n ovn uid :
  keeps_cache (attachIfaceToBridge env h c o v t pt it n ovn uid).
Proof. unfold attachIfaceToBridge. keeps_cache_auto. Qed.
#[local] Hint Resolve keeps_cache_attachIfaceToBridge : keeps.

Lemma keeps_cache_cleanPorts_loop env ifaces : keeps_cache (cleanPorts_loop env ifaces).
Proof. induction ifaces as [|iface rest IH]; cbn [cleanPorts_loop]; keeps_cache_auto. Qed.
#[local] Hint Resolve keeps_cache_cleanPorts_loop : keeps.

Lemma keeps_cache_cleanPorts env : keeps_cache (cleanPorts env).
Proof. unfold cleanPorts. keeps_cache_auto. Qed.
#[local] Hint Resolve keeps_cache_cleanPorts : keeps.

Lemma keeps_cache_waitLinkUp_loop env name rc d idxs :
  keeps_cache (waitLinkUp_loop env name rc d idxs).
Proof. induction idxs as [|i rest IH]; cbn [waitLinkUp_loop]; keeps_cache_auto. Qed.
#[local] Hint Resolve keeps_cache_waitLinkUp_loop : keeps.

Lemma keeps_cache_waitLinkUp env name rc interval : keeps_cache (waitLinkUp env name rc interval).
Proof. unfold waitLinkUp. keeps_cache_auto. Qed.
#[local] Hint Resolve keeps_cache_waitLinkUp : keeps.

Lemma keeps_cache_garp env ifName ips : keeps_cache (CmdAdd_garp env ifName ips).
Proof. induction ips as [|ipc rest IH]; cbn [CmdAdd_garp]; keeps_cache_auto. Qed.
#[local] Hint Resolve keeps_cache_garp : keeps.

Lemma keeps_cache_assignMac env args mac netconf newResult :
  keeps_cache (CmdAdd_assignMac env args mac netconf newResult).
Proof. unfold CmdAdd_assignMac, assignMacToLink. keeps_cache_auto. Qed.
#[local] Hint Resolve keeps_cache_assignMac : keeps.

Lemma keeps_cache_configureIface env args newResult :
  keeps_cache (CmdAdd_configureIface env args newResult).
Proof. unfold CmdAdd_configureIface. keeps_cache_auto. Qed.
#[local] Hint Resolve keeps_cache_configureIface : keeps.

Lemma keeps_cache_configure env args mac netconf newResult :
  keeps_cache (CmdAdd_configure env args mac netconf newResult).
Proof. unfold CmdAdd_configure. keeps_cache_auto. Qed.
#[local] Hint Resolve keeps_cache_configure : keeps.

Lemma keeps_cache_rollback env args errvar : keeps_cache (CmdAdd_rollback env args errvar).
Proof. unfold CmdAdd_rollback, getOvsPortForContIface, removeOvsPort. keeps_cache_auto. Qed.
#[local] Hint Resolve keeps_cache_rollback : keeps.

Lemma keeps_cache_ipamDel env args netconf errvar :
  keeps_cache (CmdAdd_ipamDel env args netconf errvar).
Proof. unfold CmdAdd_ipamDel. keeps_cache_auto. Qed.
#[local] Hint Resolve keeps_cache_ipamDel : keeps.

Lemma keeps_cache_ipam env args mac netconf hostIface contIface :
  keeps_cache (CmdAdd_ipam env args mac netconf hostIface contIface).
Proof. unfold CmdAdd_ipam. keeps_cache_auto. Qed.
#[local] Hint Resolve keeps_cache_ipam : keeps.

(** Nothing CmdAdd does after the switch port was created touches the
    cache. *)
Lemma keeps_cache_armed env args mac netconf userspaceMode hostIface contIface :
  keeps_cache (CmdAdd_armed env args mac netconf userspaceMode hostIface contIface).
Proof.
  unfold CmdAdd_armed. keeps_cache_auto.
Qed.

(** ** The DEL verb *)

(** C3.  When the cache holds no record for the key of (container ID,
    interface name), [CmdDel] returns nil and does nothing but log the call
    and read the cache: no teardown action is made and the cache is left as
    it was.  Two calls in a row on such a key therefore both return nil, and
    the second one again only logs the call and reads the cache.  More
    generally, after any call that leaves no record under the key, the next
    call returns nil and is such a no-op. *)
Theorem CmdDel_without_record_is_noop (env : Env) (args : CmdArgs) :
  let cRef := GetCRef env (ContainerID args) (IfName args) in
  let noop w :=
    (None : option error,
     {| cache := cache w;
        trace := trace w ++ [EvLogCall "DEL" args; EvLoadConfFromCache cRef] |}) in
  (∀ w, cache w !! cRef = None → CmdDel env args w = noop w) ∧
  (∀ w, cache w !! cRef = None →
        let r1 := CmdDel env args w in
        let r2 := CmdDel env args (snd r1) in
        fst r1 = None ∧ fst r2 = None ∧ r2 = noop (snd r1) ∧ cache (snd r2) = cache w) ∧
  (∀ w, let r1 := CmdDel env args w in
        cache (snd r1) !! cRef = None → CmdDel env args (snd r1) = noop (snd r1)).
Proof.
  intros cRef noop.
  assert (∀ w, cache w !! cRef = None → CmdDel env args w = noop w) as Hnoop.
  { intros w Hnone. unfold CmdDel, LoadConfFromCache. run. fold cRef. rewrite Hnone.
    unfold noop. by rewrite <- app_assoc. }
  split; [exact Hnoop|]. split.
  - intros w Hnone. cbv zeta. rewrite (Hnoop w Hnone).
    assert (cache (snd (noop w)) !! cRef = None) as Hnone' by exact Hnone.
    rewrite (Hnoop _ Hnone'). repeat split.
  - intros w r1 Hnone. by apply Hnoop.
Qed.

Lemma CmdDel_without_record_is_noop_witness :
  let env := demo_env (demo_netconf None [] "") (Ok "")
               (fun n => Ok (demo_link n)) (fun _ => None) (fun _ => None) (Ok [])
               (fun _ => Ok "up") in
  CmdDel env (demo_args "/proc/1/ns/net") emptyWorld =
    (None, {| cache := ∅;
              trace := [EvLogCall "DEL" (demo_args "/proc/1/ns/net");
                        EvLoadConfFromCache "c1-eth0"] |}).
Proof.
  intros env.
  apply (proj1 (CmdDel_without_record_is_noop env (demo_args "/proc/1/ns/net")) emptyWorld).
  reflexivity.
Defined.

Lemma keeps_cache_CmdDel_noNetns env args c : keeps_cache (CmdDel_noNetns env args c).
Proof. unfold CmdDel_noNetns, removeOvsPort. keeps_cache_auto. Qed.
#[local] Hint Resolve keeps_cache_CmdDel_noNetns : keeps.

Lemma keeps_cache_CmdDel_withNetns env args c : keeps_cache (CmdDel_withNetns env args c).
Proof.
  unfold CmdDel_withNetns, getOvsPortForContIface, removeOvsPort. keeps_cache_auto.
Qed.
#[local] Hint Resolve keeps_cache_CmdDel_withNetns : keeps.

Lemma keeps_cache_CmdDel_body env args c : keeps_cache (CmdDel_body env args c).
Proof. unfold CmdDel_body. keeps_cache_auto. Qed.

(** What CmdDel does with a record it finds: the record is cleaned exactly
    when the function's variable [err] is nil at the end (and the cleaning
    itself succeeds), whatever value the detach returns. *)
Lemma CmdDel_cleanup_follows_err_variable env args w c :
  let cRef := GetCRef env (ContainerID args) (IfName args) in
  let w1 := afterCall (afterCall w (EvLogCall "DEL" args)) (EvLoadConfFromCache cRef) in
  let x := CmdDel_body env args c w1 in
  cache w !! cRef = Some c →
  fst (CmdDel env args w) = fst (fst x) ∧
  (snd (fst x) ≠ None → cache (snd (CmdDel env args w)) = cache w) ∧
  (snd (fst x) = None → CleanCache_fails env (trace (snd x)) cRef = None →
   cache (snd (CmdDel env args w)) = delete cRef (cache w)).
Proof.
  intros cRef w1 x Hsome. subst x w1. unfold afterCall.
  unfold CmdDel, LoadConfFromCache. run. fold cRef. rewrite Hsome. cbn [trace cache].
  rewrite <- app_assoc. cbn [app].
  match goal with
  | |- context [CmdDel_body env args c ?w1] =>
      pose proof (keeps_cache_CmdDel_body env args c w1) as Hkeep;
      destruct (CmdDel_body env args c w1) as [[retval errvar] w2]
  end.
  cbn [fst snd cache] in *. unfold CmdDel_deferred, CleanCache.
  destruct errvar as [e|]; run.
  - repeat split; [by rewrite Hkeep|done].
  - destruct (CleanCache_fails env (trace w2) cRef) eqn:Hclean; run;
      repeat split; try done. intros _ _. by rewrite Hkeep.
Qed.

(** C2 (the source departs from the claim).  The deferred closure of CmdDel
    reads the function's variable [err], not the value returned, and the two
    differ on several paths.  In a world that holds the record of a veth
    attachment: when the link is already gone ([ip.ErrLinkNotFound]) the
    detach returns nil and the record stays; when the deletion of the switch
    port fails, or the final scan for interfaces in error fails, the detach
    returns the error and the record is removed. *)
Theorem CmdDel_cache_cleanup_mismatch :
  let args := demo_args "/proc/1/ns/net" in
  let conf := demo_netconf None [] "" in
  let linkGone :=
    demo_env conf (Ok "") (fun n => Ok (demo_link n))
      (fun _ => Some ErrLinkNotFound) (fun _ => None) (Ok []) (fun _ => Ok "up") in
  let portStuck :=
    demo_env conf (Ok "") (fun n => Ok (demo_link n))
      (fun _ => None) (fun _ => Some (errors_New "ovsdb down")) (Ok []) (fun _ => Ok "up") in
  let scanFails :=
    demo_env conf (Ok "") (fun n => Ok (demo_link n))
      (fun _ => None) (fun _ => None) (Err (errors_New "ovsdb down")) (fun _ => Ok "up") in
  (fst (CmdDel linkGone args attachedWorld) = None ∧
   cache (snd (CmdDel linkGone args attachedWorld)) !! "c1-eth0" = Some demo_record) ∧
  (fst (CmdDel portStuck args attachedWorld) = Some (errors_New "ovsdb down") ∧
   cache (snd (CmdDel portStuck args attachedWorld)) !! "c1-eth0" = None) ∧
  (fst (CmdDel scanFails args attachedWorld)
     = Some (fmt_Errorf "clean ports: %v" [] [errors_New "ovsdb down"]) ∧
   cache (snd (CmdDel scanFails args attachedWorld)) !! "c1-eth0" = None).
Proof. vm_compute. repeat split. Qed.

(** ** The ADD verb: rollback after the creation of the switch port *)

(** A failure of one of the steps after the port creation makes the IPAM
    block return the error with the function's variable [err] set. *)
Lemma IPAMFailure_flow env args mac netconf hostIface contIface w err wf :
  IPAMFailure env args mac netconf hostIface contIface w err wf →
  ∃ errvar,
    CmdAdd_ipam env args mac netconf hostIface contIface w
    = (Return (Some err) (Some errvar), wf).
Proof.
  destruct 1 as [e Hadd | raw e Hadd Hconv | raw r0 e w2 Hadd Hconv Hips Hwait
                | raw r0 w2 e Hadd Hconv Hips Hwait Henter
                | raw r0 w2 e res w3 Hadd Hconv Hips Hwait Henter Hmac
                | raw r0 w2 res w3 e w4 Hadd Hconv Hips Hwait Henter Hmac Hconf];
    unfold afterCall in *; unfold CmdAdd_ipam; run; rewrite Hadd; run; try (by eexists);
    rewrite Hconv; run; try (by eexists);
    (destruct (IPs r0) as [|ipc0 ips] eqn:Hr0; [congruence|]);
    cbn [length Nat.eqb]; rewrite Hwait; run; try (by eexists);
    rewrite Henter; run; try (by eexists).
  - unfold CmdAdd_configure. run. rewrite Hmac. run. by eexists.
  - unfold CmdAdd_configure. run. rewrite Hmac. run. rewrite Hconf. run. by eexists.
Qed.

Lemma CmdAdd_ipamDel_spec env args netconf e w :
  ∃ t,
    CmdAdd_ipamDel env args netconf (Some e) w
    = (tt, {| cache := cache w; trace := trace w ++ t |}) ∧
    actions t = [EvExecDel (IPAM_Type netconf) (StdinData args)].
Proof.
  unfold CmdAdd_ipamDel. run.
  destruct (ExecDel env (trace w) (IPAM_Type netconf) (StdinData args)); run.
  - eexists. split; [by rewrite <- app_assoc|reflexivity].
  - eexists. split; reflexivity.
Qed.

Lemma CmdAdd_rollback_spec env args e w :
  ∃ portName portFound lookupErr t,
    GetOvsPortForContIface env (trace w) (IfName args) (Netns args)
    = (portName, portFound, lookupErr) ∧
    CmdAdd_rollback env args (Some e) w
    = (tt, {| cache := cache w;
              trace := trace w ++
                       EvGetOvsPortForContIface (IfName args) (Netns args) :: t |}) ∧
    actions t = (if portFound : bool then [EvDeletePort portName] else []).
Proof.
  unfold CmdAdd_rollback, getOvsPortForContIface, removeOvsPort. run.
  destruct (GetOvsPortForContIface env (trace w) (IfName args) (Netns args))
    as [[portName portFound] lookupErr].
  exists portName, portFound, lookupErr.
  destruct lookupErr as [le|], portFound; run;
    repeat match goal with
           | |- context [match DeletePort ?a ?b ?c with _ => _ end] =>
               destruct (DeletePort a b c); run
           end;
    eexists; (split; [reflexivity|]);
    (split; [rewrite <- ?app_assoc; cbn [app]; reflexivity|reflexivity]).
Qed.

Lemma bind_inv {A B} (m : M A) (k : A -> M B) (w w' : World) (b : B) :
  bind m k w = (b, w') → ∃ a w1, m w = (a, w1) ∧ k a w1 = (b, w').
Proof. unfold bind. destruct (m w) as [a w1]. eauto. Qed.

Lemma keeps_cache_eq {A} (m : M A) (w w' : World) (a : A) :
  keeps_cache m → m w = (a, w') → cache w' = cache w.
Proof. intros Hk Heq. specialize (Hk w). by rewrite Heq in Hk. Qed.

(** When the provisioning succeeds, the cache record has been saved under
    the key of (container ID, interface name), before the interface pair
    and the switch port were created. *)
Lemma CmdAdd_provision_saves env args p w1 hostIface contIface w2 :
  CmdAdd_provision env args p w1 = (Ok (hostIface, contIface), w2) →
  ∃ origIfName,
    cache w2 =
    <[GetCRef env (ContainerID args) (IfName args) :=
        {| Netconf := p_netconf p; OrigIfName := origIfName;
           UserspaceMode := p_userspaceMode p |}]> (cache w1).
Proof.
  unfold CmdAdd_provision. intros H.
  apply bind_inv in H as (o & wa & Ho & H).
  assert (cache wa = cache w1) as Ha.
  { destruct (IsOvsHardwareOffloadEnabled env _ && negb _)%bool;
      inversion Ho; reflexivity. }
  destruct o as [origIfName|]; [|discriminate H].
  apply bind_inv in H as (saved & wb & Hs & H).
  unfold SaveCache in Hs.
  destruct (SaveCache_fails env (trace wa) _ _); inversion Hs; subst saved wb; clear Hs;
    [discriminate H|].
  apply bind_inv in H as (ifs & wc & Hi & H).
  assert (cache wc = <[GetCRef env (ContainerID args) (IfName args) :=
                         {| Netconf := p_netconf p; OrigIfName := origIfName;
                            UserspaceMode := p_userspaceMode p |}]> (cache wa)) as Hc.
  { destruct (IsOvsHardwareOffloadEnabled env _).
    - inversion Hi; reflexivity.
    - by apply (keeps_cache_eq _ _ _ _ (keeps_cache_setupVeth _ _ _ _ _)) in Hi. }
  destruct ifs as [[h c]|]; [|discriminate H].
  apply bind_inv in H as (a & wd & Hatt & H).
  apply (keeps_cache_eq _ _ _ _ (keeps_cache_attachIfaceToBridge _ _ _ _ _ _ _ _ _ _ _)) in Hatt.
  destruct a; inversion H; subst. exists origIfName. by rewrite Hatt, Hc, Ha.
Qed.

(** The rollback where it runs.  Once CmdAdd has created the switch port
    (its provisioning, which ends with [attachIfaceToBridge], has
    succeeded), whenever one of the later steps that set the function's
    variable [err] fails (the IPAM add, the conversion of its result, the
    wait for the link state, the entry into the container namespace, the
    assignment of the MAC, the configuration of the container interface),
    then, after the failure: the IPAM del is run; the switch port is looked up by the
    container interface name and the namespace path and, when the lookup
    finds one, that port is deleted; nothing else is done but logging and
    closing the namespace; the cache record saved before the port creation
    is still in the cache; and the attach returns the error of the failed
    step. *)
Theorem CmdAdd_rolls_back_created_port (env : Env) (args : CmdArgs) (w0 w1 w2 wf : World)
    (p : Prepared) (hostIface contIface : Interface) (err : error) :
  CmdAdd_prelude env args (afterCall w0 (EvLogCall "ADD" args)) = (Ok p, w1) →
  CmdAdd_provision env args p w1 = (Ok (hostIface, contIface), w2) →
  LateFailure env args p hostIface contIface w2 err wf →
  ∃ t1 portName portFound lookupErr t2 origIfName,
    fst (CmdAdd env args w0) = Some err ∧
    trace (snd (CmdAdd env args w0)) =
      trace wf ++ t1 ++
      EvGetOvsPortForContIface (IfName args) (Netns args) :: t2 ++
      [EvNetnsClose (Netns args)] ∧
    actions t1 = [EvExecDel (IPAM_Type (p_netconf p)) (StdinData args)] ∧
    GetOvsPortForContIface env (trace wf ++ t1) (IfName args) (Netns args)
      = (portName, portFound, lookupErr) ∧
    actions t2 = (if portFound : bool then [EvDeletePort portName] else []) ∧
    cache (snd (CmdAdd env args w0)) !! GetCRef env (ContainerID args) (IfName args)
      = Some {| Netconf := p_netconf p; OrigIfName := origIfName;
                UserspaceMode := p_userspaceMode p |}.
Proof.
  intros Hprelude Hprov [Henabled Hfail].
  destruct (CmdAdd_provision_saves _ _ _ _ _ _ _ Hprov) as (origIfName & Hsaved).
  destruct (IPAMFailure_flow _ _ _ _ _ _ _ _ _ Hfail) as (errvar & Hflow).
  pose proof (keeps_cache_eq _ _ _ _ (keeps_cache_ipam _ _ _ _ _ _) Hflow) as Hcache.
  destruct (CmdAdd_ipamDel_spec env args (p_netconf p) errvar wf) as (t1 & Hdel & Ht1).
  destruct (CmdAdd_rollback_spec env args errvar
              {| cache := cache wf; trace := trace wf ++ t1 |})
    as (portName & portFound & lookupErr & t2 & Hlookup & Hroll & Ht2).
  cbn [trace cache] in Hlookup, Hroll.
  exists t1, portName, portFound, lookupErr, t2, origIfName.
  assert (CmdAdd env args w0 =
          (Some err,
           {| cache := cache wf;
              trace := ((trace wf ++ t1) ++
                        EvGetOvsPortForContIface (IfName args) (Netns args) :: t2) ++
                       [EvNetnsClose (Netns args)] |})) as Hrun.
  { unfold afterCall in Hprelude. unfold CmdAdd. run. rewrite Hprelude. run.
    rewrite Hprov. run. unfold CmdAdd_armed. rewrite Henabled. run.
    rewrite Hflow. run. rewrite Hdel. run. rewrite Hroll. run. reflexivity. }
  rewrite Hrun. cbn [fst snd trace cache].
  split; [reflexivity|]. split.
  { rewrite <- !app_assoc. reflexivity. }
  split; [exact Ht1|]. split; [exact Hlookup|]. split; [exact Ht2|].
  rewrite Hcache, Hsaved. apply lookup_insert_eq.
Qed.

Lemma CmdAdd_rolls_back_created_port_witness :
  let env := demo_env (demo_netconf None [] "host-local") (Err (errors_New "ipam down"))
               (fun n => Ok (demo_link n)) (fun _ => None) (fun _ => None) (Ok [])
               (fun _ => Ok "up") in
  let r := CmdAdd env (demo_args "/proc/1/ns/net") emptyWorld in
  fst r = Some (fmt_Errorf "failed to set up IPAM plugin type %q: %v" ["host-local"]
                  [errors_New "ipam down"]) ∧
  is_Some (cache (snd r) !! "c1-eth0").
Proof.
  intros env r.
  edestruct (CmdAdd_rolls_back_created_port env (demo_args "/proc/1/ns/net") emptyWorld)
    as (t1 & portName & portFound & lookupErr & t2 & origIfName & Hret & _ & _ & _ & _ & Hc).
  - vm_compute. reflexivity.
  - vm_compute. reflexivity.
  - split; [reflexivity|]. apply IPAMAddFails. reflexivity.
  - split; [exact Hret|]. eexists. exact Hc.
Defined.

(** Not every error return after the port creation sets the function's
    variable [err]: when the IPAM plugin answers without any address, CmdAdd
    returns an error built on the spot while [err] is nil, so neither the
    IPAM del nor the rollback of the port runs. *)
Lemma CmdAdd_missing_IPs_no_rollback env args mac netconf userspaceMode hostIface contIface
    w raw newResult0 :
  (nonEmpty (IPAM_Type netconf) && negb userspaceMode)%bool = true →
  ExecAdd env (trace w) (IPAM_Type netconf) (StdinData args) = Ok raw →
  NewResultFromResult env raw = Ok newResult0 →
  IPs newResult0 = [] →
  CmdAdd_armed env args mac netconf userspaceMode hostIface contIface w =
  (Some (errors_New "IPAM plugin returned missing IP config"),
   afterCall w (EvExecAdd (IPAM_Type netconf) (StdinData args))).
Proof.
  intros Henabled Hadd Hconv Hips. unfold CmdAdd_armed. rewrite Henabled.
  unfold CmdAdd_ipam. run. rewrite Hadd. run. rewrite Hconv. run. rewrite Hips.
  reflexivity.
Qed.

(** Without IPAM the only step left is the printing of the result; its
    error, if any, is returned as it is while [err] is nil, so nothing is
    rolled back. *)
Lemma CmdAdd_print_failure_no_rollback env args mac netconf userspaceMode hostIface contIface w :
  (nonEmpty (IPAM_Type netconf) && negb userspaceMode)%bool = false →
  let result := {| Interfaces := [hostIface; contIface]; IPs := []; resRest := "" |} in
  CmdAdd_armed env args mac netconf userspaceMode hostIface contIface w =
  (PrintResult env (trace w) result (CNIVersion netconf),
   afterCall w (EvPrintResult result (CNIVersion netconf))).
Proof. intros Hdisabled result. unfold CmdAdd_armed. rewrite Hdisabled. reflexivity. Qed.

(** C1 (the source departs from the claim).  Not every step that fails after
    the creation of the switch port is rolled back: the deferred closures of
    CmdAdd read the function's variable [err], and two error returns leave
    it nil.  When the IPAM plugin answers without any address, CmdAdd
    returns "IPAM plugin returned missing IP config"; when the printing of
    the result fails, CmdAdd returns that error; in both cases the switch
    port has been created and the run contains no lookup of the port by
    container interface and namespace, no deletion of a port and no IPAM
    del, so the port (and, in the last run, the address allocated by IPAM)
    is left behind. *)
Theorem CmdAdd_rollback_skipped_with_err_nil :
  let args := demo_args "/proc/1/ns/net" in
  let created := EvCreatePort "veth1" "/proc/1/ns/net" "eth0" "" 0 0 [] "trunk" "" "" in
  let noAddress :=
    demo_env (demo_netconf None [] "host-local") (Ok "")
      (fun n => Ok (demo_link n)) (fun _ => None) (fun _ => None) (Ok [])
      (fun _ => Ok "up") in
  let printFails :=
    with_PrintResult
      (demo_env (demo_netconf None [] "") (Ok "")
         (fun n => Ok (demo_link n)) (fun _ => None) (fun _ => None) (Ok [])
         (fun _ => Ok "up"))
      (fun _ _ _ => Some (errors_New "broken pipe")) in
  let printFailsAfterIPAM :=
    with_PrintResult
      (demo_env (demo_netconf None [] "host-local") (Ok "10.0.0.5")
         (fun n => Ok (demo_link n)) (fun _ => None) (fun _ => None) (Ok [])
         (fun _ => Ok "up"))
      (fun _ _ _ => Some (errors_New "broken pipe")) in
  (fst (CmdAdd noAddress args emptyWorld)
     = Some (errors_New "IPAM plugin returned missing IP config") ∧
   created ∈ trace (snd (CmdAdd noAddress args emptyWorld)) ∧
   EvExecAdd "host-local" "{}" ∈ trace (snd (CmdAdd noAddress args emptyWorld)) ∧
   Forall (fun ev => isRollback ev = false) (trace (snd (CmdAdd noAddress args emptyWorld)))) ∧
  (fst (CmdAdd printFails args emptyWorld) = Some (errors_New "broken pipe") ∧
   created ∈ trace (snd (CmdAdd printFails args emptyWorld)) ∧
   Forall (fun ev => isRollback ev = false) (trace (snd (CmdAdd printFails args emptyWorld)))) ∧
  (fst (CmdAdd printFailsAfterIPAM args emptyWorld) = Some (errors_New "broken pipe") ∧
   created ∈ trace (snd (CmdAdd printFailsAfterIPAM args emptyWorld)) ∧
   EvExecAdd "host-local" "{}" ∈ trace (snd (CmdAdd printFailsAfterIPAM args emptyWorld)) ∧
   Forall (fun ev => isRollback ev = false)
     (trace (snd (CmdAdd printFailsAfterIPAM args emptyWorld)))).
Proof.
  vm_compute.
  repeat split;
    first [ solve [repeat (apply list_elem_of_here || apply list_elem_of_further)]
          | solve [repeat constructor] ].
Qed.

(** ** The ADD verb: port kind *)

Ltac destruct_matches_in H :=
  repeat match type of H with
         | context [match ?x with _ => _ end] => destruct x eqn:?; try discriminate H
         end.

(** What the prelude has computed when it succeeds. *)
Lemma CmdAdd_prelude_Ok env args w p w1 :
  CmdAdd_prelude env args w = (Ok p, w1) →
  ∃ netconf0 bridgeName,
    LoadConf env (StdinData args) = Ok netconf0 ∧
    CmdAdd_portKind netconf0 = Ok (p_vlanTagNum p, p_trunks p, p_portType p) ∧
    p_netconf p = set_BrName netconf0 bridgeName.
Proof.
  unfold CmdAdd_prelude. intros H.
  destruct (getEnvArgs env (Args args)) as [envArgs|]; [|discriminate H].
  destruct (LoadConf env (StdinData args)) as [netconf0|]; [|discriminate H].
  destruct (CmdAdd_portKind netconf0) as [[[vlanTagNum trunks] portType]|] eqn:Hkind;
    [|discriminate H].
  apply bind_inv in H as (d & wa & _ & H). destruct d; [discriminate H|].
  destruct (getBridgeName env _ _ _) as [bridgeName|]; [|discriminate H].
  apply bind_inv in H as (b & wb & _ & H). destruct b; [discriminate H|].
  apply bind_inv in H as (um & wc & _ & H). destruct um as [userspaceMode|]; [|discriminate H].
  apply bind_inv in H as (c & wd & _ & H). destruct c; [discriminate H|].
  apply bind_inv in H as (g & we & _ & H). destruct g; [discriminate H|].
  injection H as <- _. exists netconf0, bridgeName. done.
Qed.

Lemma attachIfaceToBridge_creates env h c o v t pt it n ovn uid w a w' :
  attachIfaceToBridge env h c o v t pt it n ovn uid w = (a, w') →
  EvCreatePort h n c ovn o v t pt it uid ∈ trace w'.
Proof.
  unfold attachIfaceToBridge. run. intros H.
  destruct_matches_in H; injection H as _ <-; cbn [trace];
    rewrite !elem_of_app, !list_elem_of_singleton; tauto.
Qed.

(** C9.  In the port-kind computation of CmdAdd the port type is "trunk"
    whenever the VLAN tag is nil or the trunk list is not empty; a nil tag
    with no trunk entry is not an error: it gives port type "trunk", no
    trunk ID and tag 0, and these are the values with which CmdAdd creates
    the switch port. *)
Theorem CmdAdd_portKind_defaults_to_trunk :
  (∀ netconf vlanTagNum trunks portType,
     VlanTag netconf = None ∨ Trunk_ netconf ≠ [] →
     CmdAdd_portKind netconf = Ok (vlanTagNum, trunks, portType) →
     portType = "trunk") ∧
  (∀ netconf,
     VlanTag netconf = None → Trunk_ netconf = [] →
     CmdAdd_portKind netconf = Ok (0%N, [], "trunk")) ∧
  (∀ env args w w1 w2 p hostIface contIface netconf0,
     LoadConf env (StdinData args) = Ok netconf0 →
     VlanTag netconf0 = None → Trunk_ netconf0 = [] →
     CmdAdd_prelude env args w = (Ok p, w1) →
     CmdAdd_provision env args p w1 = (Ok (hostIface, contIface), w2) →
     EvCreatePort (Name hostIface) (Netns args) (Name contIface) (p_ovnPort p)
       (OfportRequest netconf0) 0%N [] "trunk" (InterfaceType netconf0) (p_contPodUid p)
     ∈ trace w2).
Proof.
  assert (∀ netconf, VlanTag netconf = None → Trunk_ netconf = [] →
                     CmdAdd_portKind netconf = Ok (0%N, [], "trunk")) as Hdefault.
  { intros netconf Htag Htrunk. unfold CmdAdd_portKind. by rewrite Htag, Htrunk. }
  split; [|split; [exact Hdefault|]].
  - intros netconf vlanTagNum trunks portType Hcase. unfold CmdAdd_portKind.
    destruct (VlanTag netconf) as [tag|], (Trunk_ netconf) as [|item rest]; cbn;
      try (destruct (splitVlanIds _)); intros [= <- <- <-] || (intros; discriminate);
      try reflexivity.
    destruct Hcase as [?|?]; congruence.
  - intros env args w w1 w2 p hostIface contIface netconf0 Hconf Htag Htrunk Hprelude Hprov.
    apply CmdAdd_prelude_Ok in Hprelude as (netconf & bridgeName & Hconf' & Hkind & Hp).
    rewrite Hconf in Hconf'. injection Hconf' as <-.
    rewrite (Hdefault _ Htag Htrunk) in Hkind. injection Hkind as Hv Ht Hpt.
    unfold CmdAdd_provision in Hprov.
    apply bind_inv in Hprov as (o & wa & _ & H). destruct o as [origIfName|]; [|discriminate H].
    apply bind_inv in H as (saved & wb & _ & H). destruct saved; [discriminate H|].
    apply bind_inv in H as (ifs & wc & _ & H). destruct ifs as [[h c]|]; [|discriminate H].
    apply bind_inv in H as (att & wd & Hatt & H).
    destruct att; [discriminate H|]. injection H as <- <- <-.
    apply attachIfaceToBridge_creates in Hatt.
    rewrite <- Hv, <- Ht, <- Hpt, Hp in Hatt. exact Hatt.
Qed.

Lemma CmdAdd_portKind_defaults_to_trunk_witness :
  let env := demo_env (demo_netconf None [] "") (Ok "")
               (fun n => Ok (demo_link n)) (fun _ => None) (fun _ => None) (Ok [])
               (fun _ => Ok "up") in
  CmdAdd_portKind (demo_netconf None [] "") = Ok (0%N, [], "trunk") ∧
  EvCreatePort "veth1" "/proc/1/ns/net" "eth0" "" 0 0 [] "trunk" "" ""
  ∈ trace (snd (CmdAdd env (demo_args "/proc/1/ns/net") emptyWorld)).
Proof.
  intros env. split.
  - apply (proj1 (proj2 CmdAdd_portKind_defaults_to_trunk)); reflexivity.
  - vm_compute. repeat (apply list_elem_of_here || apply list_elem_of_further).
Defined.

(** ** The DEL verb, twice in a row on a key that has a record *)

(** When the first detach returns nil on the path where the link is already
    gone, the record stays (see above), so a second detach finds it and runs
    the teardown again: it asks for the port and deletes the one reported,
    and tries to delete the links once more. *)
Lemma CmdDel_twice_with_stale_record :
  let args := demo_args "/proc/1/ns/net" in
  let linkGone :=
    demo_env (demo_netconf None [] "") (Ok "") (fun n => Ok (demo_link n))
      (fun _ => Some ErrLinkNotFound) (fun _ => None) (Ok []) (fun _ => Ok "up") in
  let r1 := CmdDel linkGone args attachedWorld in
  let r2 := CmdDel linkGone args (snd r1) in
  fst r1 = None ∧ fst r2 = None ∧
  actions (drop (length (trace (snd r1))) (trace (snd r2))) =
    [EvLoadConfFromCache "c1-eth0";
     EvNewOvsDriver "unix:/var/run/openvswitch/db.sock";
     EvNewOvsBridgeDriver "br0" "unix:/var/run/openvswitch/db.sock";
     EvGetOvsPortForContIface "eth0" "/proc/1/ns/net";
     EvDeletePort "veth1";
     EvWithNetNSPath "/proc/1/ns/net";
     EvDelLinkByName "eth0";
     EvDelLinkByName "veth1"].
Proof. vm_compute. repeat split. Qed.

(** * Further properties of the plugin *)

(** ** Trunk resolver: order, repetition, bounds *)

Lemma increasing_unique (l1 l2 : list N) :
  StronglySorted N.lt l1 → StronglySorted N.lt l2 →
  NoDup l1 → NoDup l2 → (∀ v, v ∈ l1 ↔ v ∈ l2) → l1 = l2.
Proof.
  intros Hs1 Hs2 Hn1 Hn2 Hmem.
  apply (StronglySorted_unique_strong N.lt); [|done|done|].
  - intros x1 x2 _ _ H12 H21. lia.
  - by apply NoDup_Permutation.
Qed.

Lemma codeMember_same_entries (trunks trunks' : list Trunk) :
  (∀ item, item ∈ trunks ↔ item ∈ trunks') →
  ∀ v, codeMember trunks v ↔ codeMember trunks' v.
Proof.
  intros Hsame v. unfold codeMember. split; intros (item & Hin & Hm);
    exists item; (split; [by apply Hsame|done]).
Qed.

(** The outcome of [splitVlanIds] depends on which entries are given only,
    not on their order nor on how often each is repeated: two lists with
    the same entries both fail or both give the same sequence. *)
Theorem splitVlanIds_same_entries (trunks trunks' : list Trunk) :
  (∀ item, item ∈ trunks ↔ item ∈ trunks') →
  sameVlanIds (splitVlanIds trunks) (splitVlanIds trunks').
Proof.
  intros Hsame. unfold sameVlanIds.
  pose proof (splitVlanIds_fails_iff trunks) as Hf.
  pose proof (splitVlanIds_fails_iff trunks') as Hf'.
  assert (is_Ok (splitVlanIds trunks) = false ↔ is_Ok (splitVlanIds trunks') = false) as Hiff.
  { rewrite Hf, Hf'. split; (intros [(item & Hin & Hrej)|Hnone];
      [left; exists item; split; [by apply Hsame|done]
      |right; intros v Hv; apply (Hnone v);
       by apply (codeMember_same_entries _ _ Hsame)]). }
  destruct (splitVlanIds trunks) as [ids|e] eqn:H1,
           (splitVlanIds trunks') as [ids'|e'] eqn:H2; cbn [is_Ok] in Hiff.
  - apply splitVlanIds_Ok in H1 as (Hs1 & Hn1 & Hm1).
    apply splitVlanIds_Ok in H2 as (Hs2 & Hn2 & Hm2).
    apply increasing_unique; try done.
    intros v. rewrite Hm1, Hm2. by apply codeMember_same_entries.
  - destruct Hiff as [_ Hiff]. by specialize (Hiff eq_refl).
  - destruct Hiff as [Hiff _]. by specialize (Hiff eq_refl).
  - done.
Qed.

Lemma splitVlanIds_same_entries_witness :
  sameVlanIds
    (splitVlanIds [mkTrunk (Some 10%N) (Some 12%N) None; mkTrunk None None (Some 3%N)])
    (splitVlanIds [mkTrunk None None (Some 3%N); mkTrunk (Some 10%N) (Some 12%N) None;
                   mkTrunk None None (Some 3%N)]).
Proof.
  apply splitVlanIds_same_entries. intros item.
  rewrite !elem_of_cons, elem_of_nil. tauto.
Defined.

(** Whatever the single IDs are, every ID that [splitVlanIds] returns and
    that is not one of the single IDs given lies between 1 and 4096. *)
Theorem splitVlanIds_range_ids_bounded (trunks : list Trunk) (ids : list N) (v : N) :
  splitVlanIds trunks = Ok ids → v ∈ ids →
  (∃ item, item ∈ trunks ∧ ID item = Some v) ∨ (1 <= v <= 4096)%N.
Proof.
  intros Hok Hv.
  assert (is_Ok (splitVlanIds trunks) = true) as Hisok by (by rewrite Hok).
  assert (∀ item, item ∈ trunks → ¬ rejectedItem item) as Hacc.
  { intros item Hin Hrej.
    assert (is_Ok (splitVlanIds trunks) = false) as Hfail
      by (apply splitVlanIds_fails_iff; left; eauto).
    congruence. }
  apply (splitVlanIds_Ok _ _ Hok) in Hv as (item & Hin & [Hid|(lo & hi & Hlo & Hhi & Hpos & Hrange)]).
  - left. eauto.
  - right. specialize (Hacc item Hin). unfold rejectedItem in Hacc.
    assert (¬ (4096 < hi)%N) by (intros ?; apply Hacc; right; eauto).
    lia.
Qed.

Lemma splitVlanIds_range_ids_bounded_witness :
  (∃ item, item ∈ [mkTrunk (Some 10%N) (Some 12%N) None; mkTrunk None None (Some 5000%N)]
           ∧ ID item = Some 11%N) ∨ (1 <= 11 <= 4096)%N.
Proof.
  apply (splitVlanIds_range_ids_bounded
           [mkTrunk (Some 10%N) (Some 12%N) None; mkTrunk None None (Some 5000%N)]
           [10%N; 11%N; 12%N; 5000%N] 11%N).
  - vm_compute. reflexivity.
  - rewrite !elem_of_cons. tauto.
Defined.

(** ** The CHECK verb: cache validation *)

(** [validateCache] returns nil exactly when the bridge name, the socket
    file, the IPAM type and the device ID of the cached configuration equal
    those of the configuration given; no other field is compared. *)
Theorem validateCache_nil_iff (cache_ : CachedNetConf) (netconf : NetConf) :
  validateCache cache_ netconf = None ↔
  BrName (Netconf cache_) = BrName netconf ∧
  SocketFile (Netconf cache_) = SocketFile netconf ∧
  IPAM_Type (Netconf cache_) = IPAM_Type netconf ∧
  DeviceID (Netconf cache_) = DeviceID netconf.
Proof.
  unfold validateCache.
  destruct (String.eqb_spec (BrName (Netconf cache_)) (BrName netconf));
    cbn [negb]; [|split; [discriminate|tauto]].
  destruct (String.eqb_spec (SocketFile (Netconf cache_)) (SocketFile netconf));
    cbn [negb]; [|split; [discriminate|tauto]].
  destruct (String.eqb_spec (IPAM_Type (Netconf cache_)) (IPAM_Type netconf));
    cbn [negb]; [|split; [discriminate|tauto]].
  destruct (String.eqb_spec (DeviceID (Netconf cache_)) (DeviceID netconf));
    cbn [negb]; [|split; [discriminate|tauto]].
  tauto.
Qed.

Lemma validateCache_nil_iff_witness :
  validateCache demo_record (demo_netconf (Some 7%N) [] "") = None.
Proof. apply validateCache_nil_iff. repeat split. Defined.

(** ** The CHECK verb: switch state *)

Lemma trunkDiffers_false_iff (trunk netconfTrunks : list N) :
  length trunk = length netconfTrunks →
  trunkDiffers trunk netconfTrunks = false ↔ trunk = netconfTrunks.
Proof.
  intros Hlen. unfold trunkDiffers. split.
  - intros Hex. apply (nth_ext _ _ 0%N 0%N Hlen). intros i Hi.
    destruct (N.eqb_spec (nth i trunk 0%N) (nth i netconfTrunks 0%N)) as [|Hne]; [done|].
    exfalso.
    assert (existsb (fun i => negb (N.eqb (nth i trunk 0%N) (nth i netconfTrunks 0%N)))
              (seq 0 (length trunk)) = true) as Htrue; [|congruence].
    apply existsb_exists. exists i. split; [apply in_seq; lia|].
    by apply negb_true_iff, N.eqb_neq.
  - intros <-. apply not_true_is_false. intros (i & _ & Hi)%existsb_exists.
    by rewrite N.eqb_refl in Hi.
Qed.

Lemma validateOvs_tag_nil_iff netconf vlanMode tag :
  validateOvs_tag netconf vlanMode tag = None ↔
  tag = VlanTag netconf ∧ (VlanTag netconf ≠ None → vlanMode = "access").
Proof.
  unfold validateOvs_tag.
  destruct (VlanTag netconf) as [conf|], tag as [t|]; try (split; [discriminate|]);
    try (intros [[=] _]).
  - destruct (N.eqb_spec t conf) as [->|Hne]; cbn [negb].
    + destruct (String.eqb_spec vlanMode "access") as [->|Hmode]; cbn [negb].
      * tauto.
      * split; [discriminate|]. intros [_ H]. exfalso. apply Hmode, H. discriminate.
    + split; [discriminate|]. intros [[= ->] _]. done.
  - split; [|done]. intros _. split; [done|congruence].
Qed.

Lemma validateOvs_compareTrunks_nil_iff vlanMode trunk expected :
  validateOvs_compareTrunks vlanMode trunk expected = None ↔
  trunk = expected ∧ (expected ≠ [] → vlanMode = "trunk").
Proof.
  unfold validateOvs_compareTrunks.
  destruct (Nat.eqb_spec (length trunk) (length expected)) as [Hlen|Hlen]; cbn [negb].
  - destruct expected as [|x expected]; cbn [length Nat.ltb Nat.leb].
    + destruct trunk; [|discriminate Hlen]. split; [|done]. intros _. split; [done|congruence].
    + destruct (trunkDiffers trunk (x :: expected)) eqn:Hdiff.
      * split; [discriminate|]. intros [Heq _].
        apply (trunkDiffers_false_iff _ _ Hlen) in Heq. congruence.
      * apply (trunkDiffers_false_iff _ _ Hlen) in Hdiff.
        destruct (String.eqb_spec vlanMode "trunk") as [->|Hmode]; cbn [negb].
        -- split; [intros _; split; [done|auto]|done].
        -- split; [discriminate|]. intros [_ H]. exfalso. apply Hmode, H. discriminate.
  - split; [discriminate|]. intros [-> _]. done.
Qed.

Lemma validateOvs_trunk_nil_iff netconf vlanMode trunk :
  validateOvs_trunk netconf vlanMode trunk = None ↔
  ∃ expected, expectedTrunks netconf expected ∧ trunk = expected ∧
              (expected ≠ [] → vlanMode = "trunk").
Proof.
  unfold validateOvs_trunk, expectedTrunks.
  destruct (Trunk_ netconf) as [|item rest] eqn:Htrunk; cbn [length Nat.ltb Nat.leb].
  - rewrite validateOvs_compareTrunks_nil_iff. split.
    + intros [-> Hmode]. exists []. split; [by left|split; [done|exact Hmode]].
    + intros (expected & [[_ ->]|[Hne _]] & -> & Hmode); [done|congruence].
  - destruct (splitVlanIds (item :: rest)) as [ids|e] eqn:Hsplit.
    + cbn [app]. rewrite validateOvs_compareTrunks_nil_iff. split.
      * intros [-> Hmode]. exists ids. split; [right; split; [discriminate|done]|done].
      * intros (expected & [[[=] _]|[_ [= <-]]] & -> & Hmode). done.
    + split; [discriminate|]. intros (expected & [[[=] _]|[_ [=]]] & _).
Qed.

Lemma validateOvs_vlan_nil_iff netconf vlanMode tag trunk :
  validateOvs_vlan netconf vlanMode tag trunk = None ↔
  tag = VlanTag netconf ∧ (VlanTag netconf ≠ None → vlanMode = "access") ∧
  ∃ expected, expectedTrunks netconf expected ∧ trunk = expected ∧
              (expected ≠ [] → vlanMode = "trunk").
Proof.
  unfold validateOvs_vlan.
  pose proof (validateOvs_tag_nil_iff netconf vlanMode tag) as Htag.
  pose proof (validateOvs_trunk_nil_iff netconf vlanMode trunk) as Htrunk.
  destruct (validateOvs_tag netconf vlanMode tag) as [e|].
  - split; [discriminate|]. intros (H1 & H2 & _). by destruct (proj2 Htag (conj H1 H2)).
  - rewrite Htrunk. destruct (proj1 Htag eq_refl) as [H1 H2]. tauto.
Qed.

Lemma validateOvs_nil_vlan q netconf hostIfname :
  validateOvs q netconf hostIfname = None →
  ∃ vlanMode tag trunk, validateOvs_vlan netconf vlanMode tag trunk = None.
Proof.
  unfold validateOvs. intros Hnil. destruct_matches_in Hnil. eauto.
Qed.

(** [validateOvs] returns nil exactly when the bridge driver opens, the
    bridge is present, no interface of the bridge is in error (whichever
    attachment it belongs to), and the VLAN state of the host port is the one
    configured: the live tag equals the configured tag, with mode "access"
    when a tag is configured; the live trunk IDs are the sequence
    [splitVlanIds] gives (none when no trunk entry is configured), with mode
    "trunk" when that sequence is not empty.  With neither tag nor trunk
    configured the mode is not looked at. *)
Theorem validateOvs_nil_iff (q : OvsQueries) (netconf : NetConf) (hostIfname : string) :
  validateOvs q netconf hostIfname = None ↔
  q_NewOvsBridgeDriver q (BrName netconf) (SocketFile netconf) = None ∧
  q_IsBridgePresent q (BrName netconf) = Ok true ∧
  q_FindInterfacesWithError q = Ok [] ∧
  ∃ vlanMode tag trunk,
    q_GetOFPortVlanState q hostIfname = Ok (vlanMode, tag, trunk) ∧
    tag = VlanTag netconf ∧ (VlanTag netconf ≠ None → vlanMode = "access") ∧
    ∃ expected, expectedTrunks netconf expected ∧ trunk = expected ∧
                (expected ≠ [] → vlanMode = "trunk").
Proof.
  unfold validateOvs.
  destruct (q_NewOvsBridgeDriver q _ _); [split; [discriminate|intros [[=] _]]|].
  destruct (q_IsBridgePresent q _) as [[|]|];
    cbn [negb]; try (split; [discriminate|intros (_ & [=] & _)]).
  destruct (q_FindInterfacesWithError q) as [[|iface ifaces]|];
    cbn [length Nat.ltb Nat.leb]; try (split; [discriminate|intros (_ & _ & [=] & _)]).
  destruct (q_GetOFPortVlanState q hostIfname) as [[[vlanMode tag] trunk]|];
    [|split; [discriminate|intros (_ & _ & _ & ? & ? & ? & [=] & _)]].
  rewrite validateOvs_vlan_nil_iff. split.
  - intros Hvlan. repeat split; try done. by exists vlanMode, tag, trunk.
  - intros (_ & _ & _ & m & t & tr & [= <- <- <-] & Hvlan). exact Hvlan.
Qed.

Lemma validateOvs_nil_iff_witness :
  validateOvs
    {| q_NewOvsBridgeDriver := fun _ _ => None;
       q_IsBridgePresent := fun _ => Ok true;
       q_FindInterfacesWithError := Ok [];
       q_GetOFPortVlanState := fun _ => Ok ("access", Some 5%N, []) |}
    (demo_netconf (Some 5%N) [] "") "veth1" = None.
Proof.
  apply validateOvs_nil_iff. repeat split.
  exists "access", (Some 5%N), []. repeat split.
  exists []. split; [by left|]. split; [reflexivity|done].
Defined.


(** A configuration with both a VLAN tag and trunk entries never passes
    [validateOvs], whatever the switch reports: the tag check wants mode
    "access" and the trunk check wants mode "trunk". *)
Theorem validateOvs_tag_and_trunk_never_pass (q : OvsQueries) (netconf : NetConf)
    (hostIfname : string) :
  VlanTag netconf ≠ None → Trunk_ netconf ≠ [] →
  validateOvs q netconf hostIfname ≠ None.
Proof.
  intros Htag Htrunk Hnil.
  apply validateOvs_nil_vlan in Hnil as (vlanMode & tag & trunk & Hnil).
  apply validateOvs_vlan_nil_iff in Hnil as (_ & Haccess & expected & Hexp & _ & Hmode).
  destruct Hexp as [[? _]|[_ Hsplit]]; [done|].
  assert (expected ≠ []) as Hne.
  { intros ->. assert (is_Ok (splitVlanIds (Trunk_ netconf)) = false) as Hfail.
    { apply splitVlanIds_fails_iff. right. intros v Hv.
      apply (splitVlanIds_Ok _ _ Hsplit) in Hv. inversion Hv. }
    rewrite Hsplit in Hfail. discriminate. }
  specialize (Haccess Htag). specialize (Hmode Hne). congruence.
Qed.

Lemma validateOvs_tag_and_trunk_never_pass_witness :
  validateOvs
    {| q_NewOvsBridgeDriver := fun _ _ => None;
       q_IsBridgePresent := fun _ => Ok true;
       q_FindInterfacesWithError := Ok [];
       q_GetOFPortVlanState := fun _ => Ok ("trunk", Some 5%N, [10%N]) |}
    (demo_netconf (Some 5%N) [mkTrunk None None (Some 10%N)] "") "veth1" ≠ None.
Proof. apply validateOvs_tag_and_trunk_never_pass; discriminate. Defined.

(** The VLAN state CmdAdd asks for passes the VLAN checks of [validateOvs]:
    for a configuration that does not set both a tag and trunk entries, a
    port whose mode and trunk IDs are those computed by CmdAdd and whose tag
    is the configured one is accepted. *)
Theorem validateOvs_accepts_requested_vlan (netconf : NetConf)
    (vlanTagNum : N) (trunks : list N) (portType : string) :
  VlanTag netconf = None ∨ Trunk_ netconf = [] →
  CmdAdd_portKind netconf = Ok (vlanTagNum, trunks, portType) →
  validateOvs_vlan netconf portType (VlanTag netconf) trunks = None ∧
  (∀ tag, VlanTag netconf = Some tag → vlanTagNum = tag).
Proof.
  intros Hone Hkind. unfold validateOvs_vlan.
  assert (validateOvs_tag netconf portType (VlanTag netconf) = None ∧
          validateOvs_trunk netconf portType trunks = None ∧
          (∀ tag, VlanTag netconf = Some tag → vlanTagNum = tag)) as (Ht & Htr & Hnum).
  { rewrite validateOvs_tag_nil_iff, validateOvs_trunk_nil_iff.
    unfold CmdAdd_portKind, expectedTrunks in *.
    destruct (VlanTag netconf) as [tag|] eqn:Htag,
             (Trunk_ netconf) as [|item rest] eqn:Htrunk;
      cbn [isSome negb orb length Nat.ltb Nat.leb] in Hkind.
    - injection Hkind as <- <- <-. repeat split; try done.
      + exists []. split; [by left|done].
      + by intros t [= ->].
    - destruct Hone as [?|?]; discriminate.
    - injection Hkind as <- <- <-. repeat split; try done.
      exists []. split; [by left|done].
    - destruct (splitVlanIds (item :: rest)) as [ids|] eqn:Hsplit; [|discriminate].
      injection Hkind as <- <- <-. repeat split; try done.
      exists ids. split; [right; split; [discriminate|done]|done]. }
  rewrite Ht. done.
Qed.

Lemma validateOvs_accepts_requested_vlan_witness :
  validateOvs_vlan (demo_netconf None [mkTrunk (Some 10%N) (Some 12%N) None] "")
    "trunk" None [10%N; 11%N; 12%N] = None.
Proof.
  apply (validateOvs_accepts_requested_vlan
           (demo_netconf None [mkTrunk (Some 10%N) (Some 12%N) None] "")
           0%N [10%N; 11%N; 12%N] "trunk").
  - left. reflexivity.
  - vm_compute. reflexivity.
Defined.

(** ** The CHECK verb: interfaces of the previous result *)

(** [validateInterface] rejects a record without a name before any lookup;
    otherwise it looks the link up once and returns nil exactly when the
    link exists, a container interface has a sandbox, the link is a veth
    unless hardware offload is on, and the recorded MAC, if any, is the MAC
    of the link.  For a host interface the sandbox of the record plays no
    part. *)
Theorem validateInterface_nil_iff (env : Env) (intf : Interface) (isHost hwOffload : bool)
    (w : World) :
  (Name intf = "" →
   ∃ err, validateInterface env intf isHost hwOffload w = (Some err, w)) ∧
  (Name intf ≠ "" →
   snd (validateInterface env intf isHost hwOffload w)
   = afterCall w (EvLinkByName (Name intf)) ∧
   (fst (validateInterface env intf isHost hwOffload w) = None ↔
    ∃ link, LinkByName env (trace w) (Name intf) = Ok link ∧
            linkMatches intf isHost hwOffload link)) ∧
  (∀ sandbox,
     fst (validateInterface env
            {| Name := Name intf; Mac := Mac intf; Sandbox := sandbox |} true hwOffload w)
     = fst (validateInterface env intf true hwOffload w)).
Proof.
  split; [|split].
  - intros Hname. unfold validateInterface. rewrite Hname. cbn. eauto.
  - intros Hname. unfold validateInterface, linkMatches, afterCall.
    destruct (String.eqb_spec (Name intf) "") as [|_]; [done|]. run.
    destruct (LinkByName env (trace w) (Name intf)) as [link|e]; run.
    + destruct (negb isHost && String.eqb (Sandbox intf) "")%bool eqn:H1; run.
      { split; [reflexivity|]. split; [discriminate|].
        intros (l & [= <-] & Hs & _). apply andb_true_iff in H1 as [Hh Hsb].
        apply negb_true_iff in Hh. apply String.eqb_eq in Hsb. exfalso. by apply Hs. }
      destruct (negb hwOffload && negb (linkIsVeth link))%bool eqn:H2; run.
      { split; [reflexivity|]. split; [discriminate|].
        intros (l & [= <-] & _ & Hv & _). apply andb_true_iff in H2 as [Hh Hnv].
        apply negb_true_iff in Hh, Hnv. rewrite (Hv Hh) in Hnv. discriminate. }
      destruct (nonEmpty (Mac intf)
                && negb (String.eqb (Mac intf)
                           (HardwareAddr_String (linkHardwareAddr link))))%bool eqn:H3; run.
      { split; [reflexivity|]. split; [discriminate|].
        intros (l & [= <-] & _ & _ & Hm). apply andb_true_iff in H3 as [Hne Hdiff].
        apply nonEmpty_true in Hne. apply negb_true_iff, String.eqb_neq in Hdiff.
        exfalso. destruct Hm; done. }
      split; [reflexivity|]. split; [intros _|done]. exists link. split; [reflexivity|].
      repeat split.
      * intros ->. cbn [negb andb] in H1. by apply String.eqb_neq in H1.
      * intros ->. cbn [negb andb] in H2. by apply negb_false_iff in H2.
      * apply andb_false_iff in H3 as [Hempty|Hsame].
        -- left. by apply nonEmpty_false.
        -- right. by apply negb_false_iff, String.eqb_eq in Hsame.
    + split; [reflexivity|]. split; [discriminate|]. intros (l & [=] & _).
  - intros sandbox. unfold validateInterface. cbn [Name Mac Sandbox negb andb].
    destruct (String.eqb (Name intf) ""); [reflexivity|]. run.
    destruct (LinkByName env (trace w) (Name intf)); reflexivity.
Qed.

Lemma validateInterface_nil_iff_witness :
  let env := demo_env (demo_netconf None [] "") (Ok "")
               (fun n => Ok (demo_link n)) (fun _ => None) (fun _ => None) (Ok [])
               (fun _ => Ok "up") in
  fst (validateInterface env
         {| Name := "veth1"; Mac := "02:00:00:00:00:01"; Sandbox := "" |}
         true false emptyWorld) = None.
Proof.
  intros env.
  apply (proj2 (proj1 (proj2 (validateInterface_nil_iff env
           {| Name := "veth1"; Mac := "02:00:00:00:00:01"; Sandbox := "" |}
           true false emptyWorld)) ltac:(discriminate))).
  exists (demo_link "veth1"). split; [reflexivity|].
  unfold linkMatches. split; [discriminate|]. split; [intros _; reflexivity|].
  right. reflexivity.
Defined.

Lemma keeps_cache_validateInterface env intf isHost hwOffload :
  keeps_cache (validateInterface env intf isHost hwOffload).
Proof. unfold validateInterface. keeps_cache_auto. Qed.
#[local] Hint Resolve keeps_cache_validateInterface : keeps.

Lemma CmdCheck_findInterfaces_Ok env args hw (ifaces : list Interface) :
  ∀ c0 h0 w cont host w',
    CmdCheck_findInterfaces env args hw ifaces c0 h0 w = (Ok (cont, host), w') →
    cache w' = cache w ∧
    ((cont ∈ ifaces ∧ Name cont = IfName args ∧ Sandbox cont = Netns args) ∨ cont = c0) ∧
    ((host ∈ ifaces ∧ Name host ≠ IfName args) ∨
     (host = h0 ∧ ∀ intf, intf ∈ ifaces → Name intf = IfName args)).
Proof.
  induction ifaces as [|intf rest IH]; intros c0 h0 w cont host w' Hrun;
    cbn [CmdCheck_findInterfaces] in Hrun.
  - injection Hrun as <- <- <-. split; [done|]. split; [by right|]. right.
    split; [done|]. intros intf Hin. inversion Hin.
  - destruct (String.eqb_spec (IfName args) (Name intf)) as [Hname|Hname].
    + apply IH in Hrun as (Hcache & Hcont & Hhost). split; [done|]. split.
      * destruct Hcont as [(Hin & Hn & Hs)| ->].
        -- left. split; [by right|done].
        -- destruct (String.eqb_spec (Netns args) (Sandbox intf)); [|by right].
           left. split; [left|done].
      * destruct Hhost as [(Hin & Hn)|(-> & Hall)].
        -- left. split; [by right|done].
        -- right. split; [done|]. intros i [->|Hin]%elem_of_cons; auto.
    + apply bind_inv in Hrun as (e & w1 & Hval & Hrun).
      apply (keeps_cache_eq _ _ _ _ (keeps_cache_validateInterface _ _ _ _)) in Hval.
      destruct e; [discriminate Hrun|].
      apply IH in Hrun as (Hcache & Hcont & Hhost). split; [congruence|]. split.
      * destruct Hcont as [(Hin & Hn & Hs)| ->]; [left|by right]. split; [by right|done].
      * left. destruct Hhost as [(Hin & Hn)|(-> & _)].
        -- split; [by right|done].
        -- split; [left|congruence].
Qed.

(** When the loop of CmdCheck over the interfaces of the previous result and
    the namespace test that follows succeed, the container interface kept
    is in the namespace given and is either an interface of the previous
    result named like the requested one, or, when the namespace path given is
    empty, the zero value (no interface matched); the host interface kept
    is an interface of the previous result with another name, or the zero
    value when the previous result has none.  The cache is not touched. *)
Theorem CmdCheck_interfaces_Ok (env : Env) (args : CmdArgs) (hw : bool)
    (ifaces : list Interface) (w w' : World) (contIntf hostIntf : Interface) :
  CmdCheck_interfaces env args hw ifaces w = (Ok (contIntf, hostIntf), w') →
  cache w' = cache w ∧
  Sandbox contIntf = Netns args ∧
  ((contIntf ∈ ifaces ∧ Name contIntf = IfName args) ∨
   (contIntf = zeroInterface ∧ Netns args = "")) ∧
  ((hostIntf ∈ ifaces ∧ Name hostIntf ≠ IfName args) ∨
   (hostIntf = zeroInterface ∧ ∀ intf, intf ∈ ifaces → Name intf = IfName args)).
Proof.
  unfold CmdCheck_interfaces. intros Hrun.
  apply bind_inv in Hrun as (r & w1 & Hfind & Hrun).
  destruct r as [[c h]|]; [|discriminate Hrun].
  destruct (String.eqb_spec (Netns args) (Sandbox c)) as [Hsb|Hsb];
    cbn [negb] in Hrun; [|discriminate Hrun].
  injection Hrun as <- <- <-.
  apply CmdCheck_findInterfaces_Ok in Hfind as (Hcache & Hcont & Hhost).
  split; [done|]. split; [done|]. split; [|exact Hhost].
  destruct Hcont as [(Hin & Hname & _)| ->]; [by left|right].
  split; [reflexivity|]. by rewrite Hsb.
Qed.

Lemma CmdCheck_interfaces_Ok_witness :
  let env := demo_env (demo_netconf None [] "") (Ok "")
               (fun n => Ok (demo_link n)) (fun _ => None) (fun _ => None) (Ok [])
               (fun _ => Ok "up") in
  let host := {| Name := "veth1"; Mac := ""; Sandbox := "" |} in
  let cont := {| Name := "eth0"; Mac := ""; Sandbox := "/proc/1/ns/net" |} in
  Sandbox cont = "/proc/1/ns/net" ∧
  ((host ∈ [host; cont] ∧ Name host ≠ "eth0") ∨
   (host = zeroInterface ∧ ∀ intf, intf ∈ [host; cont] → Name intf = "eth0")).
Proof.
  intros env host cont.
  destruct (CmdCheck_interfaces_Ok env (demo_args "/proc/1/ns/net") false [host; cont]
              emptyWorld
              {| cache := ∅; trace := [EvLinkByName "veth1"] |} cont host)
    as (_ & Hsb & _ & Hhost).
  - vm_compute. reflexivity.
  - split; [exact Hsb|exact Hhost].
Defined.

(** ** The CHECK verb: cache record *)

Lemma keeps_cache_LoadConfFromCache cRef : keeps_cache (LoadConfFromCache cRef).
Proof. intros w. reflexivity. Qed.
#[local] Hint Resolve keeps_cache_LoadConfFromCache : keeps.

Lemma keeps_cache_CmdCheck_cache env args : keeps_cache (CmdCheck_cache env args).
Proof. unfold CmdCheck_cache. keeps_cache_auto. Qed.

(** The first part of CmdCheck (up to the validation of the cache record)
    never changes the cache, and without a record under the key of
    (container ID, interface name) it always returns an error, where CmdDel
    returns nil. *)
Theorem CmdCheck_needs_record (env : Env) (args : CmdArgs) (w : World) :
  cache (snd (CmdCheck_cache env args w)) = cache w ∧
  (cache w !! GetCRef env (ContainerID args) (IfName args) = None →
   ∃ err, fst (CmdCheck_cache env args w) = inl (Some err)).
Proof.
  split; [apply keeps_cache_CmdCheck_cache|].
  intros Hnone. unfold CmdCheck_cache, LoadConfFromCache. run.
  destruct (LoadConf env (StdinData args)); [|by eexists].
  destruct (getEnvArgs env (Args args)); [|by eexists]. run.
  destruct (NewOvsDriver env _ _); [by eexists|].
  destruct (getBridgeName env _ _ _); [|by eexists]. run.
  rewrite Hnone. by eexists.
Qed.

Lemma CmdCheck_needs_record_witness :
  let env := demo_env (demo_netconf None [] "") (Ok "")
               (fun n => Ok (demo_link n)) (fun _ => None) (fun _ => None) (Ok [])
               (fun _ => Ok "up") in
  ∃ err, fst (CmdCheck_cache env (demo_args "/proc/1/ns/net") emptyWorld) = inl (Some err).
Proof.
  intros env.
  apply (proj2 (CmdCheck_needs_record env (demo_args "/proc/1/ns/net") emptyWorld)).
  reflexivity.
Defined.

(** ** CHECK after ADD *)

Lemma CmdAdd_prelude_resolves env args w p w1 :
  CmdAdd_prelude env args w = (Ok p, w1) →
  ∃ envArgs netconf0 bridgeName,
    getEnvArgs env (Args args) = Ok envArgs ∧
    LoadConf env (StdinData args) = Ok netconf0 ∧
    p_ovnPort p = match envArgs with Some e => OvnPort e | None => "" end ∧
    getBridgeName env (BrName netconf0) (p_ovnPort p) (DeviceID netconf0) = Ok bridgeName ∧
    p_netconf p = set_BrName netconf0 bridgeName.
Proof.
  unfold CmdAdd_prelude. intros H.
  destruct (getEnvArgs env (Args args)) as [envArgs|]; [|discriminate H].
  destruct (LoadConf env (StdinData args)) as [netconf0|]; [|discriminate H].
  destruct (CmdAdd_portKind netconf0) as [[[vlanTagNum trunks] portType]|]; [|discriminate H].
  apply bind_inv in H as (d & wa & _ & H). destruct d; [discriminate H|].
  destruct (getBridgeName env _ _ _) as [bridgeName|] eqn:Hbridge; [|discriminate H].
  apply bind_inv in H as (b & wb & _ & H). destruct b; [discriminate H|].
  apply bind_inv in H as (um & wc & _ & H). destruct um as [userspaceMode|]; [|discriminate H].
  apply bind_inv in H as (c & wd & _ & H). destruct c; [discriminate H|].
  apply bind_inv in H as (g & we & _ & H). destruct g; [discriminate H|].
  injection H as <- _. exists envArgs, netconf0, bridgeName. done.
Qed.

(** CHECK after ADD.  ADD and CHECK are separate runs, so the environment
    of the CHECK ([env']) is not that of the ADD ([env]): what the switch
    database and the device files answer may have changed in between.  When
    CHECK is called for the same container and interface, with arguments
    and a configuration that load to the same values as in the ADD, the
    cache still holds the record the ADD saved and the switch database can
    be reached, the outcome of the first part of CmdCheck depends on the
    bridge name CHECK resolves anew: if it is the name the ADD stored, the
    record passes the cache validation (CmdCheck returns nil for a userspace
    device and otherwise goes on with the configuration the ADD cached); if
    it is another name (the uplink of the device has moved to another
    bridge, say), CmdCheck returns "BrName mismatch". *)
Theorem CmdCheck_accepts_record_of_CmdAdd (env env' : Env) (args args' : CmdArgs)
    (w0 w1 w2 w : World) (p : Prepared) (hostIface contIface : Interface)
    (netconf0 : NetConf) (bridgeName' : string) :
  CmdAdd_prelude env args (afterCall w0 (EvLogCall "ADD" args)) = (Ok p, w1) →
  CmdAdd_provision env args p w1 = (Ok (hostIface, contIface), w2) →
  ContainerID args' = ContainerID args → IfName args' = IfName args →
  (∀ containerID ifName, GetCRef env' containerID ifName = GetCRef env containerID ifName) →
  LoadConf env (StdinData args) = Ok netconf0 →
  LoadConf env' (StdinData args') = Ok netconf0 →
  getEnvArgs env' (Args args') = getEnvArgs env (Args args) →
  cache w !! GetCRef env (ContainerID args) (IfName args)
    = cache w2 !! GetCRef env (ContainerID args) (IfName args) →
  NewOvsDriver env' (trace w ++ [EvLogCall "CHECK" args']) (SocketFile netconf0) = None →
  getBridgeName env' (BrName netconf0) (p_ovnPort p) (DeviceID netconf0) = Ok bridgeName' →
  ∃ origIfName,
    fst (CmdCheck_cache env' args' w) =
    if String.eqb (BrName (p_netconf p)) bridgeName' then
      if p_userspaceMode p then inl None
      else inr (p_netconf p,
                {| Netconf := p_netconf p; OrigIfName := origIfName;
                   UserspaceMode := p_userspaceMode p |})
    else
      inl (Some (fmt_Errorf "BrName mismatch. cache=%s,netconf=%s"
                   [BrName (p_netconf p); bridgeName'] [])).
Proof.
  intros Hprelude Hprov Hcid Hifname Hcref Hload Hload' Hargs Hcache Hdriver Hbridge'.
  apply CmdAdd_prelude_resolves in Hprelude
    as (envArgs & netconf & bridgeName & Henv & Hload0 & Hovn & _ & Hp).
  rewrite Hload in Hload0. injection Hload0 as <-.
  destruct (CmdAdd_provision_saves _ _ _ _ _ _ _ Hprov) as (origIfName & Hsaved).
  rewrite Hsaved, lookup_insert_eq in Hcache.
  exists origIfName. unfold CmdCheck_cache, LoadConfFromCache. run.
  rewrite Hload', Hargs, Henv. run. rewrite Hdriver, <- Hovn, Hbridge'. run.
  rewrite Hcref, Hcid, Hifname, Hcache, Hp.
  unfold validateCache, set_BrName. cbn [Netconf BrName SocketFile IPAM_Type DeviceID
                                         UserspaceMode].
  destruct (String.eqb bridgeName bridgeName') eqn:Hsame; cbn [negb]; [|reflexivity].
  apply String.eqb_eq in Hsame. subst bridgeName'. rewrite !String.eqb_refl. cbn [negb].
  by destruct (p_userspaceMode p).
Qed.

Lemma CmdCheck_accepts_record_of_CmdAdd_witness :
  let env := demo_env (demo_netconf None [] "") (Ok "")
               (fun n => Ok (demo_link n)) (fun _ => None) (fun _ => None) (Ok [])
               (fun _ => Ok "up") in
  let args := demo_args "/proc/1/ns/net" in
  ∃ origIfName,
    fst (CmdCheck_cache env args (snd (CmdAdd env args emptyWorld))) =
    inr (demo_netconf None [] "",
         {| Netconf := demo_netconf None [] ""; OrigIfName := origIfName;
            UserspaceMode := false |}).
Proof.
  intros env args.
  edestruct (CmdCheck_accepts_record_of_CmdAdd env env args args emptyWorld)
    as (origIfName & Hcheck).
  - vm_compute. reflexivity.
  - vm_compute. reflexivity.
  - reflexivity.
  - reflexivity.
  - reflexivity.
  - reflexivity.
  - reflexivity.
  - reflexivity.
  - instantiate (1 := snd (CmdAdd env args emptyWorld)). vm_compute. reflexivity.
  - reflexivity.
  - reflexivity.
  - exists origIfName. rewrite Hcheck. reflexivity.
Defined.

(** ** Cleanup sweeper *)

Lemma cleanPorts_loop_spec env (ifaces : list string) :
  ∀ w, ∃ t,
    cleanPorts_loop env ifaces w = (tt, {| cache := cache w; trace := trace w ++ t |}) ∧
    actions t = map EvDeletePort ifaces.
Proof.
  induction ifaces as [|iface rest IH]; intros w; cbn [cleanPorts_loop].
  - exists []. split; [by rewrite app_nil_r; destruct w|reflexivity].
  - run.
    destruct (DeletePort env _ iface) as [err|]; run;
      match goal with
      | |- context [cleanPorts_loop env rest ?w1] =>
          destruct (IH w1) as (t & -> & Ht)
      end; cbn [trace cache]; eexists; (split;
        [rewrite <- !app_assoc; cbn [app]; reflexivity
        |unfold actions in *; cbn [List.filter isAction map]; by rewrite Ht]).
Qed.

(** [cleanPorts] fails only when the interfaces in error cannot be listed.
    Otherwise it tries to delete the port of every interface listed, once
    each and in the order listed, goes on after a deletion that fails, and
    returns nil; it does nothing else but log. *)
Theorem cleanPorts_best_effort (env : Env) (w : World) :
  match FindInterfacesWithError env (trace w) with
  | Err err =>
      cleanPorts env w = (Some (fmt_Errorf "clean ports: %v" [] [err]),
                          afterCall w EvFindInterfacesWithError)
  | Ok ifaces =>
      ∃ t, cleanPorts env w =
           (None, {| cache := cache w;
                     trace := trace w ++ EvFindInterfacesWithError :: t |}) ∧
           actions t = map EvDeletePort ifaces
  end.
Proof.
  unfold cleanPorts, afterCall. run.
  destruct (FindInterfacesWithError env (trace w)) as [ifaces|err]; run; [|reflexivity].
  match goal with
  | |- context [cleanPorts_loop env ifaces ?w1] =>
      destruct (cleanPorts_loop_spec env ifaces w1) as (t & -> & Ht)
  end.
  exists t. cbn [trace cache]. split; [by rewrite <- app_assoc|exact Ht].
Qed.

(** ** The ADD verb: interface index of the addresses, gratuitous ARP *)

Lemma fixInterfaceIndex_no_match ifName ifaces :
  ∀ ifIndex ips,
    Forall (fun ifCfg => Name ifCfg ≠ ifName) ifaces →
    fixInterfaceIndex ifName ifIndex ifaces ips = ips.
Proof.
  induction ifaces as [|ifCfg rest IH]; intros ifIndex ips Hnone; cbn [fixInterfaceIndex];
    [reflexivity|].
  inversion Hnone as [|? ? Hhead Hrest]; subst.
  destruct (String.eqb_spec (Name ifCfg) ifName) as [Heq|_]; [done|]. by apply IH.
Qed.

Lemma fixInterfaceIndex_last_match ifName ifCfg after before :
  ∀ ifIndex ips,
    Name ifCfg = ifName →
    Forall (fun i => Name i ≠ ifName) after →
    fixInterfaceIndex ifName ifIndex (before ++ ifCfg :: after) ips
    = map (fun ipc => set_ipInterface ipc (ifIndex + Z.of_nat (length before))) ips.
Proof.
  induction before as [|b rest IH]; intros ifIndex ips Hname Hafter.
  - cbn [app fixInterfaceIndex length]. rewrite Hname, String.eqb_refl.
    rewrite fixInterfaceIndex_no_match by done. by rewrite Z.add_0_r.
  - cbn [app fixInterfaceIndex length]. rewrite IH by done.
    replace (ifIndex + 1 + Z.of_nat (length rest))%Z
      with (ifIndex + Z.of_nat (S (length rest)))%Z by lia.
    destruct (String.eqb (Name b) ifName); [|reflexivity].
    rewrite map_map. reflexivity.
Qed.

(** The last loop of CmdAdd, over the interfaces of the result: when no
    interface has the name of the container interface, the addresses are
    left as they are; otherwise every address gets the index of the last
    interface of that name (earlier matches are overwritten), and only the
    interface index of an address changes. *)
Theorem fixInterfaceIndex_last_match_wins (ifName : string) (ifIndex : Z)
    (ifaces : list Interface) (ips : list IPConfig) :
  (Forall (fun ifCfg => Name ifCfg ≠ ifName) ifaces →
   fixInterfaceIndex ifName ifIndex ifaces ips = ips) ∧
  (∀ before ifCfg after,
     ifaces = before ++ ifCfg :: after →
     Name ifCfg = ifName →
     Forall (fun i => Name i ≠ ifName) after →
     fixInterfaceIndex ifName ifIndex ifaces ips
     = map (fun ipc => set_ipInterface ipc (ifIndex + Z.of_nat (length before))) ips) ∧
  map Address_IP (fixInterfaceIndex ifName ifIndex ifaces ips) = map Address_IP ips ∧
  map ipRest (fixInterfaceIndex ifName ifIndex ifaces ips) = map ipRest ips.
Proof.
  split; [apply fixInterfaceIndex_no_match|]. split.
  { intros before ifCfg after -> Hname Hafter. by apply fixInterfaceIndex_last_match. }
  revert ifIndex ips.
  induction ifaces as [|ifCfg rest IH]; intros ifIndex ips; cbn [fixInterfaceIndex];
    [done|].
  destruct (IH (ifIndex + 1)%Z
              (if String.eqb (Name ifCfg) ifName
               then map (fun ipc => set_ipInterface ipc ifIndex) ips else ips)) as [-> ->].
  destruct (String.eqb (Name ifCfg) ifName); [|done].
  by rewrite !map_map.
Qed.

Lemma fixInterfaceIndex_last_match_wins_witness :
  let host := {| Name := "eth0"; Mac := ""; Sandbox := "" |} in
  let cont := {| Name := "eth0"; Mac := ""; Sandbox := "/proc/1/ns/net" |} in
  let ipc := {| ipInterface := None; Address_IP := [Byte.x0a; Byte.x00; Byte.x00; Byte.x05];
                ipRest := "/24" |} in
  fixInterfaceIndex "eth0" 0 [host; cont] [ipc] = [set_ipInterface ipc 1].
Proof.
  intros host cont ipc.
  apply (proj1 (proj2 (fixInterfaceIndex_last_match_wins "eth0" 0 [host; cont] [ipc]))
           [host] cont []).
  - reflexivity.
  - reflexivity.
  - constructor.
Defined.

(** The gratuitous-ARP loop sends one announcement for every IPv4 address of
    the result (in the 4-byte or the 16-byte form), in order, and none for
    the other addresses; a failure is logged and the loop goes on; the loop
    does nothing else. *)
Theorem CmdAdd_garp_only_IPv4 (env : Env) (ifName : string) (ips : list IPConfig) (w : World) :
  ∃ t,
    CmdAdd_garp env ifName ips w = (tt, {| cache := cache w; trace := trace w ++ t |}) ∧
    actions t = map (fun ipc => EvGratuitousArpOverIface (Address_IP ipc) ifName)
                  (List.filter isIPv4 ips).
Proof.
  revert w. induction ips as [|ipc rest IH]; intros w; cbn [CmdAdd_garp].
  - exists []. split; [by rewrite app_nil_r; destruct w|reflexivity].
  - unfold isIPv4 in *. cbn [List.filter]. run.
    destruct (To4 (Address_IP ipc)) as [ip4|]; run.
    + destruct (GratuitousArpOverIface env (trace w) (Address_IP ipc) ifName) as [err|]; run;
        match goal with
        | |- context [CmdAdd_garp env ifName rest ?w1] =>
            destruct (IH w1) as (t & -> & Ht)
        end; cbn [trace cache isSome map]; eexists; (split;
          [rewrite <- !app_assoc; cbn [app]; reflexivity
          |unfold actions in *; cbn [List.filter isAction]; by rewrite Ht]).
    + destruct (IH w) as (t & -> & Ht). exists t. split; [reflexivity|exact Ht].
Qed.

(** ** What the verbs call *)

Lemma emits_ret {A} (P : Event -> bool) (a : A) : emits P (ret a).
Proof. intros w. exists []. split; [by rewrite app_nil_r|constructor]. Qed.

Lemma emits_call {R} (P : Event -> bool) (ev : Event) (oracle : History -> R) :
  P ev = true → emits P (call ev oracle).
Proof. intros Hev w. exists [ev]. split; [reflexivity|by constructor]. Qed.

Lemma emits_bind {A B} (P : Event -> bool) (m : M A) (k : A -> M B) :
  emits P m → (∀ a, emits P (k a)) → emits P (bind m k).
Proof.
  intros Hm Hk w. unfold bind. destruct (Hm w) as (t1 & Ht1 & HP1).
  destruct (m w) as [a w1]. destruct (Hk a w1) as (t2 & Ht2 & HP2).
  exists (t1 ++ t2). cbn [snd] in *. split; [by rewrite Ht2, Ht1, app_assoc|].
  by apply Forall_app.
Qed.

Lemma emits_SaveCache (P : Event -> bool) env cRef c :
  P (EvSaveCache cRef c) = true → emits P (SaveCache env cRef c).
Proof.
  intros Hev w. exists [EvSaveCache cRef c]. unfold SaveCache.
  destruct (SaveCache_fails env (trace w) cRef c); (split; [reflexivity|by constructor]).
Qed.

Lemma emits_CleanCache (P : Event -> bool) env cRef :
  P (EvCleanCache cRef) = true → emits P (CleanCache env cRef).
Proof.
  intros Hev w. exists [EvCleanCache cRef]. unfold CleanCache.
  destruct (CleanCache_fails env (trace w) cRef); (split; [reflexivity|by constructor]).
Qed.

Lemma emits_LoadConfFromCache (P : Event -> bool) cRef :
  P (EvLoadConfFromCache cRef) = true → emits P (LoadConfFromCache cRef).
Proof. intros Hev w. exists [EvLoadConfFromCache cRef]. split; [reflexivity|by constructor]. Qed.

Ltac emits_basic :=
  first
    [ apply emits_ret
    | apply emits_call; reflexivity
    | apply emits_SaveCache; reflexivity
    | apply emits_CleanCache; reflexivity
    | apply emits_LoadConfFromCache; reflexivity
    | apply emits_bind; [|intros]
    | match goal with
      | |- emits _ (match ?x with _ => _ end) => destruct x
      | |- emits _ (let '(_, _) := ?x in _) => destruct x
      end ].

Lemma emits_cleanPorts_loop (P : Event -> bool) env ifaces :
  (∀ format a errs, P (EvLogPrintf format a errs) = true) →
  (∀ portName, P (EvDeletePort portName) = true) →
  emits P (cleanPorts_loop env ifaces).
Proof.
  intros Hlog Hdel. induction ifaces as [|iface rest IH]; cbn [cleanPorts_loop];
    unfold logPrintf; repeat first [exact IH | apply emits_call; auto | emits_basic].
Qed.

Lemma emits_waitLinkUp_loop (P : Event -> bool) env name rc d idxs :
  (∀ format a errs, P (EvLogPrintf format a errs) = true) →
  (∀ n, P (EvGetOFPortOpState n) = true) →
  (∀ ns, P (EvSleep ns) = true) →
  emits P (waitLinkUp_loop env name rc d idxs).
Proof.
  intros Hlog Hpoll Hsleep. induction idxs as [|i rest IH]; cbn [waitLinkUp_loop];
    unfold logPrintf; repeat first [exact IH | apply emits_call; auto | emits_basic].
Qed.

Lemma emits_garp (P : Event -> bool) env ifName ips :
  (∀ format a errs, P (EvLogPrintf format a errs) = true) →
  (∀ ip n, P (EvGratuitousArpOverIface ip n) = true) →
  emits P (CmdAdd_garp env ifName ips).
Proof.
  intros Hlog Harp. induction ips as [|ipc rest IH]; cbn [CmdAdd_garp];
    unfold logPrintf; repeat first [exact IH | apply emits_call; auto | emits_basic].
Qed.

Lemma emits_findInterfaces (P : Event -> bool) env args hw ifaces :
  (∀ n, P (EvLinkByName n) = true) →
  ∀ contIntf hostIntf, emits P (CmdCheck_findInterfaces env args hw ifaces contIntf hostIntf).
Proof.
  intros Hlink. induction ifaces as [|intf rest IH]; intros contIntf hostIntf;
    cbn [CmdCheck_findInterfaces]; unfold validateInterface;
    repeat first [apply IH | apply emits_call; auto | emits_basic].
Qed.

Ltac emits_step :=
  first
    [ emits_basic
    | apply emits_cleanPorts_loop; intros; reflexivity
    | apply emits_waitLinkUp_loop; intros; reflexivity
    | apply emits_garp; intros; reflexivity
    | apply emits_findInterfaces; intros; reflexivity ].

Ltac emits_auto := unfold logPrintf, logCall; repeat emits_step.

(** The detach never sets anything up: whatever the outcome, CmdDel never
    saves a cache record, never creates an interface pair or a switch port,
    never runs the IPAM add and never configures, brings up or announces an
    interface. *)
Theorem CmdDel_never_sets_up (env : Env) (args : CmdArgs) :
  emits (fun ev => negb (isSetup ev)) (CmdDel env args).
Proof.
  unfold CmdDel, CmdDel_deferred, CmdDel_body, CmdDel_noNetns, CmdDel_withNetns,
    cleanPorts, getOvsPortForContIface, removeOvsPort.
  emits_auto.
Qed.

(** The attach never cleans up the cache or the links: whatever the outcome,
    CmdAdd never removes a cache record, never deletes a link and never
    resets or releases a virtual function; on a failure the only steps it
    takes back are the switch port and the IPAM allocation. *)
Theorem CmdAdd_never_tears_down (env : Env) (args : CmdArgs) :
  emits (fun ev => negb (isTeardown ev)) (CmdAdd env args).
Proof.
  unfold CmdAdd, CmdAdd_prelude, CmdAdd_provision, CmdAdd_armed, CmdAdd_ipam,
    CmdAdd_ipamDel, CmdAdd_rollback, CmdAdd_configure, CmdAdd_configureIface,
    CmdAdd_assignMac, assignMacToLink, waitLinkUp, attachIfaceToBridge, setupVeth,
    refetchIface, getHardwareAddr, setInterfaceUp, cleanPorts, getOvsPortForContIface,
    removeOvsPort.
  emits_auto.
Qed.

Lemma keeps_cache_findInterfaces env args hw ifaces :
  ∀ contIntf hostIntf,
    keeps_cache (CmdCheck_findInterfaces env args hw ifaces contIntf hostIntf).
Proof.
  induction ifaces as [|intf rest IH]; intros contIntf hostIntf;
    cbn [CmdCheck_findInterfaces];
    repeat first [apply IH | apply keeps_cache_validateInterface | keeps_cache_step].
Qed.

(** The part of CHECK that reads the cache record and the one that goes over
    the interfaces of the previous result only read: they log, connect to
    the switch database, look the cache record up and look links up, and
    they leave the cache store as it is. *)
Theorem CmdCheck_only_reads (env : Env) (args : CmdArgs) (ovsHWOffloadEnable : bool)
    (ifaces : list Interface) :
  emits isRead (CmdCheck_cache env args) ∧
  keeps_cache (CmdCheck_cache env args) ∧
  emits isRead (CmdCheck_interfaces env args ovsHWOffloadEnable ifaces) ∧
  keeps_cache (CmdCheck_interfaces env args ovsHWOffloadEnable ifaces).
Proof.
  split; [unfold CmdCheck_cache; emits_auto|].
  split; [apply keeps_cache_CmdCheck_cache|].
  split; [unfold CmdCheck_interfaces; emits_auto|].
  unfold CmdCheck_interfaces. apply keeps_cache_bind; [|intros; keeps_cache_auto].
  apply keeps_cache_findInterfaces.
Qed.

(** With an empty namespace path the detach stays out of the container
    namespace: CmdDel does not look the port up by the container interface,
    does not enter the namespace, deletes no link and releases no virtual
    function. *)
Theorem CmdDel_without_netns_stays_outside (env : Env) (args : CmdArgs) :
  Netns args = "" →
  emits (fun ev => negb (needsNetns ev)) (CmdDel env args).
Proof.
  intros Hnetns.
  unfold CmdDel, CmdDel_deferred, CmdDel_body. rewrite Hnetns, String.eqb_refl.
  unfold CmdDel_noNetns, cleanPorts, removeOvsPort.
  emits_auto.
Qed.

Lemma CmdDel_without_netns_stays_outside_witness :
  let env := demo_env (demo_netconf None [] "") (Ok "")
               (fun n => Ok (demo_link n)) (fun _ => None) (fun _ => None) (Ok ["veth9"])
               (fun _ => Ok "up") in
  emits (fun ev => negb (needsNetns ev)) (CmdDel env (demo_args "")).
Proof.
  intros env. apply CmdDel_without_netns_stays_outside. reflexivity.
Defined.

Lemma emits_eq {A} (P : Event -> bool) (m : M A) (w w' : World) (a : A) :
  emits P m → m w = (a, w') → ∃ t, trace w' = trace w ++ t ∧ Forall (fun ev => P ev = true) t.
Proof. intros Hm Heq. specialize (Hm w). by rewrite Heq in Hm. Qed.

(** When the provisioning of CmdAdd fails (the lookup of the virtual
    function, the saving of the cache record, the creation of the interface
    pair, the creation of the switch port or the bringing up of the host
    link), the attach returns that error and does nothing more than close
    the namespace: nothing done so far is taken back, neither by the
    provisioning itself nor afterwards, so a cache record already saved and
    a switch port already created are left in place. *)
Theorem CmdAdd_provisioning_failure_not_undone (env : Env) (args : CmdArgs)
    (w0 w1 w2 : World) (p : Prepared) (err : error) :
  CmdAdd_prelude env args (afterCall w0 (EvLogCall "ADD" args)) = (Ok p, w1) →
  CmdAdd_provision env args p w1 = (Err err, w2) →
  CmdAdd env args w0 = (Some err, afterCall w2 (EvNetnsClose (Netns args))) ∧
  ∃ t, trace w2 = trace w1 ++ t ∧ Forall (fun ev => negb (isUndo ev) = true) t.
Proof.
  intros Hprelude Hprov. split.
  - unfold afterCall in *. unfold CmdAdd. run. rewrite Hprelude. run. rewrite Hprov.
    reflexivity.
  - eapply (emits_eq (fun ev => negb (isUndo ev))); [|exact Hprov].
    unfold CmdAdd_provision, attachIfaceToBridge, setupVeth, refetchIface, getHardwareAddr,
      setInterfaceUp.
    emits_auto.
Qed.

Lemma CmdAdd_provisioning_failure_not_undone_witness :
  let env := demo_env (demo_netconf None [] "") (Ok "")
               (fun n => if String.eqb n "veth1" then Err ErrLinkNotFound
                         else Ok (demo_link n))
               (fun _ => None) (fun _ => None) (Ok []) (fun _ => Ok "up") in
  let args := demo_args "/proc/1/ns/net" in
  fst (CmdAdd env args emptyWorld) = Some ErrLinkNotFound ∧
  is_Some (cache (snd (CmdAdd env args emptyWorld)) !! "c1-eth0") ∧
  last (removelast (trace (snd (CmdAdd env args emptyWorld)))) = Some (EvLinkByName "veth1").
Proof.
  intros env args.
  edestruct (CmdAdd_provisioning_failure_not_undone env args emptyWorld) as [Hrun _].
  - vm_compute. reflexivity.
  - vm_compute. reflexivity.
  - rewrite Hrun. vm_compute. split; [reflexivity|]. split; [by eexists|reflexivity].
Defined.

(** ** The cache records of other attachments *)

Lemma keeps_other_keys_of_keeps_cache {A} cRef (m : M A) :
  keeps_cache m → keeps_other_keys cRef m.
Proof. intros Hm w k _. by rewrite Hm. Qed.

Lemma keeps_other_keys_bind {A B} cRef (m : M A) (k : A -> M B) :
  keeps_other_keys cRef m → (∀ a, keeps_other_keys cRef (k a)) →
  keeps_other_keys cRef (bind m k).
Proof.
  intros Hm Hk w key Hkey. unfold bind. specialize (Hm w key Hkey).
  destruct (m w) as [a w1]. rewrite Hk by done. exact Hm.
Qed.

Lemma keeps_other_keys_SaveCache env cRef c : keeps_other_keys cRef (SaveCache env cRef c).
Proof.
  intros w key Hkey. unfold SaveCache.
  destruct (SaveCache_fails env (trace w) cRef c); cbn [snd cache]; [done|].
  by apply lookup_insert_ne.
Qed.

Lemma keeps_other_keys_CleanCache env cRef : keeps_other_keys cRef (CleanCache env cRef).
Proof.
  intros w key Hkey. unfold CleanCache.
  destruct (CleanCache_fails env (trace w) cRef); cbn [snd cache]; [done|].
  by apply lookup_delete_ne.
Qed.

Lemma keeps_cache_CmdAdd_prelude env args : keeps_cache (CmdAdd_prelude env args).
Proof. unfold CmdAdd_prelude. keeps_cache_auto. Qed.

Ltac other_keys_step :=
  first
    [ apply keeps_other_keys_SaveCache
    | apply keeps_other_keys_CleanCache
    | apply keeps_other_keys_of_keeps_cache;
      solve [ apply keeps_cache_CmdAdd_prelude | apply keeps_cache_armed
            | apply keeps_cache_CmdDel_body | apply keeps_cache_LoadConfFromCache
            | keeps_cache_auto ]
    | apply keeps_other_keys_bind; [|intros]
    | match goal with
      | |- keeps_other_keys _ (match ?x with _ => _ end) => destruct x
      end ].

(** An attach or a detach changes no cache record but the one under the key
    of its own (container ID, interface name): the records of all other
    attachments are left as they are, whatever the outcome. *)
Theorem verbs_keep_records_of_other_attachments (env : Env) (args : CmdArgs) :
  keeps_other_keys (GetCRef env (ContainerID args) (IfName args)) (CmdAdd env args) ∧
  keeps_other_keys (GetCRef env (ContainerID args) (IfName args)) (CmdDel env args).
Proof.
  split.
  - unfold CmdAdd, CmdAdd_provision. repeat other_keys_step.
  - unfold CmdDel, CmdDel_deferred. repeat other_keys_step.
Qed.

Lemma verbs_keep_records_of_other_attachments_witness :
  let env := demo_env (demo_netconf None [] "") (Ok "")
               (fun n => Ok (demo_link n)) (fun _ => None) (fun _ => None) (Ok [])
               (fun _ => Ok "up") in
  let args := {| ContainerID := "c2"; Netns := "/proc/2/ns/net"; IfName := "eth0";
                 Args := ""; StdinData := "{}" |} in
  cache (snd (CmdAdd env args attachedWorld)) !! "c1-eth0" = Some demo_record ∧
  cache (snd (CmdDel env args (snd (CmdAdd env args attachedWorld)))) !! "c1-eth0"
    = Some demo_record.
Proof.
  intros env args.
  destruct (verbs_keep_records_of_other_attachments env args) as [Hadd Hdel].
  split.
  - rewrite (Hadd attachedWorld "c1-eth0"); [reflexivity|discriminate].
  - rewrite (Hdel _ "c1-eth0"), (Hadd attachedWorld "c1-eth0");
      [reflexivity|discriminate|discriminate].
Defined.

(** ** The DEL verb: failure of the IPAM del *)

(** When the cache holds a record with an IPAM type, the switch database can
    be reached and the IPAM del fails, CmdDel returns that error right away:
    it has made no call but the connections and the IPAM del, so no port and
    no link has been touched, and the cache record is kept for a later
    detach. *)
Theorem CmdDel_stops_when_IPAM_del_fails (env : Env) (args : CmdArgs) (w : World)
    (c : CachedNetConf) (envArgs : option EnvArgs) (bridgeName : string) (err : error) :
  let cRef := GetCRef env (ContainerID args) (IfName args) in
  let netconf := Netconf c in
  let ovnPort := match envArgs with Some e => OvnPort e | None => "" end in
  let h1 := trace w ++ [EvLogCall "DEL" args; EvLoadConfFromCache cRef] in
  let h2 := h1 ++ [EvNewOvsDriver (SocketFile netconf)] in
  let h3 := h2 ++ [EvNewOvsBridgeDriver bridgeName (SocketFile netconf)] in
  cache w !! cRef = Some c →
  getEnvArgs env (Args args) = Ok envArgs →
  NewOvsDriver env h1 (SocketFile netconf) = None →
  getBridgeName env (BrName netconf) ovnPort (DeviceID netconf) = Ok bridgeName →
  NewOvsBridgeDriver env h2 bridgeName (SocketFile netconf) = None →
  IPAM_Type netconf ≠ "" →
  ExecDel env h3 (IPAM_Type netconf) (StdinData args) = Some err →
  CmdDel env args w =
  (Some err,
   {| cache := cache w;
      trace := h3 ++ [EvExecDel (IPAM_Type netconf) (StdinData args)] |}).
Proof.
  intros cRef netconf ovnPort h1 h2 h3 Hrecord Henv Hdriver Hbridge Hbdriver Hipam Hdel.
  subst h3 h2 h1. apply nonEmpty_true in Hipam.
  unfold CmdDel, LoadConfFromCache, CmdDel_body, CmdDel_deferred. run.
  fold cRef. rewrite Hrecord, Henv. run. fold netconf.
  rewrite <- !app_assoc in *. cbn [app] in *.
  rewrite Hdriver. run. fold ovnPort. rewrite Hbridge. run.
  rewrite <- !app_assoc in *. cbn [app] in *.
  rewrite Hbdriver. run. rewrite Hipam. run.
  rewrite <- !app_assoc in *. cbn [app] in *.
  rewrite Hdel. run. rewrite <- ?app_assoc. reflexivity.
Qed.

Lemma CmdDel_stops_when_IPAM_del_fails_witness :
  let env := with_ExecDel
               (demo_env (demo_netconf None [] "host-local") (Ok "10.0.0.5")
                  (fun n => Ok (demo_link n)) (fun _ => None) (fun _ => None) (Ok [])
                  (fun _ => Ok "up"))
               (fun _ _ _ => Some (errors_New "ipam down")) in
  let r := CmdDel env (demo_args "/proc/1/ns/net") attachedWorldIPAM in
  fst r = Some (errors_New "ipam down") ∧ cache (snd r) = cache attachedWorldIPAM ∧
  actions (trace (snd r)) =
    [EvLoadConfFromCache "c1-eth0"; EvNewOvsDriver "unix:/var/run/openvswitch/db.sock";
     EvNewOvsBridgeDriver "br0" "unix:/var/run/openvswitch/db.sock";
     EvExecDel "host-local" "{}"].
Proof.
  intros env r. subst r.
  rewrite (CmdDel_stops_when_IPAM_del_fails env (demo_args "/proc/1/ns/net")
             attachedWorldIPAM
             {| Netconf := demo_netconf None [] "host-local"; OrigIfName := "";
                UserspaceMode := false |}
             None "br0" (errors_New "ipam down")).
  - repeat split.
  - reflexivity.
  - reflexivity.
  - reflexivity.
  - reflexivity.
  - reflexivity.
  - discriminate.
  - reflexivity.
Defined.

(** ** Bridge resolver and MAC derivation, once more *)

(** Only an empty bridge name can resolve to the empty name. *)
Lemma getBridgeName_Ok_empty env bridgeName ovnPort deviceID :
  getBridgeName env bridgeName ovnPort deviceID = Ok "" → bridgeName = "".
Proof.
  intros Hfirst. destruct (nonEmpty bridgeName) eqn:Hb.
  - unfold getBridgeName in Hfirst. rewrite Hb in Hfirst. injection Hfirst as ->.
    discriminate Hb.
  - by apply nonEmpty_false in Hb.
Qed.

(** The bridge name ADD resolves and stores in the cached configuration
    resolves to itself: when DEL or CHECK run [getBridgeName] again on the
    stored name, with the same OVN port and device ID, they get the same
    bridge. *)
Theorem getBridgeName_resolved_name_is_stable (env : Env)
    (bridgeName ovnPort deviceID resolved : string) :
  getBridgeName env bridgeName ovnPort deviceID = Ok resolved →
  getBridgeName env resolved ovnPort deviceID = Ok resolved.
Proof.
  intros Hfirst. destruct (nonEmpty resolved) eqn:Hres.
  - unfold getBridgeName. by rewrite Hres.
  - apply nonEmpty_false in Hres. subst resolved.
    pose proof (getBridgeName_Ok_empty _ _ _ _ Hfirst) as ->. exact Hfirst.
Qed.

Lemma getBridgeName_resolved_name_is_stable_witness :
  let env := demo_env (demo_netconf None [] "") (Ok "") (fun n => Ok (demo_link n))
               (fun _ => None) (fun _ => None) (Ok []) (fun _ => Ok "up") in
  getBridgeName env "br-phys" "" "0000:03:00.1" = Ok "br-phys".
Proof.
  intros env.
  apply (getBridgeName_resolved_name_is_stable env "" "" "0000:03:00.1"). reflexivity.
Defined.

Lemma To4_length (ip ip4 : IP) : To4 ip = Some ip4 → length ip4 = 4%nat.
Proof.
  unfold To4. destruct (length ip =? 4)%nat eqn:Hlen4.
  - intros [= <-]. by apply Nat.eqb_eq.
  - destruct (_ && _)%bool eqn:Hv6; [|discriminate]. intros [= <-].
    apply andb_prop in Hv6 as [Hv6 _]. apply andb_prop in Hv6 as [Hv6 _].
    apply andb_prop in Hv6 as [Hlen16%Nat.eqb_eq _].
    rewrite length_take, length_drop. lia.
Qed.

(** Two IPv4 addresses that get the same MAC from [IPAddrToHWAddr] are the
    same address: the derived MACs of the IPv4 addresses on a network do not
    collide, whether the addresses come in the 4-byte or the 16-byte form. *)
Theorem IPAddrToHWAddr_injective_on_IPv4 (env : Env) (ip1 ip2 a b : IP) :
  To4 ip1 = Some a → To4 ip2 = Some b →
  IPAddrToHWAddr env ip1 = IPAddrToHWAddr env ip2 →
  a = b.
Proof.
  intros H1 H2. unfold IPAddrToHWAddr. rewrite H1, H2.
  apply To4_length in H1, H2.
  destruct a as [|a0 [|a1 [|a2 [|a3 [|]]]]]; try discriminate H1.
  destruct b as [|b0 [|b1 [|b2 [|b3 [|]]]]]; try discriminate H2.
  unfold byteAt. cbn [nth]. congruence.
Qed.

Lemma IPAddrToHWAddr_injective_on_IPv4_witness :
  let env := demo_env (demo_netconf None [] "") (Ok "") (fun n => Ok (demo_link n))
               (fun _ => None) (fun _ => None) (Ok []) (fun _ => Ok "up") in
  [Byte.x0a; Byte.x00; Byte.x00; Byte.x05] = [Byte.x0a; Byte.x00; Byte.x00; Byte.x05].
Proof.
  intros env.
  apply (IPAddrToHWAddr_injective_on_IPv4 env
           [Byte.x0a; Byte.x00; Byte.x00; Byte.x05]
           (v4InV6 Byte.x0a Byte.x00 Byte.x00 Byte.x05)); reflexivity.
Defined.

(** ** DEL after ADD *)

Lemma CmdAdd_cache_after_provision env args w0 w1 w2 p hostIface contIface :
  CmdAdd_prelude env args (afterCall w0 (EvLogCall "ADD" args)) = (Ok p, w1) →
  CmdAdd_provision env args p w1 = (Ok (hostIface, contIface), w2) →
  ∃ origIfName,
    cache (snd (CmdAdd env args w0)) =
    <[GetCRef env (ContainerID args) (IfName args) :=
        {| Netconf := p_netconf p; OrigIfName := origIfName;
           UserspaceMode := p_userspaceMode p |}]> (cache w0).
Proof.
  intros Hprelude Hprov.
  destruct (CmdAdd_provision_saves _ _ _ _ _ _ _ Hprov) as (origIfName & Hsaved).
  pose proof (keeps_cache_eq _ _ _ _ (keeps_cache_CmdAdd_prelude env args) Hprelude) as Hw1.
  exists origIfName. unfold afterCall in *. unfold CmdAdd. run. rewrite Hprelude. run.
  rewrite Hprov. run.
  match goal with
  | |- context [CmdAdd_armed ?e ?a ?m ?n ?u ?h ?c ?w] =>
      pose proof (keeps_cache_armed e a m n u h c w) as Harmed;
      destruct (CmdAdd_armed e a m n u h c w) as [retval w3]
  end.
  cbn [fst snd cache] in *. by rewrite Harmed, Hsaved, Hw1.
Qed.

Lemma CmdDel_body_software_ok env args c w envArgs bridgeName :
  getEnvArgs env (Args args) = Ok envArgs →
  getBridgeName env (BrName (Netconf c))
    (match envArgs with Some e => OvnPort e | None => "" end) (DeviceID (Netconf c))
    = Ok bridgeName →
  Netns args ≠ "" →
  IsOvsHardwareOffloadEnabled env (DeviceID (Netconf c)) = false →
  (∀ h socketFile, NewOvsDriver env h socketFile = None) →
  (∀ h b socketFile, NewOvsBridgeDriver env h b socketFile = None) →
  (∀ h ipamType stdin, ExecDel env h ipamType stdin = None) →
  (∀ h, ∃ portName portFound,
     GetOvsPortForContIface env h (IfName args) (Netns args) = (portName, portFound, None)) →
  (∀ h portName, DeletePort env h portName = None) →
  (∀ h, WithNetNSPath_enter env h (Netns args) = None) →
  (∀ h, DelLinkByName env h (IfName args) = None) →
  (∀ h, ∃ ifaces, FindInterfacesWithError env h = Ok ifaces) →
  fst (CmdDel_body env args c w) = (None, None).
Proof.
  intros Henv Hbridge Hnetns Hoff Hdriver Hbdriver Hexecdel Hport Hdelport Hns Hdellink Hfind.
  unfold CmdDel_body. rewrite Henv. run. rewrite Hdriver. run. rewrite Hbridge. run.
  rewrite Hbdriver. run.
  destruct (nonEmpty (IPAM_Type (Netconf c))); run; rewrite ?Hexecdel; run;
    (destruct (String.eqb_spec (Netns args) "") as [|_]; [done|]);
    unfold CmdDel_withNetns, getOvsPortForContIface, removeOvsPort; run;
    match goal with
    | |- context [GetOvsPortForContIface env ?h _ _] =>
        destruct (Hport h) as (portName & portFound & ->)
    end;
    destruct portFound; run; rewrite ?Hdelport; run; rewrite Hoff; run;
    rewrite Hns; run; rewrite Hdellink; run; unfold cleanPorts; run;
    match goal with
    | |- context [FindInterfacesWithError env ?h] =>
        destruct (Hfind h) as (ifaces & ->)
    end; run;
    match goal with
    | |- context [cleanPorts_loop env ?l ?w1] =>
        destruct (cleanPorts_loop env l w1) as [[] w2]
    end; reflexivity.
Qed.

(** ADD then DEL.  After an attach of a software (veth) interface that got
    as far as creating the switch port, whether or not it then succeeded, a
    detach with the same arguments whose calls all succeed returns nil and
    removes the record the attach saved; the records of other attachments
    are as they were before the attach. *)
Theorem CmdDel_after_CmdAdd_removes_record (env : Env) (args : CmdArgs) (w0 w1 w2 : World)
    (p : Prepared) (hostIface contIface : Interface) :
  let cRef := GetCRef env (ContainerID args) (IfName args) in
  CmdAdd_prelude env args (afterCall w0 (EvLogCall "ADD" args)) = (Ok p, w1) →
  CmdAdd_provision env args p w1 = (Ok (hostIface, contIface), w2) →
  Netns args ≠ "" →
  IsOvsHardwareOffloadEnabled env (DeviceID (p_netconf p)) = false →
  (∀ h socketFile, NewOvsDriver env h socketFile = None) →
  (∀ h b socketFile, NewOvsBridgeDriver env h b socketFile = None) →
  (∀ h ipamType stdin, ExecDel env h ipamType stdin = None) →
  (∀ h, ∃ portName portFound,
     GetOvsPortForContIface env h (IfName args) (Netns args) = (portName, portFound, None)) →
  (∀ h portName, DeletePort env h portName = None) →
  (∀ h, WithNetNSPath_enter env h (Netns args) = None) →
  (∀ h, DelLinkByName env h (IfName args) = None) →
  (∀ h, ∃ ifaces, FindInterfacesWithError env h = Ok ifaces) →
  (∀ h, CleanCache_fails env h cRef = None) →
  let afterAdd := snd (CmdAdd env args w0) in
  is_Some (cache afterAdd !! cRef) ∧
  fst (CmdDel env args afterAdd) = None ∧
  cache (snd (CmdDel env args afterAdd)) = delete cRef (cache w0).
Proof.
  intros cRef Hprelude Hprov Hnetns Hoff Hdriver Hbdriver Hexecdel Hport Hdelport Hns
    Hdellink Hfind Hclean afterAdd.
  destruct (CmdAdd_cache_after_provision _ _ _ _ _ _ _ _ Hprelude Hprov)
    as (origIfName & Hcache).
  fold cRef afterAdd in Hcache.
  destruct (CmdAdd_prelude_resolves _ _ _ _ _ Hprelude)
    as (envArgs & netconf0 & bridgeName & Henv & _ & Hovn & Hbridge & Hp).
  set (record := {| Netconf := p_netconf p; OrigIfName := origIfName;
                    UserspaceMode := p_userspaceMode p |}) in *.
  assert (cache afterAdd !! cRef = Some record) as Hrecord.
  { rewrite Hcache. apply lookup_insert_eq. }
  split; [by eexists|].
  assert (∀ w, fst (CmdDel_body env args record w) = (None, None)) as Hbody.
  { intros w. apply (CmdDel_body_software_ok env args record w envArgs bridgeName);
      try done.
    cbn [Netconf record]. rewrite Hp. cbn [BrName DeviceID set_BrName].
    rewrite <- Hovn. destruct (nonEmpty bridgeName) eqn:Hres.
    - unfold getBridgeName. by rewrite Hres.
    - apply nonEmpty_false in Hres. subst bridgeName.
      by rewrite (getBridgeName_Ok_empty _ _ _ _ Hbridge) in Hbridge. }
  destruct (CmdDel_cleanup_follows_err_variable env args afterAdd record Hrecord)
    as (Hret & _ & Hdel).
  rewrite Hbody in Hret, Hdel. cbn [fst snd] in Hret, Hdel.
  split; [exact Hret|].
  rewrite Hdel by (done || apply Hclean). rewrite Hcache. apply delete_insert_eq.
Qed.

Lemma CmdDel_after_CmdAdd_removes_record_witness :
  let env := demo_env (demo_netconf None [] "") (Ok "")
               (fun n => Ok (demo_link n)) (fun _ => None) (fun _ => None) (Ok [])
               (fun _ => Ok "up") in
  let args := demo_args "/proc/1/ns/net" in
  let afterAdd := snd (CmdAdd env args emptyWorld) in
  is_Some (cache afterAdd !! "c1-eth0") ∧
  fst (CmdDel env args afterAdd) = None ∧
  cache (snd (CmdDel env args afterAdd)) = delete "c1-eth0" ∅.
Proof.
  intros env args.
  eapply (CmdDel_after_CmdAdd_removes_record env args emptyWorld).
  - vm_compute. reflexivity.
  - vm_compute. reflexivity.
  - discriminate.
  - reflexivity.
  - reflexivity.
  - reflexivity.
  - reflexivity.
  - intros h. by exists "veth1", true.
  - reflexivity.
  - reflexivity.
  - reflexivity.
  - intros h. by exists [].
  - reflexivity.
Defined.

(** ** The ADD verb: requested MAC, outcome nil *)

Lemma emits_bind_eq {A B} (P : Event -> bool) (m : M A) (k : A -> M B) :
  emits P m → (∀ a w w', m w = (a, w') → emits P (k a)) → emits P (bind m k).
Proof.
  intros Hm Hk w. unfold bind. destruct (Hm w) as (t1 & Ht1 & HP1).
  destruct (m w) as [a w1] eqn:Hrun. destruct (Hk a w w1 Hrun w1) as (t2 & Ht2 & HP2).
  exists (t1 ++ t2). cbn [snd] in *. split; [by rewrite Ht2, Ht1, app_assoc|].
  by apply Forall_app.
Qed.

Lemma CmdAdd_prelude_mac env args w p w1 :
  CmdAdd_prelude env args w = (Ok p, w1) →
  ∃ envArgs,
    getEnvArgs env (Args args) = Ok envArgs ∧
    p_mac p = match envArgs with Some e => MAC e | None => "" end.
Proof.
  unfold CmdAdd_prelude. intros H.
  destruct (getEnvArgs env (Args args)) as [envArgs|]; [|discriminate H].
  destruct (LoadConf env (StdinData args)) as [netconf0|]; [|discriminate H].
  destruct (CmdAdd_portKind netconf0) as [[[vlanTagNum trunks] portType]|]; [|discriminate H].
  apply bind_inv in H as (d & wa & _ & H). destruct d; [discriminate H|].
  destruct (getBridgeName env _ _ _) as [bridgeName|]; [|discriminate H].
  apply bind_inv in H as (b & wb & _ & H). destruct b; [discriminate H|].
  apply bind_inv in H as (um & wc & _ & H). destruct um as [userspaceMode|]; [|discriminate H].
  apply bind_inv in H as (c & wd & _ & H). destruct c; [discriminate H|].
  apply bind_inv in H as (g & we & _ & H). destruct g; [discriminate H|].
  injection H as <- _. by exists envArgs.
Qed.

(** A MAC requested in the arguments of the attach is never replaced: when
    the arguments carry a MAC, CmdAdd never sets the hardware address of a
    link itself (the MAC derived from the first address is used only when no
    MAC was requested); the requested MAC goes to the creation of the
    interface pair. *)
Theorem CmdAdd_requested_mac_not_overridden (env : Env) (args : CmdArgs) (e : EnvArgs) :
  getEnvArgs env (Args args) = Ok (Some e) →
  MAC e ≠ "" →
  emits (fun ev => negb (isSetMac ev)) (CmdAdd env args).
Proof.
  intros Henv Hmac. unfold CmdAdd.
  apply emits_bind; [emits_auto|intros _].
  apply emits_bind_eq.
  { unfold CmdAdd_prelude, cleanPorts. emits_auto. }
  intros [p|err] w w1 Hprelude; [|emits_auto].
  apply CmdAdd_prelude_mac in Hprelude as (envArgs & Henv' & Hp).
  rewrite Henv in Henv'. injection Henv' as <-.
  assert (String.eqb (p_mac p) "" = false) as Hrequested.
  { rewrite Hp. by apply String.eqb_neq. }
  unfold CmdAdd_provision, CmdAdd_armed, CmdAdd_ipam, CmdAdd_ipamDel, CmdAdd_rollback,
    CmdAdd_configure, CmdAdd_configureIface, CmdAdd_assignMac, waitLinkUp,
    attachIfaceToBridge, setupVeth, refetchIface, getHardwareAddr, setInterfaceUp,
    getOvsPortForContIface, removeOvsPort.
  rewrite Hrequested. cbn [andb].
  emits_auto.
Qed.

Lemma CmdAdd_requested_mac_not_overridden_witness :
  let env := with_LoadArgs
               (demo_env (demo_netconf None [] "host-local") (Ok "10.0.0.5")
                  (fun n => Ok (demo_link n)) (fun _ => None) (fun _ => None) (Ok [])
                  (fun _ => Ok "up"))
               (fun _ => Ok {| MAC := "02:00:00:00:00:09"; OvnPort := "";
                               K8S_POD_UID := "" |}) in
  let args := {| ContainerID := "c1"; Netns := "/proc/1/ns/net"; IfName := "eth0";
                 Args := "MAC=02:00:00:00:00:09"; StdinData := "{}" |} in
  emits (fun ev => negb (isSetMac ev)) (CmdAdd env args).
Proof.
  intros env args.
  apply (CmdAdd_requested_mac_not_overridden env args
           {| MAC := "02:00:00:00:00:09"; OvnPort := ""; K8S_POD_UID := "" |}).
  - reflexivity.
  - discriminate.
Defined.

Lemma attachIfaceToBridge_trace env h c o v t pt it n ovn uid w a w' :
  attachIfaceToBridge env h c o v t pt it n ovn uid w = (a, w') →
  ∃ rest,
    trace w' = trace w ++ EvCreatePort h n c ovn o v t pt it uid :: rest ∧
    Forall (fun ev => isUndo ev = false) rest.
Proof.
  unfold attachIfaceToBridge. run. intros H.
  destruct_matches_in H; injection H as _ <-; cbn [trace]; rewrite <- ?app_assoc;
    cbn [app]; eexists; (split; [reflexivity|]); repeat constructor.
Qed.

Lemma CmdAdd_ipam_flow env args mac netconf hostIface contIface w flow w' :
  CmdAdd_ipam env args mac netconf hostIface contIface w = (flow, w') →
  match flow with
  | Return retval _ => retval ≠ None
  | Continue _ errvar => errvar = None
  end.
Proof.
  unfold CmdAdd_ipam. intros H.
  apply bind_inv in H as (r & wa & _ & H).
  destruct r as [raw|err]; [|by injection H as <- _].
  destruct (NewResultFromResult env raw) as [newResult0|err]; [|by injection H as <- _].
  destruct (length (IPs newResult0) =? 0)%nat; [by injection H as <- _|].
  apply bind_inv in H as (e & wb & _ & H).
  destruct e as [err|]; [by injection H as <- _|].
  apply bind_inv in H as (entered & wc & _ & H).
  apply bind_inv in H as (x & wd & _ & H).
  destruct (fst x) as [err|]; by injection H as <- _.
Qed.

Lemma CmdAdd_armed_nil env args mac netconf userspaceMode hostIface contIface w w' :
  CmdAdd_armed env args mac netconf userspaceMode hostIface contIface w = (None, w') →
  ∃ t, trace w' = trace w ++ t ∧ Forall (fun ev => isUndo ev = false) t.
Proof.
  assert (∀ t, Forall (fun ev => negb (isUndo ev) = true) t →
               Forall (fun ev => isUndo ev = false) t) as Hneg.
  { intros t Ht. eapply Forall_impl; [exact Ht|]. intros ev. cbn beta.
    by destruct (isUndo ev). }
  unfold CmdAdd_armed. intros H.
  destruct (nonEmpty (IPAM_Type netconf) && negb userspaceMode)%bool.
  - apply bind_inv in H as (flow & wa & Hflow & H).
    pose proof (CmdAdd_ipam_flow _ _ _ _ _ _ _ _ _ Hflow) as Hshape.
    assert (emits (fun ev => negb (isUndo ev))
              (CmdAdd_ipam env args mac netconf hostIface contIface)) as Hemits.
    { unfold CmdAdd_ipam, CmdAdd_configure, CmdAdd_configureIface, CmdAdd_assignMac,
        assignMacToLink, waitLinkUp. emits_auto. }
    destruct (emits_eq _ _ _ _ _ Hemits Hflow) as (t & Ht & HP).
    destruct flow as [retval errvar|result' errvar].
    + revert H. run. intros H.
      destruct (CmdAdd_ipamDel env args netconf errvar wa) as [[] wb].
      destruct (CmdAdd_rollback env args errvar wb) as [[] wc].
      cbn [fst snd] in H. by injection H as -> _.
    + subst errvar. revert H. unfold CmdAdd_ipamDel, CmdAdd_rollback. run.
      intros H. injection H as _ <-. cbn [trace]. rewrite Ht.
      exists (t ++ [EvPrintResult result' (CNIVersion netconf)]).
      split; [by rewrite app_assoc|]. apply Forall_app. split; [by apply Hneg|].
      by repeat constructor.
  - revert H. unfold CmdAdd_rollback. run. intros H. injection H as _ <-. cbn [trace].
    eexists. split; [reflexivity|]. by repeat constructor.
Qed.

(** What a nil from the attach means: CmdAdd returns nil only when the
    configuration loaded, the cache record of this attachment is in the
    cache (the other records being as before), the switch port has been
    created with the port kind computed from the configuration, and nothing
    has been undone since: after the creation of the port no port was
    deleted, no IPAM del was run and no record, link or virtual function was
    cleaned up. *)
Theorem CmdAdd_nil_means_attached (env : Env) (args : CmdArgs) (w0 : World) :
  fst (CmdAdd env args w0) = None →
  ∃ netconf0 p hostIface contIface origIfName before after,
    LoadConf env (StdinData args) = Ok netconf0 ∧
    CmdAdd_portKind netconf0 = Ok (p_vlanTagNum p, p_trunks p, p_portType p) ∧
    cache (snd (CmdAdd env args w0)) =
      <[GetCRef env (ContainerID args) (IfName args) :=
          {| Netconf := p_netconf p; OrigIfName := origIfName;
             UserspaceMode := p_userspaceMode p |}]> (cache w0) ∧
    trace (snd (CmdAdd env args w0)) =
      before ++
      EvCreatePort (Name hostIface) (Netns args) (Name contIface) (p_ovnPort p)
        (OfportRequest (p_netconf p)) (p_vlanTagNum p) (p_trunks p) (p_portType p)
        (InterfaceType (p_netconf p)) (p_contPodUid p) :: after ∧
    Forall (fun ev => isUndo ev = false) after.
Proof.
  intros Hnil.
  destruct (CmdAdd_prelude env args (afterCall w0 (EvLogCall "ADD" args)))
    as [[p|err] w1] eqn:Hprelude.
  2:{ revert Hnil. unfold afterCall in *. unfold CmdAdd. run. rewrite Hprelude.
      discriminate. }
  destruct (CmdAdd_provision env args p w1) as [[[hostIface contIface]|err] w2] eqn:Hprov.
  2:{ revert Hnil. unfold afterCall in *. unfold CmdAdd. run. rewrite Hprelude. run.
      rewrite Hprov. discriminate. }
  destruct (CmdAdd_cache_after_provision _ _ _ _ _ _ _ _ Hprelude Hprov)
    as (origIfName & Hcache).
  destruct (CmdAdd_prelude_Ok _ _ _ _ _ Hprelude) as (netconf0 & bridgeName & Hconf & Hkind & _).
  assert (∃ before rest,
            trace w2 = before ++
              EvCreatePort (Name hostIface) (Netns args) (Name contIface) (p_ovnPort p)
                (OfportRequest (p_netconf p)) (p_vlanTagNum p) (p_trunks p) (p_portType p)
                (InterfaceType (p_netconf p)) (p_contPodUid p) :: rest ∧
            Forall (fun ev => isUndo ev = false) rest) as (before & rest & Hw2 & Hrest).
  { pose proof Hprov as H. unfold CmdAdd_provision in H.
    apply bind_inv in H as (o & wa & _ & H). destruct o as [o|]; [|discriminate H].
    apply bind_inv in H as (saved & wb & _ & H). destruct saved; [discriminate H|].
    apply bind_inv in H as (ifs & wc & _ & H). destruct ifs as [[h c]|]; [|discriminate H].
    apply bind_inv in H as (att & wd & Hatt & H).
    destruct att; [discriminate H|]. injection H as <- <- <-.
    apply attachIfaceToBridge_trace in Hatt as (rest & Hatt & Hrest). eauto. }
  destruct (CmdAdd_armed env args (p_mac p) (p_netconf p) (p_userspaceMode p)
              hostIface contIface w2) as [retval w3] eqn:Harmed.
  assert (CmdAdd env args w0 = (retval, afterCall w3 (EvNetnsClose (Netns args)))) as Hrun.
  { unfold afterCall in *. unfold CmdAdd. run. rewrite Hprelude. run. rewrite Hprov. run.
    rewrite Harmed. reflexivity. }
  rewrite Hrun in Hnil. cbn [fst] in Hnil. subst retval.
  apply CmdAdd_armed_nil in Harmed as (t & Hw3 & Ht).
  exists netconf0, p, hostIface, contIface, origIfName, before,
    (rest ++ t ++ [EvNetnsClose (Netns args)]).
  split; [exact Hconf|]. split; [exact Hkind|]. split; [exact Hcache|].
  rewrite Hrun. cbn [snd afterCall trace]. split.
  - rewrite Hw3, Hw2, <- !app_assoc. reflexivity.
  - apply Forall_app. split; [exact Hrest|]. apply Forall_app. split; [exact Ht|].
    by repeat constructor.
Qed.

Lemma CmdAdd_nil_means_attached_witness :
  let env := demo_env (demo_netconf None [] "") (Ok "")
               (fun n => Ok (demo_link n)) (fun _ => None) (fun _ => None) (Ok [])
               (fun _ => Ok "up") in
  is_Some (cache (snd (CmdAdd env (demo_args "/proc/1/ns/net") emptyWorld)) !! "c1-eth0").
Proof.
  intros env.
  edestruct (CmdAdd_nil_means_attached env (demo_args "/proc/1/ns/net") emptyWorld)
    as (netconf0 & p & hostIface & contIface & origIfName & before & after
        & _ & _ & Hcache & _).
  - vm_compute. reflexivity.
  - rewrite Hcache. eexists. apply lookup_insert_eq.
Defined.
